(** * Link extraction and metadata enrichment pipeline of [main.py]

    A shallow embedding of the video-link pipeline served by
    [/api/notion/best-work] and [/api/youtube/metrics]: the regular
    expressions of [extract_youtube_id] and of the link scan, the
    response mapping of [get_youtube_details], and the two endpoints with
    their outbound requests, clock readings and exceptions threaded
    through a small state-and-exception monad.

    - A Python [str] is held as the bytes of its UTF-8 encoding, so a
      character outside ASCII is a group of bytes. What Python then asks
      of the Unicode database (which characters [\w] takes, what [int]
      reads as a space or a digit) is left to the [Interpreter].
    - A decoded response body is a [pyval]; what the code does with a
      value of the wrong kind (no [get], no subscript, no [int]) is the
      exception Python raises.
    - The models [Metric] and [WorkItem] are records, and building one
      validates its fields as the declared types say: a [str] field
      takes a string, an optional field also [None]. The URL type comes
      from the validation library and stays abstract ([UrlType]).
    - The network and the clock are the [World]; the requests sent so
      far and the clock readings taken are the [State]. *)

From Stdlib Require Import ZArith Lia Bool Ascii String Floats.SpecFloat.
From stdpp Require Import base list strings gmap.

Open Scope string_scope.
Open Scope list_scope.

#[local] Set Warnings "-clear-no-such-hyp".

(** ** Strings *)

Module Str.

(** [s[len(p):]] when [s.startswith(p)]. *)
Fixpoint strip_prefix (p s : string) : option string :=
  match p, s with
  | EmptyString, _ => Some s
  | String a p', String b s' => if Ascii.eqb a b then strip_prefix p' s' else None
  | String _ _, EmptyString => None
  end.

(** The longest prefix of [s] whose characters all satisfy [f]: what a
    greedy [[...]*] consumes. *)
Fixpoint take_while (f : ascii -> bool) (s : string) : string :=
  match s with
  | EmptyString => EmptyString
  | String c s' => if f c then String c (take_while f s') else EmptyString
  end.

Fixpoint drop_while (f : ascii -> bool) (s : string) : string :=
  match s with
  | EmptyString => EmptyString
  | String c s' => if f c then drop_while f s' else s
  end.

Fixpoint all (f : ascii -> bool) (s : string) : bool :=
  match s with
  | EmptyString => true
  | String c s' => f c && all f s'
  end.

(** [needle in s]. *)
Fixpoint contains (needle s : string) : bool :=
  match strip_prefix needle s with
  | Some _ => true
  | None =>
      match s with
      | EmptyString => false
      | String _ s' => contains needle s'
      end
  end.

(** [s.replace("\\/", "/")]: every occurrence of backslash-slash, left to
    right and without overlap, becomes a slash. *)
Fixpoint unescape_slashes (s : string) : string :=
  match s with
  | EmptyString => EmptyString
  | String "\" (String "/" s') => String "/" (unescape_slashes s')
  | String c s' => String c (unescape_slashes s')
  end.

(** The strings of a list, one after the other. *)
Definition join (l : list string) : string := fold_right String.append "" l.

(** The longest prefix of a list whose members all satisfy [f]. *)
Fixpoint run (f : string -> bool) (l : list string) : list string :=
  match l with
  | c :: l' => if f c then c :: run f l' else []
  | [] => []
  end.

(** How many characters of [s] satisfy [f]. *)
Fixpoint count (f : ascii -> bool) (s : string) : nat :=
  match s with
  | EmptyString => O
  | String c s' => if f c then S (count f s') else count f s'
  end.

End Str.

(** ** Characters *)

(** In UTF-8 a byte below 128 is an ASCII character; any other character
    is a leading byte and the continuation bytes, 128 to 191, that follow
    it. *)
Definition is_ascii_byte (b : ascii) : bool := (nat_of_ascii b <? 128)%nat.

Definition is_continuation (b : ascii) : bool :=
  (128 <=? nat_of_ascii b)%nat && (nat_of_ascii b <? 192)%nat.

(** The characters of a text, each by its bytes. A byte is put before
    the characters of the rest; a byte outside ASCII joins the first of
    them when that one starts with a continuation byte, so that such a
    byte takes all the continuation bytes behind it ([chars_unfold]
    reads the same from the left). *)
Fixpoint chars (s : string) : list string :=
  match s with
  | EmptyString => []
  | String b s' =>
      match chars s' with
      | String c r :: cs =>
          if negb (is_ascii_byte b) && is_continuation c
          then String b (String c r) :: cs
          else String b "" :: String c r :: cs
      | cs => String b "" :: cs
      end
  end.


(** What the interpreter brings: its Unicode database, asked only about
    characters outside ASCII, each given by its bytes, and its limit on
    the digits of an integer literal. *)
Class Interpreter : Type := {
  (** [c.isalnum()] *)
  unicode_isalnum : string -> bool;
  (** [c.isspace()] *)
  unicode_isspace : string -> bool;
  (** the value, 0 to 9, of a decimal digit *)
  unicode_decimal : string -> option nat;
  (** [sys.get_int_max_str_digits()]: 4300 unless configured, 0 for no limit *)
  int_max_str_digits : nat;
}.

(** ** Character classes of the patterns *)

Definition in_range (lo hi c : ascii) : bool :=
  (nat_of_ascii lo <=? nat_of_ascii c)%nat && (nat_of_ascii c <=? nat_of_ascii hi)%nat.

(** [\w] on ASCII *)
Definition is_word_char (c : ascii) : bool :=
  in_range "a" "z" c || in_range "A" "Z" c || in_range "0" "9" c || Ascii.eqb c "_".


(** [\w] on a character. The patterns are [str] patterns, so the class
    is the Unicode one: the underscore and what is alphanumeric. *)
Definition word_char `{Interpreter} (c : string) : bool :=
  match c with
  | String b EmptyString => if is_ascii_byte b then is_word_char b else unicode_isalnum c
  | _ => unicode_isalnum c
  end.

(** [[\w-]] on a character *)
Definition id_char `{Interpreter} (c : string) : bool :=
  word_char c || String.eqb c "-".

(** The double quote, character 34. *)
Definition dquote : ascii := "034"%char.

(** The class of every character but the double quote. *)
Definition not_quote (c : ascii) : bool := negb (Ascii.eqb c dquote).

(** ** [extract_youtube_id] *)

(** The characters that [[\w-]*] takes at the head of [s]. *)
Definition id_run `{Interpreter} (s : string) : list string :=
  Str.run id_char (chars s).

(** The pattern [marker([\w-]{6,})] tried at the head of [s]: the literal
    marker, then the longest run of identifier characters, which must
    count six or more.  Nothing follows the group in the pattern, so the
    greedy run is the capture. *)
Definition match_id_at `{Interpreter} (marker s : string) : option string :=
  match Str.strip_prefix marker s with
  | Some rest =>
      let tok := id_run rest in
      if (6 <=? length tok)%nat then Some (Str.join tok) else None
  | None => None
  end.

(** [re.search] for such a pattern, returning [group(1)]: positions are
    tried from the left and the first that matches wins. *)
Fixpoint search_id `{Interpreter} (marker s : string) : option string :=
  match match_id_at marker s with
  | Some tok => Some tok
  | None =>
      match s with
      | EmptyString => None
      | String _ s' => search_id marker s'
      end
  end.

(** On a [str] argument no operation of the [try] block raises, so the
    function is the three searches in order; [None] is Python's [None]. *)
Definition extract_youtube_id `{Interpreter} (url : string) : option string :=
  match search_id "youtu.be/" url with
  | Some short_match => Some short_match
  | None =>
      match search_id "v=" url with
      | Some id_match => Some id_match
      | None =>
          match search_id "/embed/" url with
          | Some embed_match => Some embed_match
          | None => None
          end
      end
  end.

(** What a pattern looks for: somewhere in the link the marker stands
    right before six or more characters that are word characters or
    hyphens. *)
Definition has_shape `{Interpreter} (marker url : string) : Prop :=
  exists pre rest,
    url = pre +:+ marker +:+ rest /\ (6 <= length (id_run rest))%nat.

(** ** The link scan of [notion_best_work] *)

(** [href=] and the opening quote. *)
Definition href_open : string := "href=" +:+ String dquote "".

(** The text that follows the scheme in the pattern: a colon and two
    slashes, each slash behind a backslash.  In the raw pattern string
    [\\/] is the regular expression for a backslash and then a slash. *)
Definition escaped_slashes : string := ":\/\/".

(** What follows [http] or [https] in the pattern: the escaped slashes,
    then the longest non-empty run of characters that are no quote, then
    the closing quote.  A shorter run is followed by a character that is
    no quote, so backtracking into the run never helps. *)
Definition match_after_scheme (scheme s : string) : option string :=
  match Str.strip_prefix escaped_slashes s with
  | Some s' =>
      match Str.take_while not_quote s', Str.drop_while not_quote s' with
      | String c body, String _ _ => Some (scheme +:+ escaped_slashes +:+ String c body)
      | _, _ => None
      end
  | None => None
  end.

(** The whole pattern tried at the head of [s]; the result is group 1.
    The optional [s] is greedy: it is taken when present, and given back
    when the rest then fails. *)
Definition match_href_at (s : string) : option string :=
  match Str.strip_prefix href_open s with
  | Some s1 =>
      match Str.strip_prefix "http" s1 with
      | Some s2 =>
          match Str.strip_prefix "s" s2 with
          | Some s3 =>
              match match_after_scheme "https" s3 with
              | Some g => Some g
              | None => match_after_scheme "http" s2
              end
          | None => match_after_scheme "http" s2
          end
      | None => None
      end
  | None => None
  end.

(** [re.findall]: matches are found from the left and do not overlap.
    After a match the scan resumes behind its closing quote; [skip]
    counts the characters of the match still to be passed. *)
Fixpoint findall_href_from (skip : nat) (s : string) : list string :=
  match s with
  | EmptyString => []
  | String _ s' =>
      match skip with
      | S k => findall_href_from k s'
      | O =>
          match match_href_at s with
          | Some g => g :: findall_href_from (String.length href_open + String.length g) s'
          | None => findall_href_from 0 s'
          end
      end
  end.

Definition findall_href (html : string) : list string := findall_href_from 0 html.

(** The test of the first loop, on the unescaped link. *)
Definition is_youtube_link (href : string) : bool :=
  Str.contains "youtube.com/watch" href || Str.contains "youtu.be/" href.

(** The first loop: [yt_links] grows at its end. *)
Definition yt_links_loop (links : list string) : list string :=
  fold_left
    (fun yt_links href =>
       let href := Str.unescape_slashes href in
       if is_youtube_link href then yt_links ++ [href] else yt_links)
    links [].

(** The second loop, with its two variables [seen] and [ordered]. *)
Definition dedupe_step (st : gset string * list string) (l : string)
  : gset string * list string :=
  let '(seen, ordered) := st in
  if decide (l ∈ seen) then (seen, ordered) else ({[ l ]} ∪ seen, ordered ++ [l]).

Definition dedupe_loop (yt_links : list string) : list string :=
  snd (fold_left dedupe_step yt_links (∅, [])).

(** Lines 151 to 164: the value of [ordered] when the result loop starts. *)
Definition ordered_links (html : string) : list string :=
  take 3 (dedupe_loop (yt_links_loop (findall_href html))).

(** ** Python values *)

(** What [resp.json()] can return, and [None]. A dict is the list of its
    items, each key once. *)
#[local] Set Warnings "-register-all".
Inductive pyval : Type :=
| PNone
| PBool (b : bool)
| PInt (z : Z)
| PFloat (f : spec_float)
| PStr (s : string)
| PList (l : list pyval)
| PDict (d : list (string * pyval)).

(** The exceptions that occur. All derive from [Exception]. *)
Inductive exn : Type :=
| RequestException
| HTTPError
| JSONDecodeError
| AttributeError
| TypeError
| KeyError
| IndexError
| ValueError
| OverflowError
| ValidationError
| HTTPException (status : Z) (detail : string).

Inductive result (A : Type) : Type :=
| Ok (a : A)
| Raise (e : exn).
Arguments Ok {A} a.
Arguments Raise {A} e.

#[global] Instance result_ret : MRet result := fun _ a => Ok a.
#[global] Instance result_bind : MBind result := fun _ _ f r =>
  match r with
  | Ok a => f a
  | Raise e => Raise e
  end.
#[global] Instance result_fmap : FMap result := fun _ _ f r =>
  match r with
  | Ok a => Ok (f a)
  | Raise e => Raise e
  end.

Module Py.

(** [bool(v)] *)
Definition truthy (v : pyval) : bool :=
  match v with
  | PNone => false
  | PBool b => b
  | PInt z => negb (z =? 0)%Z
  | PFloat (S754_zero _) => false
  | PFloat _ => true
  | PStr s => negb (String.eqb s "")
  | PList l => match l with [] => false | _ => true end
  | PDict d => match d with [] => false | _ => true end
  end.

Fixpoint lookup (k : string) (d : list (string * pyval)) : option pyval :=
  match d with
  | [] => None
  | (k', v) :: d' => if String.eqb k k' then Some v else lookup k d'
  end.

(** [v.get(k, dflt)]; only a dict has [get]. *)
Definition get_default (v : pyval) (k : string) (dflt : pyval) : result pyval :=
  match v with
  | PDict d => Ok (default dflt (lookup k d))
  | _ => Raise AttributeError
  end.

(** [v.get(k)] *)
Definition get (v : pyval) (k : string) : result pyval := get_default v k PNone.

(** [v[k]] on a dict *)
Definition item (v : pyval) (k : string) : result pyval :=
  match v with
  | PDict d => match lookup k d with Some x => Ok x | None => Raise KeyError end
  | PNone | PBool _ | PInt _ | PFloat _ => Raise TypeError
  | PStr _ | PList _ => Raise TypeError
  end.

(** [v[0]] *)
Definition first (v : pyval) : result pyval :=
  match v with
  | PList (x :: _) => Ok x
  | PList [] => Raise IndexError
  | PStr s => match chars s with c :: _ => Ok (PStr c) | [] => Raise IndexError end
  | PDict _ => Raise KeyError
  | PNone | PBool _ | PInt _ | PFloat _ => Raise TypeError
  end.

(** ASCII whitespace as [int] knows it: tab to carriage return, and the
    space. *)
Definition is_space (c : ascii) : bool :=
  let n := nat_of_ascii c in
  ((9 <=? n) && (n <=? 13) || (n =? 32))%nat.

Definition is_digit (c : ascii) : bool := in_range "0" "9" c.

Definition digit_value (c : ascii) : Z := Z.of_nat (nat_of_ascii c - 48).

(** The digits of a decimal literal, after the first digit: a digit, or
    one underscore and then a digit; trailing whitespace may end it. *)
Fixpoint digits_from (acc : Z) (s : string) : option Z :=
  match s with
  | EmptyString => Some acc
  | String c s' =>
      if is_digit c then digits_from (10 * acc + digit_value c) s'
      else if Ascii.eqb c "_" then
        match s' with
        | String d s'' =>
            if is_digit d then digits_from (10 * acc + digit_value d) s'' else None
        | EmptyString => None
        end
      else if Str.all is_space s then Some acc
      else None
  end.

Definition unsigned_literal (s : string) : option Z :=
  match s with
  | String c s' => if is_digit c then digits_from (digit_value c) s' else None
  | EmptyString => None
  end.

(** What [int] makes of a character before it parses: an ASCII
    character stays; outside ASCII a space becomes the space, a decimal
    digit its ASCII digit, and any other character one that no literal
    has. *)
Definition ascii_of_char `{Interpreter} (c : string) : ascii :=
  let outside :=
    if unicode_isspace c then " "%char
    else match unicode_decimal c with
         | Some d => if (d <? 10)%nat then ascii_of_nat (48 + d) else "?"%char
         | None => "?"%char
         end in
  match c with
  | String b EmptyString => if is_ascii_byte b then b else outside
  | _ => outside
  end.

Definition to_ascii `{Interpreter} (s : string) : string :=
  string_of_list_ascii (ascii_of_char <$> chars s).

(** The limit on the digits of a literal: it applies to literals of more
    than 640 digits, when it is set. *)
Definition too_many_digits `{Interpreter} (s : string) : bool :=
  let digits := Str.count is_digit s in
  (640 <? digits)%nat && (0 <? int_max_str_digits)%nat && (int_max_str_digits <? digits)%nat.

(** [int(s)] for a string: whitespace, an optional sign, a decimal
    literal of no more digits than the limit, whitespace. *)
Definition int_of_str `{Interpreter} (s : string) : option Z :=
  let literal s' := if too_many_digits s' then None else unsigned_literal s' in
  match Str.drop_while is_space (to_ascii s) with
  | String "-" s' => Z.opp <$> literal s'
  | String "+" s' => literal s'
  | s' => literal s'
  end.

(** [int(f)] for a finite float: truncation toward zero. *)
Definition trunc_float (f : spec_float) : result Z :=
  match f with
  | S754_zero _ => Ok 0%Z
  | S754_infinity _ => Raise OverflowError
  | S754_nan => Raise ValueError
  | S754_finite sign m e =>
      let a := (if 0 <=? e then Z.pos m * 2 ^ e else Z.pos m / 2 ^ (- e))%Z in
      Ok (if sign then - a else a)%Z
  end.

(** [int(v)] *)
Definition int `{Interpreter} (v : pyval) : result Z :=
  match v with
  | PInt z => Ok z
  | PBool b => Ok (if b then 1 else 0)%Z
  | PFloat f => trunc_float f
  | PStr s => match int_of_str s with Some z => Ok z | None => Raise ValueError end
  | PNone | PList _ | PDict _ => Raise TypeError
  end.

End Py.

(** ** The response mapping of [get_youtube_details] *)

(** The dict that [get_youtube_details] returns: five keys, always
    present. [None] values are [PNone]; [views] is an [int] or [None]. *)
Record Details : Type := {
  d_title : pyval;
  d_channel : pyval;
  d_thumbnail_url : pyval;
  d_upload_date : pyval;
  d_views : option Z;
}.

(** Lines 123 to 134, on the decoded body [data]. [Ok None] is the
    early [return None]; an exception leaves through [Raise]. *)
Definition details_of_data `{Interpreter} (data : pyval) : result (option Details) :=
  items ← Py.get data "items";
  if negb (Py.truthy items) then Ok None else
  items ← Py.item data "items";
  item ← Py.first items;
  snippet ← Py.get_default item "snippet" (PDict []);
  stats ← Py.get_default item "statistics" (PDict []);
  title ← Py.get snippet "title";
  channel ← Py.get snippet "channelTitle";
  thumbnails ← Py.get_default snippet "thumbnails" (PDict []);
  high ← Py.get_default thumbnails "high" (PDict []);
  thumbnail_url ← Py.get high "url";
  upload_date ← Py.get snippet "publishedAt";
  view_count ← Py.get stats "viewCount";
  views ← (if Py.truthy view_count
           then v ← Py.get_default stats "viewCount" (PInt 0); Some <$> Py.int v
           else Ok None);
  Ok (Some {| d_title := title; d_channel := channel;
              d_thumbnail_url := thumbnail_url; d_upload_date := upload_date;
              d_views := views |}).

(** ** The models [Metric], [WorkItem] and [MetricsRequest] *)

(** A [datetime] in UTC, as microseconds since the epoch. *)
Definition datetime : Type := Z.

(** The URL type of the validation library: how a string is validated
    into a URL, and [str] of a URL. *)
Class UrlType : Type := {
  HttpUrl : Type;
  parse_HttpUrl : string -> option HttpUrl;
  str_HttpUrl : HttpUrl -> string;
}.

Record Metric : Type := {
  views : option Z;
  avg_retention : option spec_float;
  upload_date : option string;
  last_updated : option datetime;
}.

Record WorkItem `{UrlType} : Type := {
  title : string;
  channel : option string;
  youtube_url : option HttpUrl;
  thumbnail_url : option HttpUrl;
  outcome : option string;
  metrics : Metric;
}.

Record MetricsRequest `{UrlType} : Type := {
  url : HttpUrl;
  manual_retention_pct : option spec_float;
}.

Module Validate.

(** A [str] field takes a string and nothing else that a decoded body or
    the code can hand it. *)
Definition str (v : pyval) : result string :=
  match v with
  | PStr s => Ok s
  | _ => Raise ValidationError
  end.

Definition http_url `{UrlType} (v : pyval) : result HttpUrl :=
  match v with
  | PStr s => match parse_HttpUrl s with Some u => Ok u | None => Raise ValidationError end
  | _ => Raise ValidationError
  end.

(** [Optional[T]]: [None] stays [None]. *)
Definition optional {A : Type} (f : pyval -> result A) (v : pyval) : result (option A) :=
  match v with
  | PNone => Ok None
  | _ => Some <$> f v
  end.

End Validate.

(** [Metric(views=.., avg_retention=.., upload_date=.., last_updated=..)] *)
Definition Metric_new (views : option Z) (avg_retention : option spec_float)
    (upload_date : pyval) (last_updated : option datetime) : result Metric :=
  upload_date ← Validate.optional Validate.str upload_date;
  Ok {| views := views; avg_retention := avg_retention;
        upload_date := upload_date; last_updated := last_updated |}.

(** [WorkItem(title=.., channel=.., youtube_url=.., thumbnail_url=..,
    outcome=.., metrics=..)]: one [ValidationError] when any field is
    refused. *)
Definition WorkItem_new `{UrlType} (title channel youtube_url thumbnail_url outcome : pyval)
    (metrics : Metric) : result WorkItem :=
  title ← Validate.str title;
  channel ← Validate.optional Validate.str channel;
  youtube_url ← Validate.optional Validate.http_url youtube_url;
  thumbnail_url ← Validate.optional Validate.http_url thumbnail_url;
  outcome ← Validate.optional Validate.str outcome;
  Ok {| title := title; channel := channel; youtube_url := youtube_url;
        thumbnail_url := thumbnail_url; outcome := outcome; metrics := metrics |}.

(** ** Configuration, the outside world and the state of a request *)

(** The two environment variables, read at start-up. [os.getenv] gives
    [None] for an unset variable; [NOTION_PAGE_URL] has a default. *)
Record Config : Type := {
  YOUTUBE_API_KEY : option string;
  NOTION_PAGE_URL : string;
}.

Record Response : Type := {
  status_code : Z;
  text : string;
  (** [resp.json()], [None] when the body does not decode *)
  json : option pyval;
}.

(** What the world answers: the [n]-th outbound request, to [url], gets a
    response or fails ([None]: connection error, timeout); the [n]-th
    reading of the clock gives [utcnow n]. *)
Record World : Type := {
  http : nat -> string -> option Response;
  utcnow : nat -> datetime;
}.

(** What a request has done so far. *)
Record State : Type := {
  requested : list string;
  clock_reads : nat;
}.

Definition initial : State := {| requested := []; clock_reads := 0 |}.

(** Computations that read the world, change the state and may raise. *)
Definition M (A : Type) : Type := World -> State -> result A * State.

#[global] Instance M_ret : MRet M := fun _ a _ st => (Ok a, st).

#[global] Instance M_bind : MBind M := fun _ _ k m w st =>
  match m w st with
  | (Ok a, st') => k a w st'
  | (Raise e, st') => (Raise e, st')
  end.

(** A pure step that may raise. *)
Definition lift {A} (r : result A) : M A := fun _ st => (r, st).

(** [try: m  except Exception: h] *)
Definition try_except {A} (m : M A) (h : M A) : M A :=
  fun w st =>
    match m w st with
    | (Ok a, st') => (Ok a, st')
    | (Raise _, st') => h w st'
    end.

(** A [for] loop whose body appends one value to a list. *)
Fixpoint for_each {A B} (f : A -> M B) (l : list A) : M (list B) :=
  match l with
  | [] => mret []
  | x :: l' => y ← f x; ys ← for_each f l'; mret (y :: ys)
  end.

(** The state after one more request, and after one more clock reading. *)
Definition sent (url : string) (st : State) : State :=
  {| requested := requested st ++ [url]; clock_reads := clock_reads st |}.

Definition tick (st : State) : State :=
  {| requested := requested st; clock_reads := S (clock_reads st) |}.

(** The status codes for which [raise_for_status] raises: 4xx and 5xx. *)
Definition error_status (resp : Response) : bool :=
  ((400 <=? status_code resp) && (status_code resp <? 600))%Z.

(** [requests.get(url, timeout=12)] *)
Definition requests_get (url : string) : M Response :=
  fun w st =>
    match http w (length (requested st)) url with
    | Some resp => (Ok resp, sent url st)
    | None => (Raise RequestException, sent url st)
    end.

(** [resp.raise_for_status()] *)
Definition raise_for_status (resp : Response) : M unit :=
  if error_status resp then lift (Raise HTTPError) else mret tt.

(** [resp.json()] *)
Definition response_json (resp : Response) : M pyval :=
  match json resp with
  | Some data => mret data
  | None => lift (Raise JSONDecodeError)
  end.

(** [datetime.now(timezone.utc)] *)
Definition datetime_now : M datetime :=
  fun w st => (Ok (utcnow w (clock_reads st)), tick st).

(** ** The resolver and the two endpoints *)

(** Truth value of a [str] or [None]. *)
Definition str_truthy (o : option string) : bool :=
  match o with
  | Some s => negb (String.eqb s "")
  | None => false
  end.

Definition videos_endpoint : string :=
  "https://www.googleapis.com/youtube/v3/videos?part=snippet,statistics&id=".

(** The concatenation that builds the request URL; [str + None] raises. *)
Definition videos_url (video_id : option string) (key : string) : result string :=
  match video_id with
  | Some v => Ok (videos_endpoint +:+ v +:+ "&key=" +:+ key)
  | None => Raise TypeError
  end.

Section Endpoints.

Context `{Interpreter} `{UrlType} (cfg : Config).

Definition get_youtube_details (video_id : option string) : M (option Details) :=
  if negb (str_truthy (YOUTUBE_API_KEY cfg)) then mret None else
  try_except
    (url ← lift (videos_url video_id (default "" (YOUTUBE_API_KEY cfg)));
     resp ← requests_get url;
     raise_for_status resp;;
     data ← response_json resp;
     lift (details_of_data data))
    (mret None).

(** [details.get(k) if details else d] *)
Definition field_or (details : option Details) (f : Details -> pyval) (d : pyval) : pyval :=
  match details with
  | Some dt => f dt
  | None => d
  end.

Definition views_of (details : option Details) : option Z :=
  match details with
  | Some dt => d_views dt
  | None => None
  end.

(** The [WorkItem] both endpoints assemble from a link and its details;
    the clock is read while the arguments of [Metric] are evaluated. *)
Definition assemble (link : string) (details : option Details)
    (retention : option spec_float) : M WorkItem :=
  now ← datetime_now;
  metrics ← lift (Metric_new (views_of details) retention
                    (field_or details d_upload_date PNone) (Some now));
  lift (WorkItem_new
          (field_or details d_title (PStr "YouTube Video"))
          (field_or details d_channel PNone)
          (PStr link)
          (field_or details d_thumbnail_url PNone)
          PNone
          metrics).

(** Lines 168 and 169: the details of a link, looked up only when the
    link has an identifier. *)
Definition details_of_link (l : string) : M (option Details) :=
  let vid := extract_youtube_id l in
  if str_truthy vid then get_youtube_details vid else mret None.

(** The body of the result loop, lines 168 to 183. *)
Definition result_item (l : string) : M WorkItem :=
  details ← details_of_link l;
  assemble l details None.

Definition outcome_note : string := "N/A — add manually".

Definition placeholder (n : string) (now : datetime) : M WorkItem :=
  metrics ← lift (Metric_new None None PNone (Some now));
  lift (WorkItem_new
          (PStr ("Case Study Placeholder " +:+ n))
          (PStr "Channel Name")
          (PStr (NOTION_PAGE_URL cfg))
          PNone
          (PStr outcome_note)
          metrics).

(** Lines 189 to 216. *)
Definition fallback : M (list WorkItem) :=
  now ← datetime_now;
  p1 ← placeholder "1" now;
  p2 ← placeholder "2" now;
  p3 ← placeholder "3" now;
  mret [p1; p2; p3].

(** The [try] block: [Some results] when it returns, [None] when it falls
    through to the placeholders. *)
Definition best_work_attempt : M (option (list WorkItem)) :=
  r ← requests_get (NOTION_PAGE_URL cfg);
  raise_for_status r;;
  let html := text r in
  results ← for_each result_item (ordered_links html);
  mret (match results with [] => None | _ :: _ => Some results end).

(** [GET /api/notion/best-work] *)
Definition notion_best_work : M (list WorkItem) :=
  returned ← try_except best_work_attempt (mret None);
  match returned with
  | Some results => mret results
  | None => fallback
  end.

(** [POST /api/youtube/metrics] *)
Definition refresh_metrics (req : MetricsRequest) : M WorkItem :=
  let vid := extract_youtube_id (str_HttpUrl (url req)) in
  if negb (str_truthy vid)
  then lift (Raise (HTTPException 400 "Invalid YouTube URL"))
  else
    details ← get_youtube_details vid;
    assemble (str_HttpUrl (url req)) details (manual_retention_pct req).

End Endpoints.

(** ** Vocabulary of the properties *)

(** An [href] attribute as the pattern wants it: the opening, the value,
    the closing quote. *)
Definition href_attr (value : string) : string :=
  href_open +:+ value +:+ String dquote "".

(** The values the pattern captures: [http] or [https], the escaped
    slashes, and at least one character, none of them a quote. *)
Inductive escaped_url : string -> Prop :=
| escaped_url_intro (scheme : string) (c : ascii) (body : string) :
    scheme = "http" \/ scheme = "https" ->
    Str.all not_quote (String c body) = true ->
    escaped_url (scheme +:+ escaped_slashes +:+ String c body).

(** No attribute value is open where [s] ends: every [href=] with its
    opening quote in [s] has a further quote behind it in [s]. *)
Fixpoint values_closed (s : string) : bool :=
  match Str.strip_prefix href_open s with
  | Some value => negb (Str.all not_quote value)
  | None => true
  end &&
  match s with
  | EmptyString => true
  | String _ s' => values_closed s'
  end.

(** The second loop as a recursive function: the links of [l] that are
    not in [seen], each at its first place. *)
Fixpoint first_seen (seen : gset string) (l : list string) : list string :=
  match l with
  | [] => []
  | x :: l' =>
      if decide (x ∈ seen) then first_seen seen l'
      else x :: first_seen ({[ x ]} ∪ seen) l'
  end.

(** The watch link of the specification's example, as the pattern wants
    it in the page and as the scan returns it. *)
Definition watch_escaped : string := "https:\/\/www.youtube.com\/watch?v=abcdefg".
Definition watch_plain : string := "https://www.youtube.com/watch?v=abcdefg".

(** The number that a string of decimal digits writes. *)
Fixpoint decimal_value (acc : Z) (s : string) : Z :=
  match s with
  | EmptyString => acc
  | String c s' => decimal_value (10 * acc + Py.digit_value c) s'
  end.

(** The record built from the dicts of the first item. *)
Definition mapped (snippet high : list (string * pyval)) (views : option Z) : Details :=
  {| d_title := default PNone (Py.lookup "title" snippet);
     d_channel := default PNone (Py.lookup "channelTitle" snippet);
     d_thumbnail_url := default PNone (Py.lookup "url" high);
     d_upload_date := default PNone (Py.lookup "publishedAt" snippet);
     d_views := views |}.

(** The item of a link without details. *)
Definition bare_item `{UrlType} (u : HttpUrl) (retention : option spec_float) (now : datetime)
  : WorkItem :=
  {| title := "YouTube Video"; channel := None; youtube_url := Some u;
     thumbnail_url := None; outcome := None;
     metrics := {| views := None; avg_retention := retention;
                   upload_date := None; last_updated := Some now |} |}.

(** The item of a link with details, once its fields are validated. *)
Definition full_item `{UrlType} (u : HttpUrl) (dt : Details)
    (retention : option spec_float) (t : string)
    (ch : option string) (th : option HttpUrl) (ud : option string)
    (now : datetime) : WorkItem :=
  {| title := t; channel := ch; youtube_url := Some u; thumbnail_url := th;
     outcome := None;
     metrics := {| views := d_views dt; avg_retention := retention;
                   upload_date := ud; last_updated := Some now |} |}.

(** The fields of a details record pass validation. *)
Definition valid_details `{UrlType} (dt : Details) (t : string) (ch : option string)
    (th : option HttpUrl) (ud : option string) : Prop :=
  d_title dt = PStr t /\
  Validate.optional Validate.str (d_channel dt) = Ok ch /\
  Validate.optional Validate.http_url (d_thumbnail_url dt) = Ok th /\
  Validate.optional Validate.str (d_upload_date dt) = Ok ud.

(** The placeholder the fallback builds. *)
Definition placeholder_item `{UrlType} (u : HttpUrl) (now : datetime) (n : string) : WorkItem :=
  {| title := "Case Study Placeholder " +:+ n;
     channel := Some "Channel Name";
     youtube_url := Some u;
     thumbnail_url := None;
     outcome := Some outcome_note;
     metrics := {| views := None; avg_retention := None;
                   upload_date := None; last_updated := Some now |} |}.

(** What the page fetch hands to the link scan: the text of the page, or
    nothing when the request fails or the status is an error. *)
Definition fetched_page (cfg : Config) (w : World) (st : State) : option string :=
  match http w (length (requested st)) (NOTION_PAGE_URL cfg) with
  | Some r => if error_status r then None else Some (text r)
  | None => None
  end.

(** The three shapes as the specification words them, on the parts of
    a URL: the host, the segments of the path and the parameters of the
    query. *)
Module Shape.

(** What stands behind the first [://]; a link without one has no
    parts. *)
Fixpoint after_scheme (s : string) : string :=
  match Str.strip_prefix "://" s with
  | Some rest => rest
  | None =>
      match s with
      | EmptyString => EmptyString
      | String _ s' => after_scheme s'
      end
  end.

Definition in_host (c : ascii) : bool :=
  negb (Ascii.eqb c "/" || Ascii.eqb c "?" || Ascii.eqb c "#").

Definition in_path (c : ascii) : bool := negb (Ascii.eqb c "?" || Ascii.eqb c "#").

Definition in_query (c : ascii) : bool := negb (Ascii.eqb c "#").

Definition host (url : string) : string := Str.take_while in_host (after_scheme url).

Definition path (url : string) : string :=
  Str.take_while in_path (Str.drop_while in_host (after_scheme url)).

Definition query (url : string) : string :=
  match Str.drop_while in_path (after_scheme url) with
  | String "?" q => Str.take_while in_query q
  | _ => EmptyString
  end.

(** [s.split(sep)] *)
Fixpoint split (sep : ascii) (s : string) : list string :=
  match s with
  | EmptyString => [EmptyString]
  | String c s' =>
      if Ascii.eqb c sep then EmptyString :: split sep s'
      else match split sep s' with
           | x :: xs => String c x :: xs
           | [] => [String c EmptyString]
           end
  end.

(** A token of six or more word characters or hyphens starts [s]. *)
Definition token_at `{Interpreter} (s : string) : bool := (6 <=? length (id_run s))%nat.

(** The short domain, and a token as the first segment of the path. *)
Definition short_link `{Interpreter} (url : string) : bool :=
  String.eqb (host url) "youtu.be" &&
  match split "/" (path url) with
  | _ :: segment :: _ => token_at segment
  | _ => false
  end.

(** A parameter [v] whose value is a token. *)
Definition v_parameter `{Interpreter} (url : string) : bool :=
  existsb (fun parameter =>
             match Str.strip_prefix "v=" parameter with
             | Some value => token_at value
             | None => false
             end)
          (split "&" (query url)).

(** A segment [embed] of the path, and a token as the next segment. *)
Fixpoint embed_segment `{Interpreter} (segments : list string) : bool :=
  match segments with
  | segment :: rest =>
      (String.eqb segment "embed" &&
       match rest with next :: _ => token_at next | [] => false end)
      || embed_segment rest
  | [] => false
  end.

Definition accepted `{Interpreter} (url : string) : bool :=
  short_link url || v_parameter url || embed_segment (split "/" (path url)).

End Shape.

(** ** Worlds to run the endpoints in *)

Module Sample.

(** The decimal digits of full width, U+FF10 to U+FF19. *)
Definition fullwidth_digit (c : string) : option nat :=
  match c with
  | String "239" (String "188" (String d EmptyString)) =>
      let n := nat_of_ascii d in
      if ((144 <=? n) && (n <=? 153))%nat then Some (n - 144)%nat else None
  | _ => None
  end.

(** A literal of [n] digits. *)
Definition nines (n : nat) : string := string_of_list_ascii (replicate n "9"%char).

(** The no-break space, U+00A0. *)
Definition nbsp : string := String "194" (String "160" "").

(** A stand-in for the interpreter. Outside ASCII it knows four kinds of
    character: the letter é and the superscript two, alphanumeric and no
    decimal digits; the digits of full width; the no-break space. Its
    digit limit is the default. *)
Definition interpreter : Interpreter :=
  {| unicode_isalnum := fun c =>
       String.eqb c "é" || String.eqb c "²" || bool_decide (is_Some (fullwidth_digit c));
     unicode_isspace := fun c => String.eqb c nbsp;
     unicode_decimal := fullwidth_digit;
     int_max_str_digits := 4300 |}.

(** A stand-in for the URL type: a URL is its string, accepted when it
    starts with a scheme and goes on. *)
Definition plain_urls : UrlType :=
  {| HttpUrl := string;
     parse_HttpUrl := fun s =>
       match Str.strip_prefix "https://" s, Str.strip_prefix "http://" s with
       | Some (String _ _), _ | None, Some (String _ _) => Some s
       | _, _ => None
       end;
     str_HttpUrl := fun u => u |}.

Definition page_url : string := "https://example.notion.site/best-work".

Definition with_key : Config :=
  {| YOUTUBE_API_KEY := Some "secret"; NOTION_PAGE_URL := page_url |}.

Definition without_key : Config :=
  {| YOUTUBE_API_KEY := None; NOTION_PAGE_URL := page_url |}.

Definition high : list (string * pyval) :=
  [("url", PStr "https://i.ytimg.com/vi/abcdefg/hq.jpg")].

Definition thumbnails : list (string * pyval) := [("high", PDict high)].

Definition snippet : list (string * pyval) :=
  [("title", PStr "A video");
   ("channelTitle", PStr "A channel");
   ("publishedAt", PStr "2024-05-01T10:00:00Z");
   ("thumbnails", PDict thumbnails)].

Definition first_item (statistics : list (string * pyval)) : list (string * pyval) :=
  [("snippet", PDict snippet); ("statistics", PDict statistics)].

Definition items (statistics : list (string * pyval)) : list (string * pyval) :=
  [("items", PList [PDict (first_item statistics)])].

(** A body with one item, its statistics given. *)
Definition body (statistics : list (string * pyval)) : pyval :=
  PDict (items statistics).

Definition ok (txt : string) (data : option pyval) : Response :=
  {| status_code := 200; text := txt; json := data |}.

(** The page answers with [html]; the metadata service answers every
    other request with [data]. *)
Definition world (html : string) (data : pyval) : World :=
  {| http := fun _ url =>
       if String.eqb url page_url then Some (ok html None) else Some (ok "" (Some data));
     utcnow := fun n => (1700000000000000 + Z.of_nat n)%Z |}.

(** No request gets an answer. *)
Definition offline : World :=
  {| http := fun _ _ => None;
     utcnow := fun n => (1700000000000000 + Z.of_nat n)%Z |}.

Definition page (link : string) : string :=
  "<a " +:+ href_attr link +:+ ">video</a>".

(** Another attribute, with its quotes. *)
Definition class_attr : string := "class=" +:+ String dquote "x" +:+ String dquote "".

End Sample.

(** A page with two links: the watch link, and a short link whose token
    is too short for an identifier. *)
Definition two_links : string :=
  "<ul>" +:+ href_attr watch_escaped +:+ href_attr "https:\/\/youtu.be\/abc" +:+ "</ul>".

(** A retention of 42.5 percent. *)
Definition retention_42_5 : spec_float := S754_finite false 85 (-1).

(** ** Documents and the store ([database.py]) *)

(** The outcome of code whose exceptions are only ever looked at through
    [str(e)]: a value, or an exception by its message. *)
Inductive attempt (A : Type) : Type :=
| Done (a : A)
| Failed (message : string).
Arguments Done {A} a.
Arguments Failed {A} message.

(** The first [n] characters: [s[:n]]. *)
Definition first_chars (n : nat) (s : string) : string :=
  Str.join (take n (chars s)).

(** The two environment variables of the store. *)
Record Env : Type := {
  DATABASE_URL : option string;
  DATABASE_NAME : option string;
}.

(** [db is not None]: the handle is made at start-up when both variables
    are set and not empty. *)
Definition db_connected (env : Env) : bool :=
  str_truthy (DATABASE_URL env) && str_truthy (DATABASE_NAME env).

Definition not_available : string :=
  "Database not available. Check DATABASE_URL and DATABASE_NAME environment variables.".

Definition LOGO_COLLECTION : string := "logo".

Section Documents.
Context `{UrlType}.

(** The Python values that travel to and from the store. A dict is the
    list of its items, each key once; [OModel] is a model instance by
    its fields; [OTuple] stands for the containers that are neither list
    nor dict. *)
Inductive obj : Type :=
| ONone
| OBool (b : bool)
| OInt (z : Z)
| OFloat (f : spec_float)
| OStr (s : string)
| ODatetime (t : datetime)
| OObjectId (hex : string)
| OUrl (u : HttpUrl)
| OList (l : list obj)
| OTuple (l : list obj)
| ODict (d : list (string * obj))
| OModel (fields : list (string * obj)).

(** [model.model_dump()], value by value: models inside become dicts,
    through lists, tuples and dicts; every other value stays, URLs too. *)
Fixpoint dump_value (v : obj) : obj :=
  match v with
  | OModel fields => ODict (map (fun kv => (kv.1, dump_value kv.2)) fields)
  | ODict d => ODict (map (fun kv => (kv.1, dump_value kv.2)) d)
  | OList l => OList (map dump_value l)
  | OTuple l => OTuple (map dump_value l)
  | _ => v
  end.

Definition model_dump (fields : list (string * obj)) : list (string * obj) :=
  map (fun kv => (kv.1, dump_value kv.2)) fields.

(** [_to_plain] applied to the dumped form of [v], computed along [v]:
    the recursion of [_to_plain] below a model. *)
Fixpoint to_plain_dumped (v : obj) : obj :=
  match v with
  | OModel fields => ODict (map (fun kv => (kv.1, to_plain_dumped kv.2)) fields)
  | ODict d => ODict (map (fun kv => (kv.1, to_plain_dumped kv.2)) d)
  | OList l => OList (map to_plain_dumped l)
  | OTuple l => OTuple (map dump_value l)
  | OUrl u => OStr (str_HttpUrl u)
  | _ => v
  end.

(** [_to_plain]. The model branch is
    [{k: _to_plain(v) for k, v in value.model_dump().items()}]; that
    [to_plain_dumped] is [_to_plain] after the dump is
    [to_plain_dumped_spec] below. *)
Fixpoint to_plain (value : obj) : obj :=
  match value with
  | OModel fields => ODict (map (fun kv => (kv.1, to_plain_dumped kv.2)) fields)
  | ODict d => ODict (map (fun kv => (kv.1, to_plain kv.2)) d)
  | OList l => OList (map to_plain l)
  | OUrl u => OStr (str_HttpUrl u)
  | _ => value
  end.

(** [d[k] = v]: the value of an old key changes in place, a new key goes
    to the end. *)
Fixpoint dict_set (k : string) (v : obj) (d : list (string * obj)) : list (string * obj) :=
  match d with
  | [] => [(k, v)]
  | (k', v') :: d' => if String.eqb k k' then (k, v) :: d' else (k', v') :: dict_set k v d'
  end.

(** [d.get(k)] *)
Fixpoint dict_get (k : string) (d : list (string * obj)) : option obj :=
  match d with
  | [] => None
  | (k', v) :: d' => if String.eqb k k' then Some v else dict_get k d'
  end.

(** What [create_document] accepts: a model, by its fields, or a dict. *)
Inductive payload : Type :=
| OfModel (fields : list (string * obj))
| OfDict (d : list (string * obj)).

(** The items of a dict; other values have none. *)
Definition items_of (v : obj) : list (string * obj) :=
  match v with
  | ODict d => d
  | _ => []
  end.

(** Lines 48 to 51: [data.copy()] is a new dict with the same items. *)
Definition data_dict_of (data : payload) : list (string * obj) :=
  match data with
  | OfModel fields => items_of (to_plain (OModel fields))
  | OfDict d => items_of (to_plain (ODict d))
  end.

(** [str] of a value and [isoformat] of a datetime. *)
Class Rendering : Type := {
  py_str : obj -> string;
  isoformat : datetime -> string;
}.

Inductive operation : Type :=
| Insert (collection : string) (doc : list (string * obj))
| Find (collection : string) (filter : list (string * obj)) (limit : option Z)
| ListCollections.

(** What the store answers to the [n]-th operation of a request:
    [insert_one] gives the inserted id, [find] the documents of the
    cursor, with the limit when one was set. *)
Record Driver : Type := {
  insert_one : nat -> string -> list (string * obj) -> attempt obj;
  find : nat -> string -> list (string * obj) -> option Z -> attempt (list (list (string * obj)));
  list_collection_names : nat -> attempt (list string);
}.

Record DbWorld : Type := {
  driver : Driver;
  db_utcnow : nat -> datetime;
}.

Record DbState : Type := {
  operations : list operation;
  db_clock_reads : nat;
}.

Definition db_initial : DbState := {| operations := []; db_clock_reads := 0 |}.

Definition DB (A : Type) : Type := DbWorld -> DbState -> attempt A * DbState.

#[global] Instance DB_ret : MRet DB := fun _ a _ st => (Done a, st).

#[global] Instance DB_bind : MBind DB := fun _ _ k m w st =>
  match m w st with
  | (Done a, st') => k a w st'
  | (Failed msg, st') => (Failed msg, st')
  end.

(** [raise Exception(msg)] *)
Definition db_raise {A} (msg : string) : DB A := fun _ st => (Failed msg, st).

Definition did (op : operation) (st : DbState) : DbState :=
  {| operations := operations st ++ [op]; db_clock_reads := db_clock_reads st |}.

Definition db_tick (st : DbState) : DbState :=
  {| operations := operations st; db_clock_reads := S (db_clock_reads st) |}.

Definition db_now : DB datetime :=
  fun w st => (Done (db_utcnow w (db_clock_reads st)), db_tick st).

(** [db[collection_name].insert_one(doc)], giving [result.inserted_id]. *)
Definition db_insert_one (collection : string) (doc : list (string * obj)) : DB obj :=
  fun w st =>
    (insert_one (driver w) (length (operations st)) collection doc,
     did (Insert collection doc) st).

(** [list(cursor)] for the cursor of [find], limited or not. *)
Definition db_find (collection : string) (filter : list (string * obj))
    (limit : option Z) : DB (list (list (string * obj))) :=
  fun w st =>
    (find (driver w) (length (operations st)) collection filter limit,
     did (Find collection filter limit) st).

Definition db_list_collection_names : DB (list string) :=
  fun w st =>
    (list_collection_names (driver w) (length (operations st)), did ListCollections st).

Context `{Rendering} (env : Env).

Definition create_document (collection_name : string) (data : payload) : DB string :=
  if negb (db_connected env) then db_raise not_available else
  let data_dict := data_dict_of data in
  created ← db_now;
  let data_dict := dict_set "created_at" (ODatetime created) data_dict in
  updated ← db_now;
  let data_dict := dict_set "updated_at" (ODatetime updated) data_dict in
  inserted_id ← db_insert_one collection_name data_dict;
  mret (py_str inserted_id).

(** [filter_dict] and [limit] default to [None]; an empty filter and a
    limit of zero count as none. *)
Definition get_documents (collection_name : string)
    (filter_dict : option (list (string * obj))) (limit : option Z)
  : DB (list (list (string * obj))) :=
  if negb (db_connected env) then db_raise not_available else
  let filter := match filter_dict with Some (kv :: f) => kv :: f | _ => [] end in
  let limit := match limit with
               | Some n => if (n =? 0)%Z then None else Some n
               | None => None
               end in
  db_find collection_name filter limit.

(** The inner loop of [list_logos] over the snapshot [list(d.items())]. *)
Definition stringify_datetimes (d : list (string * obj)) : list (string * obj) :=
  fold_left
    (fun d kv =>
       match kv.2 with
       | ODatetime t => dict_set kv.1 (OStr (isoformat t)) d
       | _ => d
       end)
    d d.

(** The body of the outer loop of [list_logos]. *)
Definition render_logo (d : list (string * obj)) : list (string * obj) :=
  let d := dict_set "_id" (OStr (py_str (default ONone (dict_get "_id" d)))) d in
  stringify_datetimes d.

(** [GET /api/logos] *)
Definition list_logos (limit : Z) : DB (list (list (string * obj))) :=
  fun w st =>
    match get_documents LOGO_COLLECTION (Some []) (Some limit) w st with
    | (Done docs, st') => (Done (map render_logo docs), st')
    | (Failed _, st') => (Done [], st')
    end.

Record LogoItem : Type := {
  name : string;
  image_url : HttpUrl;
  link_url : option HttpUrl;
}.

(** A [LogoItem] as a model instance. *)
Definition logo_fields (item : LogoItem) : list (string * obj) :=
  [("name", OStr (name item));
   ("image_url", OUrl (image_url item));
   ("link_url", match link_url item with Some u => OUrl u | None => ONone end)].

(** [POST /api/logos]; the result is the value of [inserted_id]. *)
Definition add_logo (item : LogoItem) : DbWorld -> DbState -> result string * DbState :=
  fun w st =>
    match create_document LOGO_COLLECTION (OfModel (logo_fields item)) w st with
    | (Done _id, st') => (Ok _id, st')
    | (Failed msg, st') => (Raise (HTTPException 500 msg), st')
    end.

(** The response of [GET /test]. *)
Record Health : Type := {
  backend : string;
  database : string;
  database_url : string;
  database_name : string;
  connection_status : string;
  collections : list string;
}.

(** [GET /test]. The environment is read as it was at start-up. The
    outer [try] guards a test and assignments that do not raise. *)
Definition test_database : DbWorld -> DbState -> Health * DbState :=
  fun w st =>
    let '(database, connection_status, collections, st') :=
      if db_connected env then
        match db_list_collection_names w st with
        | (Done names, st') => ("✅ Connected & Working", "Connected", names, st')
        | (Failed msg, st') =>
            ("⚠️ Connected but Error: " +:+ first_chars 80 msg, "Not Connected", [], st')
        end
      else ("⚠️ Available but not initialized", "Not Connected", [], st) in
    ({| backend := "✅ Running";
        database := database;
        database_url := if str_truthy (DATABASE_URL env) then "✅ Set" else "❌ Not Set";
        database_name := if str_truthy (DATABASE_NAME env) then "✅ Set" else "❌ Not Set";
        connection_status := connection_status;
        collections := collections |}, st').

End Documents.

(** A value with no model and no URL left where [_to_plain] looks: at
    the top, in dicts and in lists. Other containers are not entered. *)
Fixpoint converted `{UrlType} (v : obj) : bool :=
  match v with
  | OModel _ | OUrl _ => false
  | ODict d => forallb (fun kv => converted kv.2) d
  | OList l => forallb converted l
  | _ => true
  end.

(** No datetime among the values of a dict. *)
Definition no_datetime `{UrlType} (d : list (string * obj)) : Prop :=
  Forall (fun kv => forall t, kv.2 <> ODatetime t) d.

(** The document that [create_document] inserts. *)
Definition stamped `{UrlType} (data : payload) (created updated : datetime)
  : list (string * obj) :=
  dict_set "updated_at" (ODatetime updated)
    (dict_set "created_at" (ODatetime created) (data_dict_of data)).

(** A datetime as its text, any other value as it is. *)
Definition datetime_as_text `{Rendering} (v : obj) : obj :=
  match v with
  | ODatetime t => OStr (isoformat t)
  | _ => v
  end.

(** What [list_logos] makes of a fetched document [d]: the id as text
    ([str(None)] when there was none), every other key with its value,
    datetimes as text. *)
Definition logo_rendered `{Rendering} (d r : list (string * obj)) : Prop :=
  dict_get "_id" r = Some (OStr (py_str (default ONone (dict_get "_id" d)))) /\
  (forall k, k <> "_id" -> dict_get k r = datetime_as_text <$> dict_get k d) /\
  no_datetime r.

(** The document [add_logo] stores for a logo. *)
Definition logo_document `{UrlType} (item : LogoItem) (created updated : datetime)
  : list (string * obj) :=
  [("name", OStr (name item));
   ("image_url", OStr (str_HttpUrl (image_url item)));
   ("link_url", match link_url item with
                | Some u => OStr (str_HttpUrl u)
                | None => ONone
                end);
   ("created_at", ODatetime created);
   ("updated_at", ODatetime updated)].

(** ** A store to run the logo endpoints on *)

Module SampleDb.

(** Stand-ins for [str] and [isoformat]: an id is its hex digits, [None]
    is its name; the one datetime of the runs has its text. *)
Definition rendering : @Rendering Sample.plain_urls :=
  {| py_str := fun v =>
       match v with
       | OObjectId hex => hex
       | OStr s => s
       | ONone => "None"
       | _ => "?"
       end;
     isoformat := fun _ => "2023-11-14T22:13:20+00:00" |}.

Definition env : Env :=
  {| DATABASE_URL := Some "mongodb://localhost:27017"; DATABASE_NAME := Some "site" |}.

Definition no_env : Env := {| DATABASE_URL := None; DATABASE_NAME := Some "site" |}.

Definition stored_logo : list (string * @obj Sample.plain_urls) :=
  [("_id", OObjectId "65a0f1e2d3c4b5a697887766");
   ("name", OStr "Acme");
   ("image_url", OStr "https://example.com/acme.png");
   ("link_url", ONone);
   ("created_at", ODatetime 1700000000000000%Z)].

(** A store that accepts every insert and holds one logo. *)
Definition store : @DbWorld Sample.plain_urls :=
  {| driver :=
       {| insert_one := fun _ _ _ => Done (OObjectId "65a0f1e2d3c4b5a697887766");
          find := fun _ _ _ _ => Done [stored_logo];
          list_collection_names := fun _ => Done ["logo"] |};
     db_utcnow := fun n => (1700000000000000 + Z.of_nat n)%Z |}.

(** A store whose every operation fails. *)
Definition down : @DbWorld Sample.plain_urls :=
  {| driver :=
       {| insert_one := fun _ _ _ => Failed "connection refused";
          find := fun _ _ _ _ => Failed "connection refused";
          list_collection_names := fun _ => Failed "connection refused" |};
     db_utcnow := fun n => (1700000000000000 + Z.of_nat n)%Z |}.

Definition acme : @LogoItem Sample.plain_urls :=
  @Build_LogoItem Sample.plain_urls "Acme" "https://example.com/acme.png" None.

End SampleDb.

(** The same answers, read an hour later. *)
Definition an_hour_later (w : World) : World :=
  {| http := http w; utcnow := fun n => (utcnow w n + 3600000000)%Z |}.

(** ** Vocabulary of the further properties *)



(** A decoded body without items: no dict at all, or a dict whose
    [items] entry is missing or false (null, an empty list). *)
Definition no_items (data : pyval) : Prop :=
  match data with
  | PDict d => Py.truthy (default PNone (Py.lookup "items" d)) = false
  | _ => True
  end.

(** The request the resolver sends for an identifier. *)
Definition videos_request (video_id key : string) : string :=
  videos_endpoint +:+ video_id +:+ "&key=" +:+ key.

(** From [st] to [st'] at most [n] requests were sent. *)
Definition sends_at_most (n : nat) (st st' : State) : Prop :=
  exists more, requested st' = requested st ++ more /\ length more <= n.

(** What an item assembled for the link [l] always shows: the link as
    its URL, no outcome note, and the time of assembly. *)
Definition item_of_link `{UrlType} (l : string) (item : WorkItem) : Prop :=
  (exists u, parse_HttpUrl l = Some u /\ youtube_url item = Some u) /\
  outcome item = None /\
  is_Some (last_updated (metrics item)).

(** An item without the time it was assembled. *)
Definition without_time `{UrlType} (item : WorkItem) : WorkItem :=
  {| title := title item; channel := channel item;
     youtube_url := youtube_url item; thumbnail_url := thumbnail_url item;
     outcome := outcome item;
     metrics := {| views := views (metrics item);
                   avg_retention := avg_retention (metrics item);
                   upload_date := upload_date (metrics item);
                   last_updated := None |} |}.

(** Two worlds that answer every request alike; their clocks may differ. *)
Definition same_answers (w1 w2 : World) : Prop :=
  forall n url, http w1 n url = http w2 n url.

(** * Properties *)

(** ** The definitions at work *)

Section AtWork.
#[local] Existing Instance Sample.interpreter.

Example chars_mixed : chars "aé０-" = ["a"; "é"; "０"; "-"].
Proof. reflexivity. Qed.

Example extract_short : extract_youtube_id "https://youtu.be/abcdef1" = Some "abcdef1".
Proof. reflexivity. Qed.

Example extract_watch :
  extract_youtube_id "https://youtube.com/watch?v=abcdef1&t=3" = Some "abcdef1".
Proof. reflexivity. Qed.

Example extract_embed : extract_youtube_id "https://x/embed/abcdef1" = Some "abcdef1".
Proof. reflexivity. Qed.

Example extract_too_short : extract_youtube_id "https://youtu.be/abc" = None.
Proof. reflexivity. Qed.

(** The short form wins over the query parameter. *)
Example extract_order :
  extract_youtube_id "https://youtu.be/abcdef1?v=zyxwvu9" = Some "abcdef1".
Proof. reflexivity. Qed.

Example unescape_watch : Str.unescape_slashes watch_escaped = watch_plain.
Proof. reflexivity. Qed.

Example findall_two : findall_href two_links = [watch_escaped; "https:\/\/youtu.be\/abc"].
Proof. reflexivity. Qed.

(** Four attributes, the first link twice: three links, in first-seen
    order. *)
Example ordered_ABAC :
  ordered_links
    (href_attr "https:\/\/youtu.be\/AAAAAA" +:+ href_attr "https:\/\/youtu.be\/BBBBBB" +:+
     href_attr "https:\/\/youtu.be\/AAAAAA" +:+ href_attr "https:\/\/youtu.be\/CCCCCC")
  = ["https://youtu.be/AAAAAA"; "https://youtu.be/BBBBBB"; "https://youtu.be/CCCCCC"].
Proof. vm_compute. reflexivity. Qed.

(** Four different links: the first three; a link to another site is
    dropped before. *)
Example ordered_cap :
  ordered_links
    (href_attr "https:\/\/youtu.be\/AAAAAA" +:+ href_attr "https:\/\/example.com\/" +:+
     href_attr "https:\/\/youtu.be\/BBBBBB" +:+ href_attr "https:\/\/youtu.be\/CCCCCC" +:+
     href_attr "https:\/\/youtu.be\/DDDDDD")
  = ["https://youtu.be/AAAAAA"; "https://youtu.be/BBBBBB"; "https://youtu.be/CCCCCC"].
Proof. vm_compute. reflexivity. Qed.

Example int_plain : Py.int (PStr "1234") = Ok 1234%Z.
Proof. reflexivity. Qed.

Example int_spaced : Py.int (PStr " -1_000 ") = Ok (-1000)%Z.
Proof. reflexivity. Qed.

Example int_words : Py.int (PStr "n/a") = Raise ValueError.
Proof. reflexivity. Qed.

Example int_float : Py.int (PFloat retention_42_5) = Ok 42%Z.
Proof. reflexivity. Qed.

Example int_none : Py.int PNone = Raise TypeError.
Proof. reflexivity. Qed.

(** The three links of the specification have the three shapes. *)
Example shapes_accepted :
  Shape.short_link "https://youtu.be/abcdef1" = true /\
  Shape.v_parameter "https://youtube.com/watch?v=abcdef1" = true /\
  Shape.embed_segment (Shape.split "/" (Shape.path "https://x/embed/abcdef1")) = true /\
  Shape.accepted "https://example.com/watch?t=3#v=abcdef1" = false.
Proof. repeat split; reflexivity. Qed.

(** A letter outside ASCII counts for the six characters and belongs to
    the identifier. *)
Example extract_letter : extract_youtube_id "https://youtu.be/abcdeé" = Some "abcdeé".
Proof. reflexivity. Qed.

Example extract_letter_inside :
  extract_youtube_id "https://youtu.be/abcdefgé?x=1" = Some "abcdefgé".
Proof. reflexivity. Qed.

(** Five characters are too few, however many bytes they are. *)
Example extract_five_chars : extract_youtube_id "https://youtu.be/éééé²" = None.
Proof. reflexivity. Qed.

(** Digits and spaces outside ASCII are digits and spaces to [int]; an
    alphanumeric character that is no decimal digit is not. *)
Example int_fullwidth : Py.int (PStr "１２") = Ok 12%Z.
Proof. reflexivity. Qed.

Example int_nbsp : Py.int (PStr (Sample.nbsp +:+ "12" +:+ Sample.nbsp)) = Ok 12%Z.
Proof. reflexivity. Qed.

Example int_superscript : Py.int (PStr "²") = Raise ValueError.
Proof. reflexivity. Qed.

(** A literal of 4300 digits is read, one of 4301 digits is refused;
    sign, spaces and underscores do not count. *)
Example int_limit :
  is_Some (Py.int_of_str (" +" +:+ Sample.nines 4300 +:+ " ")) /\
  Py.int (PStr (Sample.nines 4301)) = Raise ValueError.
Proof. split; vm_compute; [eexists|]; reflexivity. Qed.

End AtWork.

(** ** Strings *)

#[local] Arguments String.append _ _ : simpl nomatch.

Module StrFacts.
Import Str.

Lemma app_assoc (a b c : string) : (a +:+ b) +:+ c = a +:+ b +:+ c.
Proof. induction a as [|x a IH]; simpl; [reflexivity | now rewrite IH]. Qed.

Lemma app_empty_r (a : string) : a +:+ "" = a.
Proof. induction a as [|x a IH]; simpl; [reflexivity | now rewrite IH]. Qed.

Lemma length_app (a b : string) :
  String.length (a +:+ b) = (String.length a + String.length b)%nat.
Proof. induction a as [|x a IH]; simpl; [reflexivity | now rewrite IH]. Qed.

Lemma strip_prefix_app (p s : string) : strip_prefix p (p +:+ s) = Some s.
Proof.
  induction p as [|a p IH]; simpl; [reflexivity|].
  now rewrite Ascii.eqb_refl.
Qed.

Lemma strip_prefix_Some (p s r : string) : strip_prefix p s = Some r -> s = p +:+ r.
Proof.
  revert s; induction p as [|a p IH]; intros s; simpl.
  - now intros [= ->].
  - destruct s as [|b s]; [discriminate|].
    destruct (Ascii.eqb_spec a b) as [->|]; [|discriminate].
    intros Hr. now rewrite (IH _ Hr).
Qed.

Lemma all_app (f : ascii -> bool) (a b : string) :
  all f (a +:+ b) = all f a && all f b.
Proof.
  induction a as [|x a IH]; simpl; [reflexivity|].
  now rewrite IH, andb_assoc.
Qed.

Lemma take_drop_while (f : ascii -> bool) (s : string) :
  take_while f s +:+ drop_while f s = s.
Proof.
  induction s as [|c s IH]; simpl; [reflexivity|].
  destruct (f c); simpl; [now rewrite IH | reflexivity].
Qed.

Lemma all_take_while (f : ascii -> bool) (s : string) : all f (take_while f s) = true.
Proof.
  induction s as [|c s IH]; simpl; [reflexivity|].
  destruct (f c) eqn:E; simpl; [now rewrite E | reflexivity].
Qed.

Lemma take_while_all (f : ascii -> bool) (t : string) :
  all f t = true -> take_while f t = t.
Proof.
  induction t as [|c t IH]; simpl; [reflexivity|].
  intros [-> Ht]%andb_true_iff. now rewrite IH.
Qed.

Lemma take_while_app (f : ascii -> bool) (t s : string) :
  all f t = true -> take_while f (t +:+ s) = t +:+ take_while f s.
Proof.
  induction t as [|c t IH]; simpl; [reflexivity|].
  intros [-> Ht]%andb_true_iff. now rewrite IH.
Qed.

Lemma drop_while_app (f : ascii -> bool) (t s : string) :
  all f t = true -> drop_while f (t +:+ s) = drop_while f s.
Proof.
  induction t as [|c t IH]; simpl; [reflexivity|].
  intros [-> Ht]%andb_true_iff. now rewrite IH.
Qed.

(** What [drop_while] leaves starts with a character outside the class. *)
Lemma drop_while_head (f : ascii -> bool) (s : string) (c : ascii) (r : string) :
  drop_while f s = String c r -> f c = false.
Proof.
  induction s as [|x s IH]; simpl; [discriminate|].
  destruct (f x) eqn:E; [assumption|].
  now intros [= <- _].
Qed.


Lemma contains_unfold (needle s : string) :
  contains needle s =
  match strip_prefix needle s with
  | Some _ => true
  | None => match s with EmptyString => false | String _ s' => contains needle s' end
  end.
Proof. now destruct s. Qed.

Lemma contains_app (needle pre post : string) :
  contains needle (pre +:+ needle +:+ post) = true.
Proof.
  induction pre as [|c pre IH]; rewrite contains_unfold.
  - simpl. now rewrite strip_prefix_app.
  - cbn [String.append]. rewrite IH.
    now destruct (strip_prefix needle _).
Qed.

Lemma contains_inv (needle s : string) :
  contains needle s = true -> exists pre post, s = pre +:+ needle +:+ post.
Proof.
  induction s as [|c s IH]; rewrite contains_unfold;
    destruct (strip_prefix needle _) as [r|] eqn:E.
  - intros _. exists "", r. exact (strip_prefix_Some _ _ _ E).
  - discriminate.
  - intros _. exists "", r. exact (strip_prefix_Some _ _ _ E).
  - intros (pre & post & ->)%IH. now exists (String c pre), post.
Qed.

End StrFacts.

(** ** Characters *)

Module CharFacts.
Import Str StrFacts.

Lemma join_app (l1 l2 : list string) : join (l1 ++ l2) = join l1 +:+ join l2.
Proof.
  unfold join. induction l1 as [|x l1 IH]; cbn [app fold_right]; [reflexivity|].
  now rewrite IH, app_assoc.
Qed.

(** An ASCII character stands alone, whatever follows. *)
Lemma chars_ascii (b : ascii) (s : string) :
  is_ascii_byte b = true -> chars (String b s) = String b "" :: chars s.
Proof.
  intros Hb. cbn [chars]. destruct (chars s) as [|[|c r] cs]; try reflexivity.
  now rewrite Hb.
Qed.

Lemma chars_outside_ascii (b : ascii) (s : string) :
  is_ascii_byte b = false ->
  chars (String b s) =
  match chars s with
  | String c r :: cs => if is_continuation c then String b (String c r) :: cs
                        else String b "" :: String c r :: cs
  | cs => String b "" :: cs
  end.
Proof.
  intros Hb. cbn [chars]. destruct (chars s) as [|[|c r] cs]; try reflexivity.
  now rewrite Hb.
Qed.

(** The characters read from the left: an ASCII byte is a character;
    any other byte is one with the continuation bytes that follow it. *)
Lemma chars_unfold (b : ascii) (s : string) :
  chars (String b s) =
  if is_ascii_byte b then String b "" :: chars s
  else String b (take_while is_continuation s) :: chars (drop_while is_continuation s).
Proof.
  destruct (is_ascii_byte b) eqn:Hb; [now apply chars_ascii|].
  revert b Hb; induction s as [|c s IH]; intros b Hb; [reflexivity|].
  rewrite (chars_outside_ascii b _ Hb). cbn [take_while drop_while].
  destruct (is_ascii_byte c) eqn:Hc.
  - assert (is_continuation c = false) as Ec.
    { unfold is_continuation, is_ascii_byte in *. apply Nat.ltb_lt in Hc.
      apply andb_false_iff. left. apply Nat.leb_gt. lia. }
    rewrite Ec, (chars_ascii _ _ Hc), Ec. reflexivity.
  - destruct (is_continuation c) eqn:Ec; rewrite (IH c Hc), ?Ec; reflexivity.
Qed.

(** The characters of a text make up the text. *)
Lemma join_chars (s : string) : join (chars s) = s.
Proof.
  induction s as [|b s IH]; [reflexivity|]. cbn [chars].
  destruct (chars s) as [|[|c r] cs]; unfold join in *; cbn [fold_right] in *;
    try destruct (negb _ && _); cbn [fold_right String.append]; now rewrite <- IH.
Qed.

(** The first characters of a text are the characters of what they make
    up: a character does not change when the text is cut behind it. *)
Lemma chars_prefix (s : string) (l1 l2 : list string) :
  chars s = l1 ++ l2 -> chars (join l1) = l1.
Proof.
  revert l1 l2; induction s as [|b s IH]; intros l1 l2.
  - cbn [chars]. destruct l1; [reflexivity | discriminate].
  - destruct l1 as [|x l1]; [reflexivity|]. cbn [chars].
    destruct (chars s) as [|[|c r] cs] eqn:Es.
    + cbn [app]. intros [= <- E]. destruct l1; [reflexivity | discriminate].
    + cbn [app]. intros [= <- E].
      specialize (IH l1 l2 E).
      change (join (String b "" :: l1)) with (String b (join l1)).
      cbn [chars]. rewrite IH. destruct l1 as [|[|c' r'] l1']; try reflexivity.
      discriminate.
    + destruct (negb (is_ascii_byte b) && is_continuation c) eqn:Ejoin;
        cbn [app]; intros [= <- E].
      * specialize (IH (String c r :: l1) l2 (f_equal (cons (String c r)) E)).
        change (join (String b (String c r) :: l1))
          with (String b (join (String c r :: l1))).
        cbn [chars]. rewrite IH. now rewrite Ejoin.
      * specialize (IH l1 l2 E).
        change (join (String b "" :: l1)) with (String b (join l1)).
        cbn [chars]. rewrite IH. destruct l1 as [|[|c' r'] l1']; try reflexivity.
        injection E as <- <- _. now rewrite Ejoin.
Qed.

Lemma run_split (f : string -> bool) (l : list string) :
  exists l2, l = run f l ++ l2.
Proof.
  induction l as [|c l [l2 IH]]; [now exists []|]. cbn [run].
  destruct (f c); [|now exists (c :: l)].
  exists l2. cbn [app]. now rewrite <- IH.
Qed.

Lemma run_all (f : string -> bool) (l : list string) : forallb f (run f l) = true.
Proof.
  induction l as [|c l IH]; [reflexivity|]. cbn [run].
  destruct (f c) eqn:E; [|reflexivity]. cbn [forallb]. now rewrite E.
Qed.

Lemma run_idem (f : string -> bool) (l : list string) : run f (run f l) = run f l.
Proof.
  induction l as [|c l IH]; [reflexivity|]. cbn [run].
  destruct (f c) eqn:E; [|reflexivity]. cbn [run]. now rewrite E, IH.
Qed.




Section Classes.
Context `{Interpreter}.




End Classes.

End CharFacts.

(** ** [extract_youtube_id] *)

Section ExtractId.
Import Str StrFacts CharFacts.
Context `{Interpreter}.

Lemma search_id_unfold (marker s : string) :
  search_id marker s =
  match match_id_at marker s with
  | Some tok => Some tok
  | None => match s with EmptyString => None | String _ s' => search_id marker s' end
  end.
Proof. now destruct s. Qed.

(** A match at the head is the marker, the token and the rest of the
    link. The token has six characters or more, all of them identifier
    characters, and it is the whole run of such characters. *)
Lemma match_id_at_Some (marker s tok : string) :
  match_id_at marker s = Some tok ->
  exists post, s = marker +:+ tok +:+ post /\
    (6 <= length (chars tok))%nat /\ forallb id_char (chars tok) = true /\
    id_run (tok +:+ post) = chars tok.
Proof.
  unfold match_id_at.
  destruct (strip_prefix marker s) as [rest|] eqn:E; [|discriminate].
  apply strip_prefix_Some in E as ->.
  destruct (Nat.leb_spec 6 (length (id_run rest))) as [Hlen|]; [|discriminate].
  intros [= <-]. unfold id_run in *.
  destruct (run_split id_char (chars rest)) as (l2 & Hsplit).
  pose proof (chars_prefix _ _ _ Hsplit) as Hchars.
  assert (rest = join (run id_char (chars rest)) +:+ join l2) as Hrest
    by (now rewrite <- join_app, <- Hsplit, join_chars).
  exists (join l2). rewrite <- Hrest, Hchars.
  repeat split; [assumption | apply run_all].
Qed.

(** The pattern matches at the head exactly where the marker stands
    before six identifier characters or more. *)
Lemma match_id_at_is_Some (marker s : string) :
  is_Some (match_id_at marker s) <->
  exists rest, s = marker +:+ rest /\ (6 <= length (id_run rest))%nat.
Proof.
  unfold match_id_at. split.
  - destruct (strip_prefix marker s) as [rest|] eqn:E; [|now intros []].
    apply strip_prefix_Some in E as ->.
    destruct (Nat.leb_spec 6 (length (id_run rest))); [eauto | now intros []].
  - intros (rest & -> & Hlen). rewrite strip_prefix_app.
    apply Nat.leb_le in Hlen. rewrite Hlen. eauto.
Qed.


Lemma search_id_Some (marker s tok : string) :
  search_id marker s = Some tok -> has_shape marker s.
Proof.
  induction s as [|c s IH]; rewrite search_id_unfold;
    destruct (match_id_at marker _) as [t|] eqn:E.
  - intros _. destruct (proj1 (match_id_at_is_Some marker "")) as (rest & -> & ?);
      [rewrite E; eauto|]. now exists "", rest.
  - discriminate.
  - intros _. destruct (proj1 (match_id_at_is_Some marker (String c s))) as (rest & -> & ?);
      [rewrite E; eauto|]. now exists "", rest.
  - intros (pre & rest & -> & ?)%IH. now exists (String c pre), rest.
Qed.

Lemma search_id_shape (marker s : string) :
  has_shape marker s -> is_Some (search_id marker s).
Proof.
  intros (pre & rest & -> & Hlen).
  induction pre as [|c pre IH]; rewrite search_id_unfold.
  - cbn [String.append].
    destruct (proj2 (match_id_at_is_Some marker (marker +:+ rest))) as [t ->]; eauto.
  - destruct (match_id_at marker _); [eauto|]. exact IH.
Qed.

(** The search finds a token exactly on the links in which the marker
    stands somewhere before six identifier characters or more. *)
Lemma search_id_None (marker s : string) :
  search_id marker s = None <-> ~ has_shape marker s.
Proof.
  split.
  - intros E Hs. apply search_id_shape in Hs as [t Ht]. congruence.
  - intros Hn. destruct (search_id marker s) eqn:E; [|reflexivity].
    exfalso. eauto using search_id_Some.
Qed.



(** What the search returns is a token, behind the marker, and the whole
    run of identifier characters there. *)
Lemma search_id_located (marker s tok : string) :
  search_id marker s = Some tok ->
  exists pre post, s = pre +:+ marker +:+ tok +:+ post /\
    (6 <= length (chars tok))%nat /\ forallb id_char (chars tok) = true /\
    id_run (tok +:+ post) = chars tok.
Proof.
  induction s as [|c s IH]; rewrite search_id_unfold;
    destruct (match_id_at marker _) as [t|] eqn:E.
  - intros [= <-]. apply match_id_at_Some in E as (post & -> & ?).
    now exists "", post.
  - discriminate.
  - intros [= <-]. apply match_id_at_Some in E as (post & -> & ?).
    now exists "", post.
  - intros (pre & post & -> & ?)%IH. now exists (String c pre), post.
Qed.

Lemma search_id_token (marker s tok : string) :
  search_id marker s = Some tok ->
  (6 <= length (chars tok))%nat /\ forallb id_char (chars tok) = true.
Proof. intros (pre & post & _ & ? & ? & _)%search_id_located. now split. Qed.


(** An identifier is returned exactly for the links in which one of the
    three markers stands before six identifier characters or more. *)
Lemma extract_youtube_id_Some (url : string) :
  is_Some (extract_youtube_id url) <->
  has_shape "youtu.be/" url \/ has_shape "v=" url \/ has_shape "/embed/" url.
Proof.
  unfold extract_youtube_id. split.
  - destruct (search_id "youtu.be/" url) eqn:E1; [eauto using search_id_Some|].
    destruct (search_id "v=" url) eqn:E2; [eauto using search_id_Some|].
    destruct (search_id "/embed/" url) eqn:E3; [eauto using search_id_Some|].
    now intros [].
  - intros Hs.
    destruct (search_id "youtu.be/" url) eqn:E1; [eauto|].
    destruct (search_id "v=" url) eqn:E2; [eauto|].
    destruct (search_id "/embed/" url) eqn:E3; [eauto|].
    apply search_id_None in E1, E2, E3. tauto.
Qed.

(** An identifier has six characters or more, all word characters or
    hyphens; as a Python value it is true. *)
Lemma extract_youtube_id_token (url tok : string) :
  extract_youtube_id url = Some tok ->
  (6 <= length (chars tok))%nat /\ forallb id_char (chars tok) = true.
Proof.
  unfold extract_youtube_id.
  destruct (search_id "youtu.be/" url) eqn:E1;
    [intros [= <-]; eauto using search_id_token|].
  destruct (search_id "v=" url) eqn:E2;
    [intros [= <-]; eauto using search_id_token|].
  destruct (search_id "/embed/" url) eqn:E3;
    [intros [= <-]; eauto using search_id_token|].
  discriminate.
Qed.

Lemma extract_youtube_id_truthy (url : string) :
  str_truthy (extract_youtube_id url) = true <-> is_Some (extract_youtube_id url).
Proof.
  destruct (extract_youtube_id url) as [tok|] eqn:E; cbn [str_truthy].
  - apply extract_youtube_id_token in E as [Hlen _].
    destruct tok; [simpl in Hlen; lia|]. split; [eauto | reflexivity].
  - split; [discriminate | now intros []].
Qed.

End ExtractId.


(** C6, amended. The patterns look for their markers anywhere in the
    link and not in its parts. A link in which none of [youtu.be/], [v=]
    and [/embed/] stands right before six or more word characters or
    hyphens has no identifier: [extract_youtube_id] returns [None]; a
    link in which one of them does gets an identifier. The function is
    total, so no link makes it raise. *)
Theorem extract_youtube_id_no_shape `{Interpreter} (url : string) :
  (~ has_shape "youtu.be/" url ->
   ~ has_shape "v=" url ->
   ~ has_shape "/embed/" url ->
   extract_youtube_id url = None) /\
  (has_shape "youtu.be/" url \/ has_shape "v=" url \/ has_shape "/embed/" url ->
   is_Some (extract_youtube_id url)).
Proof.
  split.
  - intros H1 H2 H3. unfold extract_youtube_id.
    apply search_id_None in H1, H2, H3.
    now rewrite H1, H2, H3.
  - apply extract_youtube_id_Some.
Qed.


Section ExtractRuns.
#[local] Existing Instance Sample.interpreter.

Lemma extract_youtube_id_no_shape_witness :
  extract_youtube_id "https://example.com/watch" = None.
Proof.
  apply extract_youtube_id_no_shape; apply search_id_None; reflexivity.
Defined.

(** C6 as stated fails: links with no short-domain path segment, no [v]
    parameter and no [/embed/] path segment that get an identifier, from
    a parameter whose name ends in [v], from a host that ends in
    [youtu.be], and from the value of a parameter. *)
Lemma identifier_without_url_shape :
  Shape.accepted "https://example.com/page?rev=abcdefgh" = false /\
  extract_youtube_id "https://example.com/page?rev=abcdefgh" = Some "abcdefgh" /\
  Shape.accepted "https://notyoutu.be/abcdefg" = false /\
  extract_youtube_id "https://notyoutu.be/abcdefg" = Some "abcdefg" /\
  Shape.accepted "https://example.com/?next=/embed/abcdefg" = false /\
  extract_youtube_id "https://example.com/?next=/embed/abcdefg" = Some "abcdefg".
Proof. repeat split; vm_compute; reflexivity. Qed.


End ExtractRuns.

(** ** The link scan *)

Section LinkScan.
Import Str StrFacts.

Lemma match_after_scheme_spec (scheme : string) (c : ascii) (body post : string) :
  all not_quote (String c body) = true ->
  match_after_scheme scheme (escaped_slashes +:+ String c body +:+ String dquote post) =
  Some (scheme +:+ escaped_slashes +:+ String c body).
Proof.
  intros Hq. unfold match_after_scheme.
  rewrite strip_prefix_app, take_while_app, drop_while_app by assumption.
  cbn [take_while drop_while]. change (not_quote dquote) with false.
  cbn [String.append]. now rewrite app_empty_r.
Qed.

(** The pattern matches at the head of an attribute with an escaped URL,
    and captures the URL. *)
Lemma match_href_at_attr (g post : string) :
  escaped_url g -> match_href_at (href_attr g +:+ post) = Some g.
Proof.
  intros [scheme c body Hs Hq]. unfold match_href_at, href_attr.
  rewrite !app_assoc, strip_prefix_app.
  destruct Hs as [-> | ->].
  - rewrite strip_prefix_app.
    change (strip_prefix "s" (escaped_slashes +:+ _)) with (@None string).
    exact (match_after_scheme_spec "http" c body post Hq).
  - change ("https" +:+ ?x) with ("http" +:+ "s" +:+ x).
    rewrite !strip_prefix_app.
    pose proof (match_after_scheme_spec "https" c body post Hq) as E.
    cbn [String.append] in *. now rewrite E.
Qed.

(** A match at the head is an attribute with an escaped URL. *)
Lemma match_after_scheme_Some (scheme s g : string) :
  match_after_scheme scheme s = Some g ->
  exists c body post,
    g = scheme +:+ escaped_slashes +:+ String c body /\
    all not_quote (String c body) = true /\
    s = escaped_slashes +:+ String c body +:+ String dquote post.
Proof.
  unfold match_after_scheme.
  destruct (strip_prefix escaped_slashes s) as [s'|] eqn:E; [|discriminate].
  apply strip_prefix_Some in E as ->.
  destruct (take_while not_quote s') as [|c body] eqn:Et; [discriminate|].
  destruct (drop_while not_quote s') as [|q post] eqn:Ed; [discriminate|].
  intros [= <-]. exists c, body, post. split; [reflexivity|].
  split; [rewrite <- Et; apply all_take_while|].
  rewrite <- (take_drop_while not_quote s'), Et, Ed. do 3 f_equal.
  apply drop_while_head in Ed. unfold not_quote in Ed.
  apply negb_false_iff, Ascii.eqb_eq in Ed. now subst.
Qed.

Lemma match_href_at_Some (s g : string) :
  match_href_at s = Some g ->
  escaped_url g /\ exists post, s = href_attr g +:+ post.
Proof.
  unfold match_href_at.
  destruct (strip_prefix href_open s) as [s1|] eqn:E1; [|discriminate].
  apply strip_prefix_Some in E1 as ->.
  destruct (strip_prefix "http" s1) as [s2|] eqn:E2; [|discriminate].
  apply strip_prefix_Some in E2 as ->.
  assert (forall scheme tail, scheme = "http" \/ scheme = "https" ->
            "http" +:+ s2 = scheme +:+ tail ->
            match_after_scheme scheme tail = Some g ->
            escaped_url g /\ exists post, href_open +:+ "http" +:+ s2 = href_attr g +:+ post)
    as Hcase.
  { intros scheme tail Hs Htail (c & body & post & -> & Hq & ->)%match_after_scheme_Some.
    split; [now constructor|]. exists post. unfold href_attr.
    rewrite Htail, !app_assoc. reflexivity. }
  destruct (strip_prefix "s" s2) as [s3|] eqn:E3.
  - apply strip_prefix_Some in E3 as ->.
    destruct (match_after_scheme "https" s3) as [g'|] eqn:E4.
    + intros [= ->]. apply (Hcase "https" s3); auto.
    + apply (Hcase "http"); auto.
  - apply (Hcase "http"); auto.
Qed.

(** Passing the characters of a match resumes the scan behind it. *)
Lemma findall_href_from_pass (p s : string) :
  findall_href_from (String.length p) (p +:+ s) = findall_href_from 0 s.
Proof.
  induction p as [|c p IH]; [reflexivity|].
  destruct s; cbn [String.append String.length findall_href_from]; exact IH.
Qed.

Lemma findall_href_match (c : ascii) (s g : string) :
  match_href_at (String c s) = Some g ->
  findall_href (String c s) =
  g :: findall_href_from (String.length href_open + String.length g) s.
Proof. intros E. unfold findall_href. cbn [findall_href_from]. now rewrite E. Qed.

Lemma findall_href_no_match (c : ascii) (s : string) :
  match_href_at (String c s) = None ->
  findall_href (String c s) = findall_href s.
Proof. intros E. unfold findall_href. cbn [findall_href_from]. now rewrite E. Qed.

(** An attribute with an escaped URL at the head of the text is matched,
    and the scan goes on behind it. *)
Lemma findall_href_attr (g post : string) :
  escaped_url g -> findall_href (href_attr g +:+ post) = g :: findall_href post.
Proof.
  intros Hg. pose proof (match_href_at_attr g post Hg) as E.
  unfold href_attr, href_open in *. rewrite !app_assoc in *.
  cbn [String.append] in *. rewrite (findall_href_match _ _ _ E). f_equal.
  pose (p := "ref=" +:+ String dquote "" +:+ g +:+ String dquote "").
  match goal with
  | |- findall_href_from ?k ?t = _ =>
      replace t with (p +:+ post)
        by (unfold p; cbn [String.append]; now rewrite ?app_assoc);
      replace k with (String.length p)
        by (unfold p; rewrite !length_app; simpl; lia)
  end.
  apply findall_href_from_pass.
Qed.

(** The pattern needs a quote in sixth place. *)
Lemma match_href_at_quote (s g : string) :
  match_href_at s = Some g ->
  exists c1 c2 c3 c4 c5 r,
    s = String c1 (String c2 (String c3 (String c4 (String c5 (String dquote r))))).
Proof.
  intros (_ & post & ->)%match_href_at_Some. unfold href_attr, href_open.
  rewrite !app_assoc. cbn [String.append]. eauto 10.
Qed.

(** Text without a quote before an attribute holds no match. *)
Lemma findall_href_quote_free (pre g post : string) :
  all not_quote pre = true -> escaped_url g ->
  findall_href (pre +:+ href_attr g +:+ post) = g :: findall_href post.
Proof.
  intros Hpre Hg. induction pre as [|c pre IH]; [now apply findall_href_attr|].
  cbn [all] in Hpre. apply andb_true_iff in Hpre as [Hc Hpre].
  cbn [String.append]. rewrite findall_href_no_match; [now apply IH|].
  destruct (match_href_at _) as [g'|] eqn:E; [exfalso | reflexivity].
  apply match_href_at_quote in E as (c1 & c2 & c3 & c4 & c5 & r & E).
  injection E as -> E. unfold href_attr, href_open in E.
  rewrite !app_assoc in E. cbn [String.append] in E.
  do 5 (destruct pre as [|? pre]; cbn [String.append all] in *;
        [discriminate | injection E as -> E;
                        apply andb_true_iff in Hpre as [? Hpre]]);
    discriminate.
Qed.

(** A literal without a quote is stripped from the part of a text that
    reaches to a quote, whatever follows that part. *)
Lemma strip_prefix_closed (lit b r : string) :
  all not_quote lit = true -> all not_quote b = false ->
  strip_prefix lit (b +:+ r) = (fun b' => b' +:+ r) <$> strip_prefix lit b /\
  (forall b', strip_prefix lit b = Some b' -> all not_quote b' = false).
Proof.
  revert b; induction lit as [|a lit IH]; intros b Hlit Hb.
  - split; [reflexivity | now intros b' [= <-]].
  - destruct b as [|c b]; [discriminate|].
    cbn [all] in Hlit, Hb. apply andb_true_iff in Hlit as [Ha Hlit].
    cbn [String.append strip_prefix].
    destruct (Ascii.eqb_spec a c) as [<-|]; [|split; [reflexivity | discriminate]].
    rewrite Ha in Hb. now apply IH.
Qed.

Lemma take_drop_while_closed (b r : string) :
  all not_quote b = false ->
  take_while not_quote (b +:+ r) = take_while not_quote b /\
  exists q rest, drop_while not_quote b = String q rest /\
                 drop_while not_quote (b +:+ r) = String q (rest +:+ r).
Proof.
  induction b as [|c b IH]; [discriminate|]. cbn [all String.append take_while drop_while].
  destruct (not_quote c) eqn:Ec.
  - intros Hb. destruct (IH Hb) as (-> & q & rest & -> & ->). eauto.
  - intros _. eauto.
Qed.

(** A value that is closed before the text ends is matched or refused
    the same whatever follows the text. *)
Lemma match_after_scheme_closed (scheme b r : string) :
  all not_quote b = false ->
  match_after_scheme scheme (b +:+ r) = match_after_scheme scheme b.
Proof.
  intros Hb. unfold match_after_scheme.
  destruct (strip_prefix_closed escaped_slashes b r eq_refl Hb) as [-> Hrest].
  destruct (strip_prefix escaped_slashes b) as [b'|]; [|reflexivity].
  cbn [fmap option_fmap option_map].
  destruct (take_drop_while_closed b' r (Hrest _ eq_refl)) as (-> & q & rest & -> & ->).
  reflexivity.
Qed.

Lemma match_href_at_closed (v r : string) :
  all not_quote v = false ->
  match_href_at (href_open +:+ v +:+ r) = match_href_at (href_open +:+ v).
Proof.
  intros Hv. unfold match_href_at.
  rewrite !strip_prefix_app.
  destruct (strip_prefix_closed "http" v r eq_refl Hv) as [-> H2].
  destruct (strip_prefix "http" v) as [s2|]; [|reflexivity].
  cbn [fmap option_fmap option_map]. specialize (H2 _ eq_refl).
  destruct (strip_prefix_closed "s" s2 r eq_refl H2) as [-> H3].
  rewrite (match_after_scheme_closed "http" s2 r H2).
  destruct (strip_prefix "s" s2) as [s3|]; [|reflexivity].
  cbn [fmap option_fmap option_map].
  now rewrite (match_after_scheme_closed "https" s3 r (H3 _ eq_refl)).
Qed.

(** A text that does not start with [href=] and the quote does not start
    with them either when an attribute comes behind it: the first
    character of the attribute is none of their later characters. *)
Lemma strip_href_open_before_attr (c : ascii) (s x : string) :
  strip_prefix href_open (String c s) = None ->
  strip_prefix href_open (String c s +:+ href_open +:+ x) = None.
Proof.
  unfold href_open. cbn [String.append strip_prefix].
  destruct (Ascii.eqb "h" c); [|reflexivity].
  do 5 (destruct s as [|? s]; [reflexivity|]; cbn [String.append strip_prefix];
        match goal with |- context [Ascii.eqb ?a ?b] => destruct (Ascii.eqb a b) end;
        [|reflexivity]).
  discriminate.
Qed.

(** Behind a text whose attribute values are closed the pattern is tried
    at every place as on the text alone. *)
Lemma match_href_at_values_closed (c : ascii) (s x : string) :
  values_closed (String c s) = true ->
  match_href_at (String c s +:+ href_open +:+ x) = match_href_at (String c s).
Proof.
  intros Hclosed. cbn [values_closed] in Hclosed.
  apply andb_true_iff in Hclosed as [Hhead _].
  destruct (strip_prefix href_open (String c s)) as [v|] eqn:E.
  - apply strip_prefix_Some in E. rewrite E, app_assoc.
    apply match_href_at_closed. now apply negb_true_iff.
  - unfold match_href_at. now rewrite E, strip_href_open_before_attr.
Qed.

(** The scan of such a text does not reach into what follows it. *)
Lemma findall_href_from_values_closed (k : nat) (s x : string) :
  values_closed s = true -> k <= String.length s ->
  findall_href_from k (s +:+ href_open +:+ x) =
  findall_href_from k s ++ findall_href (href_open +:+ x).
Proof.
  revert k; induction s as [|c s IH]; intros k Hclosed Hk.
  - cbn [String.length] in Hk. now replace k with 0 by lia.
  - pose proof Hclosed as Htail. cbn [values_closed] in Htail.
    apply andb_true_iff in Htail as [_ Htail]. cbn [String.length] in Hk.
    pose proof (match_href_at_values_closed c s x Hclosed) as Ehead.
    cbn [String.append] in Ehead |- *. cbn [findall_href_from].
    destruct k as [|k]; [|apply IH; [assumption | lia]].
    rewrite Ehead. destruct (match_href_at (String c s)) as [g|] eqn:E;
      [|now apply IH; [|lia]].
    cbn [app]. f_equal. apply IH; [assumption|].
    apply match_href_at_Some in E as (_ & post & E).
    apply (f_equal String.length) in E. unfold href_attr in E.
    rewrite !length_app in E. cbn [String.length] in E. lia.
Qed.

(** An attribute with an escaped URL behind such a text is matched: the
    captures are those of the text, the value of the attribute, and
    those of what follows. *)
Lemma findall_href_values_closed (pre g post : string) :
  values_closed pre = true -> escaped_url g ->
  findall_href (pre +:+ href_attr g +:+ post) =
  findall_href pre ++ g :: findall_href post.
Proof.
  intros Hpre Hg. rewrite <- (findall_href_attr g post Hg).
  unfold findall_href at 1 2, href_attr. rewrite !app_assoc.
  rewrite findall_href_from_values_closed by (assumption || lia).
  now rewrite <- !app_assoc.
Qed.

(** Every capture is the value of an attribute that stands in the text. *)
Lemma findall_href_from_sound (k : nat) (s g : string) :
  g ∈ findall_href_from k s ->
  escaped_url g /\ exists pre post, s = pre +:+ href_attr g +:+ post.
Proof.
  revert k; induction s as [|c s IH]; intros k; cbn [findall_href_from].
  - intros []%elem_of_nil.
  - assert (forall k', g ∈ findall_href_from k' s ->
              escaped_url g /\ exists pre post, String c s = pre +:+ href_attr g +:+ post)
      as Hrest.
    { intros k' (Hg & pre & post & ->)%IH. split; [assumption|].
      now exists (String c pre), post. }
    destruct k as [|k]; [|apply Hrest].
    destruct (match_href_at (String c s)) as [g'|] eqn:E; [|apply Hrest].
    intros [-> | Hin]%elem_of_cons; [|now apply Hrest in Hin].
    apply match_href_at_Some in E as (Hg & post & E).
    split; [assumption|]. now exists "", post.
Qed.

End LinkScan.

(** ** The two loops over the links *)

(** What the first loop computes. *)
Lemma yt_links_loop_filter (links : list string) :
  yt_links_loop links = filter (fun h => is_youtube_link h = true)
                               (Str.unescape_slashes <$> links).
Proof.
  unfold yt_links_loop.
  enough (forall acc,
            fold_left (fun yt_links href =>
                         let href := Str.unescape_slashes href in
                         if is_youtube_link href then yt_links ++ [href] else yt_links)
              links acc
            = acc ++ filter (fun h => is_youtube_link h = true)
                            (Str.unescape_slashes <$> links)) as Hgen
    by apply (Hgen []).
  induction links as [|href links IH]; intros acc; cbn [fold_left fmap list_fmap].
  - now rewrite app_nil_r.
  - rewrite IH, filter_cons.
    destruct (is_youtube_link (Str.unescape_slashes href)) eqn:E.
    + rewrite decide_True by reflexivity. now rewrite <- app_assoc.
    + rewrite decide_False by congruence. reflexivity.
Qed.

(** The test of the first loop, in words: the link holds one of the two
    platform shapes. *)
Lemma is_youtube_link_spec (href : string) :
  is_youtube_link href = true <->
  (exists pre post, href = pre +:+ "youtube.com/watch" +:+ post) \/
  (exists pre post, href = pre +:+ "youtu.be/" +:+ post).
Proof.
  unfold is_youtube_link. rewrite orb_true_iff. split.
  - intros [H|H]; apply StrFacts.contains_inv in H; auto.
  - intros [(pre & post & ->)|(pre & post & ->)];
      [left | right]; apply StrFacts.contains_app.
Qed.

Lemma dedupe_loop_first_seen (l : list string) : dedupe_loop l = first_seen ∅ l.
Proof.
  unfold dedupe_loop.
  enough (forall seen ordered,
            (fold_left dedupe_step l (seen, ordered)).2 = ordered ++ first_seen seen l)
    as Hgen by apply (Hgen ∅ []).
  induction l as [|x l IH]; intros seen ordered; cbn [fold_left first_seen].
  - now rewrite app_nil_r.
  - unfold dedupe_step at 2. destruct (decide (x ∈ seen)).
    + apply IH.
    + rewrite IH. now rewrite <- app_assoc.
Qed.

Lemma elem_of_first_seen (seen : gset string) (l : list string) (x : string) :
  x ∈ first_seen seen l <-> x ∈ l /\ x ∉ seen.
Proof.
  revert seen; induction l as [|a l IH]; intros seen; cbn [first_seen].
  - set_solver.
  - destruct (decide (a ∈ seen)).
    + rewrite IH. set_solver.
    + rewrite elem_of_cons, IH. destruct (decide (x = a)); set_solver.
Qed.

Lemma NoDup_first_seen (seen : gset string) (l : list string) :
  NoDup (first_seen seen l).
Proof.
  revert seen; induction l as [|a l IH]; intros seen; cbn [first_seen].
  - constructor.
  - destruct (decide (a ∈ seen)); [apply IH|].
    constructor; [|apply IH]. rewrite elem_of_first_seen. set_solver.
Qed.

(** First-seen order. Where [x] stands in the output, the input splits at
    the first occurrence of [x]: what is output before [x] is what the
    input shows before it, and nothing output after [x] occurs there. *)
Lemma first_seen_split (seen : gset string) (l o1 o2 : list string) (x : string) :
  first_seen seen l = o1 ++ x :: o2 ->
  exists l1 l2,
    l = l1 ++ x :: l2 /\ (x ∉ l1) /\
    (forall y, y ∈ l1 -> y ∈ seen \/ y ∈ o1) /\
    (forall y, y ∈ o2 -> y ∉ l1).
Proof.
  revert seen o1; induction l as [|a l IH]; intros seen o1; cbn [first_seen].
  - now destruct o1.
  - destruct (decide (a ∈ seen)) as [Ha|Ha].
    + intros E. pose proof E as (l1 & l2 & -> & Hx & Hbefore & Hafter)%IH.
      assert (forall y, y ∈ o1 ++ x :: o2 -> y <> a) as Hne.
      { intros y Hy ->. rewrite <- E in Hy. apply elem_of_first_seen in Hy. tauto. }
      exists (a :: l1), l2. split; [reflexivity|]. repeat split.
      * rewrite not_elem_of_cons. split; [apply Hne; set_solver | assumption].
      * intros y [-> | Hy]%elem_of_cons; [now left | now apply Hbefore].
      * intros y Hy. rewrite not_elem_of_cons. split; [apply Hne; set_solver | now apply Hafter].
    + destruct o1 as [|b o1]; cbn [app]; intros [= <- E].
      * exists [], l. split; [reflexivity|]. repeat split; set_solver.
      * pose proof E as (l1 & l2 & -> & Hx & Hbefore & Hafter)%IH.
        assert (forall y, y ∈ o1 ++ x :: o2 -> y <> a) as Hne.
        { intros y Hy ->. rewrite <- E in Hy. apply elem_of_first_seen in Hy. set_solver. }
        exists (a :: l1), l2. split; [reflexivity|]. repeat split.
        -- rewrite not_elem_of_cons. split; [apply Hne; set_solver | assumption].
        -- intros y [-> | Hy]%elem_of_cons; [right; set_solver|].
           destruct (Hbefore y Hy); set_solver.
        -- intros y Hy. rewrite not_elem_of_cons.
           split; [apply Hne; set_solver | now apply Hafter].
Qed.

(** The links the scan hands to the second loop. *)
Lemma ordered_links_first_seen (html : string) :
  ordered_links html = take 3 (first_seen ∅ (yt_links_loop (findall_href html))).
Proof. unfold ordered_links. now rewrite dedupe_loop_first_seen. Qed.

(** C4. For every text the extracted list has at most three links and no
    link twice, and it keeps first-seen order: where a link [x] stands in
    the output, the candidate list splits at the first occurrence of [x],
    everything before it there is output before [x] and nothing output
    after [x] occurs before it. Raw hrefs [A, B, A, C] that are three
    different video links give the three links in that order. *)
Theorem ordered_links_capped_unique_stable (html : string) :
  length (ordered_links html) <= 3 /\
  NoDup (ordered_links html) /\
  (forall o1 x o2,
     ordered_links html = o1 ++ x :: o2 ->
     exists l1 l2,
       yt_links_loop (findall_href html) = l1 ++ x :: l2 /\ (x ∉ l1) /\
       (forall y, y ∈ l1 -> y ∈ o1) /\
       (forall y, y ∈ o2 -> y ∉ l1)) /\
  (forall A B C,
     findall_href html = [A; B; A; C] ->
     is_youtube_link (Str.unescape_slashes A) = true ->
     is_youtube_link (Str.unescape_slashes B) = true ->
     is_youtube_link (Str.unescape_slashes C) = true ->
     Str.unescape_slashes A <> Str.unescape_slashes B ->
     Str.unescape_slashes A <> Str.unescape_slashes C ->
     Str.unescape_slashes B <> Str.unescape_slashes C ->
     ordered_links html =
     [Str.unescape_slashes A; Str.unescape_slashes B; Str.unescape_slashes C]).
Proof.
  rewrite ordered_links_first_seen.
  set (yt := yt_links_loop (findall_href html)).
  split; [rewrite length_take; lia|].
  split; [eapply sublist_NoDup; [apply NoDup_first_seen | apply sublist_take]|].
  split.
  - intros o1 x o2 E.
    assert (first_seen ∅ yt = o1 ++ x :: (o2 ++ drop 3 (first_seen ∅ yt))) as E'.
    { rewrite <- (take_drop 3 (first_seen ∅ yt)) at 1. rewrite E.
      now rewrite <- app_assoc. }
    apply first_seen_split in E' as (l1 & l2 & -> & Hx & Hbefore & Hafter).
    exists l1, l2. split; [reflexivity|]. split; [assumption|]. split.
    + intros y Hy. destruct (Hbefore y Hy); set_solver.
    + intros y Hy. apply Hafter. set_solver.
  - intros A B C E HA HB HC HAB HAC HBC. subst yt.
    rewrite E, yt_links_loop_filter. cbn [fmap list_fmap].
    rewrite !filter_cons, filter_nil, !decide_True by assumption.
    cbn [first_seen].
    repeat (destruct (decide _) as [Hin|Hin]; [set_solver|]; clear Hin).
    destruct (decide _) as [Hin|Hin]; [|set_solver]; clear Hin.
    repeat (destruct (decide _) as [Hin|Hin]; [set_solver|]; clear Hin).
    reflexivity.
Qed.

Lemma unescape_slashes_other (c : ascii) (s : string) :
  c <> "\"%char \/ (forall s', s <> String "/" s') ->
  Str.unescape_slashes (String c s) = String c (Str.unescape_slashes s).
Proof.
  intros [Hc | Hs].
  - destruct c as [[] [] [] [] [] [] [] []]; try reflexivity. congruence.
  - destruct (Ascii.eqb_spec c "\") as [->|Hc].
    + destruct s as [|d s]; [reflexivity|].
      destruct d as [[] [] [] [] [] [] [] []]; try reflexivity.
      now destruct (Hs s).
    + destruct c as [[] [] [] [] [] [] [] []]; try reflexivity. congruence.
Qed.

(** Unescaping turns each escaped slash into a slash and keeps what is
    around it. *)
Lemma unescape_slashes_escaped (a b : string) :
  Str.unescape_slashes (a +:+ "\/" +:+ b) =
  Str.unescape_slashes a +:+ "/" +:+ Str.unescape_slashes b.
Proof.
  remember (String.length a) as n eqn:Hn.
  revert a Hn; induction n as [n IH] using lt_wf_ind; intros a ->.
  destruct a as [|c a]; [reflexivity|].
  destruct (Ascii.eqb_spec c "\") as [->|Hc].
  - destruct a as [|d a].
    + reflexivity.
    + destruct (Ascii.eqb_spec d "/") as [->|Hd].
      * cbn [String.append Str.unescape_slashes].
        f_equal. exact (IH (String.length a) ltac:(simpl; lia) a eq_refl).
      * rewrite (unescape_slashes_other "\" (String d a)) by (right; congruence).
        cbn [String.append].
        rewrite (unescape_slashes_other "\" (String d _)) by (right; congruence).
        f_equal. exact (IH (String.length (String d a)) ltac:(simpl; lia) (String d a) eq_refl).
  - cbn [String.append]. rewrite !unescape_slashes_other by (now left).
    cbn [String.append]. f_equal. exact (IH (String.length a) ltac:(simpl; lia) a eq_refl).
Qed.

Lemma escaped_url_watch : escaped_url watch_escaped.
Proof.
  change watch_escaped
    with ("https" +:+ escaped_slashes +:+ String "w" "ww.youtube.com\/watch?v=abcdefg").
  constructor; [now right | reflexivity].
Qed.

(** The leftmost attribute with an escaped URL is the first capture,
    and the scan goes on behind it. *)
Lemma findall_href_leftmost (pre g post : string) :
  escaped_url g ->
  (forall a g' post',
     pre +:+ href_attr g +:+ post = a +:+ href_attr g' +:+ post' ->
     escaped_url g' -> String.length pre <= String.length a) ->
  findall_href (pre +:+ href_attr g +:+ post) = g :: findall_href post.
Proof.
  intros Hg. induction pre as [|c pre IH]; intros Hleft.
  - now apply findall_href_attr.
  - cbn [String.append]. rewrite findall_href_no_match.
    + apply IH. intros a g' post' E Hg'.
      specialize (Hleft (String c a) g' post'). cbn [String.append String.length] in Hleft.
      rewrite E in Hleft. specialize (Hleft eq_refl Hg'). lia.
    + destruct (match_href_at _) as [g'|] eqn:E; [exfalso | reflexivity].
      apply match_href_at_Some in E as (Hg' & post' & E).
      specialize (Hleft "" g' post' E Hg'). cbn [String.length] in Hleft. lia.
Qed.

(** The scan captures nothing exactly in a text without such an
    attribute. *)
Lemma findall_href_nil (html : string) :
  findall_href html = [] <->
  ~ exists pre g post, html = pre +:+ href_attr g +:+ post /\ escaped_url g.
Proof.
  split.
  - intros Hnil (pre & g & post & -> & Hg). revert Hnil.
    induction pre as [|c pre IH];
      [cbn [String.append]; now rewrite (findall_href_attr g post Hg)|].
    cbn [String.append].
    destruct (match_href_at (String c (pre +:+ href_attr g +:+ post))) as [g'|] eqn:E.
    + now rewrite (findall_href_match _ _ _ E).
    + now rewrite (findall_href_no_match _ _ E).
  - intros Hnone. destruct (findall_href html) as [|g l] eqn:E; [reflexivity|].
    exfalso. apply Hnone.
    destruct (findall_href_from_sound 0 html g) as (Hg & pre & post & ->).
    { unfold findall_href in E. rewrite E. left. }
    eauto.
Qed.

(** A text without [href=] and the quote has no open value and no
    capture. *)
Lemma findall_href_no_attribute (txt : string) :
  Str.contains href_open txt = false ->
  values_closed txt = true /\ findall_href txt = [].
Proof.
  induction txt as [|c txt IH]; rewrite StrFacts.contains_unfold.
  - intros _. split; reflexivity.
  - destruct (Str.strip_prefix href_open (String c txt)) eqn:E; [discriminate|].
    intros [Hclosed Hnone]%IH. split.
    + cbn [values_closed]. now rewrite E, Hclosed.
    + rewrite findall_href_no_match; [assumption|].
      unfold match_href_at. now rewrite E.
Qed.

(** C2, amended. The scan captures the value of an [href] attribute when
    the value is [http] or [https], a colon, two slashes each behind a
    backslash, and one or more characters up to the closing quote. It
    goes from left to right and its matches do not overlap. Every
    capture is such a value standing in the text; the leftmost such
    attribute of the text is the first capture, and the scan goes on
    behind it; so nothing is captured exactly when the text has no such
    attribute. An attribute is captured wherever it does not stand
    inside an attribute value that is still open: when the text before
    it has a quote behind each [href=] with its opening quote, as a text
    without any [href=] has, the captures are those of that text, the
    value, and those of what follows. Each capture is unescaped (an
    escaped slash becomes a slash) and kept exactly when it then contains
    [youtube.com/watch] or [youtu.be/]. In particular an escaped
    occurrence of the watch link is matched and is among the links kept,
    with plain slashes, and it is the first link returned when no link
    is kept before it. *)
Theorem link_scan_escaped_hrefs (html : string) :
  (forall g, g ∈ findall_href html ->
     escaped_url g /\ exists pre post, html = pre +:+ href_attr g +:+ post) /\
  (forall pre g post,
     html = pre +:+ href_attr g +:+ post -> escaped_url g ->
     (forall a g' post',
        html = a +:+ href_attr g' +:+ post' -> escaped_url g' ->
        String.length pre <= String.length a) ->
     findall_href html = g :: findall_href post) /\
  (findall_href html = [] <->
   ~ exists pre g post, html = pre +:+ href_attr g +:+ post /\ escaped_url g) /\
  (forall pre g post,
     html = pre +:+ href_attr g +:+ post ->
     values_closed pre = true -> escaped_url g ->
     findall_href html = findall_href pre ++ g :: findall_href post) /\
  (forall txt, Str.contains href_open txt = false ->
     values_closed txt = true /\ findall_href txt = []) /\
  (forall a b, Str.unescape_slashes (a +:+ "\/" +:+ b) =
               Str.unescape_slashes a +:+ "/" +:+ Str.unescape_slashes b) /\
  yt_links_loop (findall_href html) =
    filter (fun h => is_youtube_link h = true)
           (Str.unescape_slashes <$> findall_href html) /\
  (forall h, is_youtube_link h = true <->
     (exists pre post, h = pre +:+ "youtube.com/watch" +:+ post) \/
     (exists pre post, h = pre +:+ "youtu.be/" +:+ post)) /\
  (forall pre post,
     html = pre +:+ href_attr watch_escaped +:+ post ->
     values_closed pre = true ->
     watch_plain ∈ yt_links_loop (findall_href html) /\
     (yt_links_loop (findall_href pre) = [] ->
      exists more, ordered_links html = watch_plain :: more)).
Proof.
  split; [intros g; apply findall_href_from_sound|].
  split; [intros pre g post -> Hg Hleft; now apply findall_href_leftmost|].
  split; [apply findall_href_nil|].
  split; [intros pre g post ->; apply findall_href_values_closed|].
  split; [apply findall_href_no_attribute|].
  split; [apply unescape_slashes_escaped|].
  split; [apply yt_links_loop_filter|].
  split; [apply is_youtube_link_spec|].
  intros pre post -> Hpre.
  assert (yt_links_loop (findall_href (pre +:+ href_attr watch_escaped +:+ post)) =
          yt_links_loop (findall_href pre) ++
          watch_plain :: yt_links_loop (findall_href post)) as Hsplit.
  { rewrite (findall_href_values_closed pre _ post Hpre escaped_url_watch).
    rewrite !yt_links_loop_filter, fmap_app, filter_app. cbn [fmap list_fmap].
    change (Str.unescape_slashes watch_escaped) with watch_plain.
    now rewrite filter_cons, decide_True by reflexivity. }
  split.
  - rewrite Hsplit. set_solver.
  - intros Hnone. rewrite ordered_links_first_seen, Hsplit, Hnone.
    cbn [app first_seen]. rewrite decide_False by set_solver.
    cbn [take]. eauto.
Qed.

(** The scan at ordinary markup: another attribute stands before the
    link. *)
Lemma link_scan_escaped_hrefs_witness :
  findall_href (("<a " +:+ Sample.class_attr +:+ " ") +:+
                href_attr watch_escaped +:+ ">video</a>") =
  findall_href ("<a " +:+ Sample.class_attr +:+ " ") ++
  watch_escaped :: findall_href ">video</a>".
Proof.
  exact (proj1 (proj2 (proj2 (proj2 (link_scan_escaped_hrefs _))))
           ("<a " +:+ Sample.class_attr +:+ " ") watch_escaped ">video</a>"
           eq_refl eq_refl escaped_url_watch).
Defined.

(** C2 as stated fails. An attribute with plain slashes is not matched,
    and nothing is returned for it, while the escaped form is matched.
    And an attribute with an escaped URL is not matched where it stands
    inside a value that is still open: the match of the open value ends
    at its opening quote. *)
Lemma plain_href_not_matched :
  findall_href ("<a " +:+ href_attr watch_plain +:+ ">video</a>") = [] /\
  ordered_links ("<a " +:+ href_attr watch_plain +:+ ">video</a>") = [] /\
  ordered_links ("<a " +:+ href_attr watch_escaped +:+ ">video</a>") = [watch_plain] /\
  findall_href (href_open +:+ "https:\/\/example.com " +:+ href_attr watch_escaped) =
    ["https:\/\/example.com href="].
Proof. repeat split; vm_compute; reflexivity. Qed.

(** ** Running computations *)

Section Running.
Context {A B : Type}.

Lemma bind_Ok (m : M A) (k : A -> M B) w st a st' :
  m w st = (Ok a, st') -> (m ≫= k) w st = k a w st'.
Proof. intros E. unfold mbind, M_bind. now rewrite E. Qed.

Lemma bind_Raise (m : M A) (k : A -> M B) w st e st' :
  m w st = (Raise e, st') -> (m ≫= k) w st = (Raise e, st').
Proof. intros E. unfold mbind, M_bind. now rewrite E. Qed.

Lemma try_except_Ok (m h : M A) w st a st' :
  m w st = (Ok a, st') -> try_except m h w st = (Ok a, st').
Proof. intros E. unfold try_except. now rewrite E. Qed.

Lemma try_except_Raise (m h : M A) w st e st' :
  m w st = (Raise e, st') -> try_except m h w st = h w st'.
Proof. intros E. unfold try_except. now rewrite E. Qed.

End Running.

Lemma requests_get_Some url w st resp :
  http w (length (requested st)) url = Some resp ->
  requests_get url w st = (Ok resp, sent url st).
Proof. intros E. unfold requests_get. now rewrite E. Qed.

Lemma requests_get_None url w st :
  http w (length (requested st)) url = None ->
  requests_get url w st = (Raise RequestException, sent url st).
Proof. intros E. unfold requests_get. now rewrite E. Qed.

Lemma raise_for_status_ok resp w st :
  error_status resp = false -> raise_for_status resp w st = (Ok tt, st).
Proof. unfold raise_for_status, error_status. now intros ->. Qed.

Lemma raise_for_status_error resp w st :
  error_status resp = true -> raise_for_status resp w st = (Raise HTTPError, st).
Proof. unfold raise_for_status, error_status. now intros ->. Qed.

(** ** The resolver *)

Section Resolver.
Context `{Interpreter} (cfg : Config).

Lemma get_youtube_details_no_key video_id w st :
  str_truthy (YOUTUBE_API_KEY cfg) = false ->
  get_youtube_details cfg video_id w st = (Ok None, st).
Proof. intros E. unfold get_youtube_details. now rewrite E. Qed.

Lemma get_youtube_details_no_id w st :
  get_youtube_details cfg None w st = (Ok None, st).
Proof.
  unfold get_youtube_details.
  destruct (str_truthy (YOUTUBE_API_KEY cfg)); reflexivity.
Qed.

(** The resolver never raises. *)
Lemma get_youtube_details_returns video_id w st :
  exists details st', get_youtube_details cfg video_id w st = (Ok details, st').
Proof.
  unfold get_youtube_details.
  destruct (str_truthy (YOUTUBE_API_KEY cfg)); cbn [negb]; [|now eauto].
  unfold try_except.
  match goal with
  | |- context [match ?r with _ => _ end] => destruct r as [[d|e] st']
  end; eauto.
Qed.

(** With a credential and an identifier the resolver sends one request
    and, when the answer is a success with a body that decodes, maps the
    body; an exception of the mapping becomes [None]. *)
Lemma get_youtube_details_answer video_id key w st resp data :
  YOUTUBE_API_KEY cfg = Some key -> key <> "" ->
  http w (length (requested st)) (videos_endpoint +:+ video_id +:+ "&key=" +:+ key)
    = Some resp ->
  error_status resp = false ->
  json resp = Some data ->
  get_youtube_details cfg (Some video_id) w st =
  (match details_of_data data with Ok d => Ok d | Raise _ => Ok None end,
   sent (videos_endpoint +:+ video_id +:+ "&key=" +:+ key) st).
Proof.
  intros Hkey Hne Hhttp Hstatus Hjson. unfold get_youtube_details.
  rewrite Hkey. cbn [str_truthy default].
  destruct (String.eqb_spec key "") as [->|_]; [congruence|]. cbn [negb].
  unfold try_except. cbn [videos_url default].
  rewrite (bind_Ok (lift _) _ w st _ st eq_refl).
  rewrite (bind_Ok _ _ w st _ _ (requests_get_Some _ _ _ _ Hhttp)).
  rewrite (bind_Ok _ _ w _ _ _ (raise_for_status_ok _ _ _ Hstatus)).
  unfold response_json. rewrite Hjson.
  rewrite (bind_Ok (mret data) _ w _ _ _ eq_refl).
  unfold lift. now destruct (details_of_data data).
Qed.

End Resolver.

(** C8. Without a configured credential, or without a video identifier,
    the resolver returns [None] and leaves the state as it was: no
    request is sent. The same holds for the guarded call of the result
    loop on a link that gives no identifier. *)
Theorem get_youtube_details_silent `{Interpreter} (cfg : Config) (video_id : option string)
    (w : World) (st : State) :
  str_truthy (YOUTUBE_API_KEY cfg) = false \/ video_id = None ->
  get_youtube_details cfg video_id w st = (Ok None, st) /\
  requested (get_youtube_details cfg video_id w st).2 = requested st /\
  (forall l, extract_youtube_id l = video_id ->
     details_of_link cfg l w st = (Ok None, st)).
Proof.
  intros Hor.
  assert (get_youtube_details cfg video_id w st = (Ok None, st)) as E.
  { destruct Hor as [Hkey | ->].
    - now apply get_youtube_details_no_key.
    - apply get_youtube_details_no_id. }
  rewrite E. repeat split. intros l <-. unfold details_of_link.
  now destruct (str_truthy (extract_youtube_id l)).
Qed.


(** ** The response mapping *)

Lemma result_bind_Ok {A B} (a : A) (k : A -> result B) : (Ok a ≫= k) = k a.
Proof. reflexivity. Qed.

Lemma result_bind_inv {A B} (r : result A) (k : A -> result B) (b : B) :
  r ≫= k = Ok b -> exists a, r = Ok a /\ k a = Ok b.
Proof. destruct r as [a|e]; [now exists a | discriminate]. Qed.

(** [int] of a string of ASCII digits, short enough for every limit, is
    the number it writes. *)
Lemma is_digit_ascii (c : ascii) : Py.is_digit c = true -> is_ascii_byte c = true.
Proof. destruct c as [[] [] [] [] [] [] [] []]; (reflexivity || discriminate). Qed.

Lemma to_ascii_digits `{Interpreter} (s : string) :
  Str.all Py.is_digit s = true -> Py.to_ascii s = s.
Proof.
  unfold Py.to_ascii. induction s as [|c s IH]; [reflexivity|].
  cbn [Str.all]. intros [Hc Hs]%andb_true_iff.
  rewrite (CharFacts.chars_ascii _ _ (is_digit_ascii c Hc)).
  cbn [fmap list_fmap string_of_list_ascii Py.ascii_of_char].
  rewrite (is_digit_ascii c Hc). f_equal. exact (IH Hs).
Qed.

Lemma digits_from_digits (acc : Z) (s : string) :
  Str.all Py.is_digit s = true -> Py.digits_from acc s = Some (decimal_value acc s).
Proof.
  revert acc; induction s as [|c s IH]; intros acc; [reflexivity|].
  cbn [Str.all]. intros [Hc Hs]%andb_true_iff.
  cbn [Py.digits_from decimal_value]. rewrite Hc. exact (IH _ Hs).
Qed.

Lemma count_le_length (f : ascii -> bool) (s : string) :
  Str.count f s <= String.length s.
Proof.
  induction s as [|c s IH]; [reflexivity|]. cbn [Str.count String.length].
  destruct (f c); lia.
Qed.

Lemma int_of_str_digits `{Interpreter} (s : string) :
  s <> "" -> Str.all Py.is_digit s = true -> String.length s <= 640 ->
  Py.int_of_str s = Some (decimal_value 0 s).
Proof.
  intros Hne Hall Hlen. unfold Py.int_of_str. rewrite (to_ascii_digits s Hall).
  destruct s as [|c s]; [congruence|].
  pose proof Hall as Hall'. cbn [Str.all] in Hall. apply andb_true_iff in Hall as [Hc Hs].
  assert (Py.is_space c = false) as Hsp
    by (destruct c as [[] [] [] [] [] [] [] []]; (reflexivity || discriminate)).
  cbn [Str.drop_while]. rewrite Hsp.
  assert (Py.too_many_digits (String c s) = false) as Hfew.
  { unfold Py.too_many_digits.
    pose proof (count_le_length Py.is_digit (String c s)).
    now rewrite (proj2 (Nat.ltb_ge _ _)) by lia. }
  assert (Py.unsigned_literal (String c s) = Some (decimal_value 0 (String c s))) as Hlit.
  { cbn [Py.unsigned_literal decimal_value]. rewrite Hc. now apply digits_from_digits. }
  destruct c as [[] [] [] [] [] [] [] []]; try discriminate Hc;
    cbv beta iota zeta; rewrite Hfew; exact Hlit.
Qed.

(** The mapping on a body whose first item has dicts (present or
    defaulted) where the code reads dicts. *)
Lemma details_of_data_first_item `{Interpreter} d it rest sn stt th hi :
  Py.lookup "items" d = Some (PList (PDict it :: rest)) ->
  default (PDict []) (Py.lookup "snippet" it) = PDict sn ->
  default (PDict []) (Py.lookup "statistics" it) = PDict stt ->
  default (PDict []) (Py.lookup "thumbnails" sn) = PDict th ->
  default (PDict []) (Py.lookup "high" th) = PDict hi ->
  details_of_data (PDict d) =
  (let view_count := default PNone (Py.lookup "viewCount" stt) in
   if Py.truthy view_count
   then z ← Py.int view_count; Ok (Some (mapped sn hi (Some z)))
   else Ok (Some (mapped sn hi None))).
Proof.
  intros Hitems Hsn Hstt Hth Hhi. unfold details_of_data, Py.get.
  cbn [Py.get_default Py.item]. rewrite Hitems.
  cbn -[Py.lookup Py.int mapped Py.truthy]. rewrite Hsn, Hstt.
  cbn -[Py.lookup Py.int mapped Py.truthy]. rewrite Hth.
  cbn -[Py.lookup Py.int mapped Py.truthy]. rewrite Hhi.
  cbn -[Py.lookup Py.int mapped].
  destruct (Py.truthy _) eqn:Ht; [|reflexivity].
  destruct (Py.lookup "viewCount" stt) as [v|] eqn:Ev; [|discriminate].
  cbn -[Py.int mapped]. now destruct (Py.int v).
Qed.

(** C5, amended. When the call succeeds and the body has a first item,
    the resolver maps the item's snippet and statistics fields. A view
    count that is absent, or present but false (null, the empty string,
    zero), gives null views with the other four fields returned; a view
    count that [int] accepts gives its value, as a string of up to 640
    ASCII digits gives the number it writes; a view count that [int]
    refuses, such as a non-empty string that is no number, makes the
    resolver return no data at all. *)
Theorem get_youtube_details_views `{Interpreter} (cfg : Config) (w : World) (st : State)
    (video_id key : string) (resp : Response)
    (d it sn stt th hi : list (string * pyval)) (rest : list pyval) :
  YOUTUBE_API_KEY cfg = Some key -> key <> "" ->
  http w (length (requested st)) (videos_endpoint +:+ video_id +:+ "&key=" +:+ key)
    = Some resp ->
  error_status resp = false ->
  json resp = Some (PDict d) ->
  Py.lookup "items" d = Some (PList (PDict it :: rest)) ->
  default (PDict []) (Py.lookup "snippet" it) = PDict sn ->
  default (PDict []) (Py.lookup "statistics" it) = PDict stt ->
  default (PDict []) (Py.lookup "thumbnails" sn) = PDict th ->
  default (PDict []) (Py.lookup "high" th) = PDict hi ->
  let view_count := default PNone (Py.lookup "viewCount" stt) in
  let returned := (get_youtube_details cfg (Some video_id) w st).1 in
  (Py.truthy view_count = false -> returned = Ok (Some (mapped sn hi None))) /\
  (forall z, Py.truthy view_count = true -> Py.int view_count = Ok z ->
     returned = Ok (Some (mapped sn hi (Some z)))) /\
  (forall e, Py.truthy view_count = true -> Py.int view_count = Raise e ->
     returned = Ok None) /\
  (forall s, view_count = PStr s -> s <> "" -> Py.int_of_str s = None ->
     returned = Ok None) /\
  (forall s, view_count = PStr s -> s <> "" ->
     Str.all Py.is_digit s = true -> String.length s <= 640 ->
     returned = Ok (Some (mapped sn hi (Some (decimal_value 0 s))))).
Proof.
  intros Hkey Hne Hhttp Hstatus Hjson Hitems Hsn Hstt Hth Hhi view_count returned.
  assert (returned =
          match (if Py.truthy view_count
                 then z ← Py.int view_count; Ok (Some (mapped sn hi (Some z)))
                 else Ok (Some (mapped sn hi None)))
          with Ok r => Ok r | Raise _ => Ok None end) as ->.
  { subst returned.
    rewrite (get_youtube_details_answer cfg video_id key w st resp (PDict d))
      by assumption.
    cbn [fst]. now rewrite (details_of_data_first_item d it rest sn stt th hi). }
  assert (forall e, Py.truthy view_count = true -> Py.int view_count = Raise e ->
            match (if Py.truthy view_count
                   then z ← Py.int view_count; Ok (Some (mapped sn hi (Some z)))
                   else Ok (Some (mapped sn hi None)))
            with Ok r => Ok r | Raise _ => Ok None end = Ok None) as Hraise
    by (now intros e -> ->).
  repeat split.
  - now intros ->.
  - now intros z -> ->.
  - exact Hraise.
  - intros s Hs Hne' Hint. apply (Hraise ValueError); rewrite Hs.
    + cbn [Py.truthy]. now destruct (String.eqb_spec s "").
    + cbn [Py.int]. now rewrite Hint.
  - intros s Hs Hne' Hdigits Hlen. rewrite Hs. cbn [Py.truthy Py.int].
    destruct (String.eqb_spec s "") as [|_]; [congruence|]. cbn [negb].
    now rewrite (int_of_str_digits s Hne' Hdigits Hlen).
Qed.

Section ResolverRuns.
#[local] Existing Instance Sample.interpreter.

(** C5 as stated fails for a view count that is no number: with the
    other fields in place the resolver returns no data, while an absent
    view count gives null views beside the other fields. *)
Lemma non_numeric_views_lose_details :
  (get_youtube_details Sample.with_key (Some "abcdefg")
     (Sample.world "" (Sample.body [("viewCount", PStr "n/a")])) initial).1 = Ok None /\
  (get_youtube_details Sample.with_key (Some "abcdefg")
     (Sample.world "" (Sample.body [])) initial).1 =
  Ok (Some {| d_title := PStr "A video";
              d_channel := PStr "A channel";
              d_thumbnail_url := PStr "https://i.ytimg.com/vi/abcdefg/hq.jpg";
              d_upload_date := PStr "2024-05-01T10:00:00Z";
              d_views := None |}).
Proof. split; vm_compute; reflexivity. Qed.

Lemma get_youtube_details_views_witness :
  (get_youtube_details Sample.with_key (Some "abcdefg")
     (Sample.world "" (Sample.body [("viewCount", PStr "1234")])) initial).1 =
  Ok (Some (mapped Sample.snippet Sample.high (Some 1234%Z))).
Proof.
  pose (stats := [("viewCount", PStr "1234")]).
  refine (proj1 (proj2
    (get_youtube_details_views Sample.with_key
       (Sample.world "" (Sample.body stats)) initial
       "abcdefg" "secret" (Sample.ok "" (Some (Sample.body stats)))
       (Sample.items stats) (Sample.first_item stats) Sample.snippet stats
       Sample.thumbnails Sample.high []
       eq_refl _ eq_refl eq_refl eq_refl eq_refl eq_refl eq_refl eq_refl eq_refl))
    1234%Z eq_refl eq_refl).
  discriminate.
Defined.

Lemma get_youtube_details_silent_witness :
  get_youtube_details Sample.without_key (Some "abcdefg") Sample.offline initial
  = (Ok None, initial) /\
  get_youtube_details Sample.with_key None Sample.offline initial = (Ok None, initial).
Proof.
  split.
  - exact (proj1 (get_youtube_details_silent Sample.without_key (Some "abcdefg")
                    Sample.offline initial (or_introl eq_refl))).
  - exact (proj1 (get_youtube_details_silent Sample.with_key None
                    Sample.offline initial (or_intror eq_refl))).
Defined.

End ResolverRuns.

(** ** Assembling items *)

Section Assembly.
Context `{UrlType}.

Lemma datetime_now_run w st :
  datetime_now w st = (Ok (utcnow w (clock_reads st)), tick st).
Proof. reflexivity. Qed.

(** Assembly reads the clock once and sends nothing; what it returns is
    decided by the two validations. *)
Lemma assemble_run link details retention w st :
  assemble link details retention w st =
  (metrics ← Metric_new (views_of details) retention
               (field_or details d_upload_date PNone)
               (Some (utcnow w (clock_reads st)));
   WorkItem_new (field_or details d_title (PStr "YouTube Video"))
     (field_or details d_channel PNone) (PStr link)
     (field_or details d_thumbnail_url PNone) PNone metrics,
   tick st).
Proof.
  unfold assemble. rewrite (bind_Ok _ _ w st _ _ (datetime_now_run w st)).
  unfold mbind at 1, M_bind, lift.
  now destruct (Metric_new _ _ _ _).
Qed.

Lemma assemble_bare link u retention w st :
  parse_HttpUrl link = Some u ->
  assemble link None retention w st =
  (Ok (bare_item u retention (utcnow w (clock_reads st))), tick st).
Proof.
  intros Hu. rewrite assemble_run. f_equal.
  cbn -[parse_HttpUrl]. now rewrite Hu.
Qed.

(** The item of a link with details whose fields pass validation. *)
Lemma assemble_details link u dt t ch th ud retention w st :
  parse_HttpUrl link = Some u ->
  d_title dt = PStr t ->
  Validate.optional Validate.str (d_channel dt) = Ok ch ->
  Validate.optional Validate.http_url (d_thumbnail_url dt) = Ok th ->
  Validate.optional Validate.str (d_upload_date dt) = Ok ud ->
  assemble link (Some dt) retention w st =
  (Ok {| title := t; channel := ch; youtube_url := Some u;
         thumbnail_url := th; outcome := None;
         metrics := {| views := d_views dt; avg_retention := retention;
                       upload_date := ud;
                       last_updated := Some (utcnow w (clock_reads st)) |} |},
   tick st).
Proof.
  intros Hu Ht Hch Hth Hud. rewrite assemble_run. f_equal.
  unfold Metric_new, WorkItem_new. cbn [field_or views_of].
  rewrite Hud, Ht, Hch, Hth. cbn -[parse_HttpUrl]. now rewrite Hu.
Qed.

(** Details without a string for a title cannot be assembled. *)
Lemma assemble_no_title link dt retention w st :
  (forall t, d_title dt <> PStr t) ->
  exists e, assemble link (Some dt) retention w st = (Raise e, tick st).
Proof.
  intros Ht. rewrite assemble_run. cbn [field_or views_of].
  unfold Metric_new, WorkItem_new.
  destruct (Validate.optional Validate.str (d_upload_date dt)) as [ud|e];
    [|now exists e].
  exists ValidationError. f_equal. cbn.
  destruct (d_title dt) eqn:E; try reflexivity. now destruct (Ht s).
Qed.

(** Whatever is assembled carries the retention it was given, the views
    of the details and the time of assembly. *)
Lemma assemble_metrics link details retention w st item st' :
  assemble link details retention w st = (Ok item, st') ->
  avg_retention (metrics item) = retention /\
  views (metrics item) = views_of details /\
  last_updated (metrics item) = Some (utcnow w (clock_reads st)).
Proof.
  rewrite assemble_run. intros [= E _]. revert E.
  unfold Metric_new, WorkItem_new.
  intros (m & (ud & _ & [= <-])%result_bind_inv & E)%result_bind_inv.
  do 5 apply result_bind_inv in E as (? & _ & E).
  now injection E as <-.
Qed.

End Assembly.

(** ** The pipeline *)

Section Loop.
Context {A B : Type} (f : A -> M B).

Lemma for_each_cons_Ok x l w st y st1 ys st2 :
  f x w st = (Ok y, st1) -> for_each f l w st1 = (Ok ys, st2) ->
  for_each f (x :: l) w st = (Ok (y :: ys), st2).
Proof.
  intros E1 E2. cbn [for_each].
  rewrite (bind_Ok _ _ w st _ _ E1), (bind_Ok _ _ w st1 _ _ E2). reflexivity.
Qed.

Lemma for_each_cons_Raise x l w st e st1 :
  f x w st = (Raise e, st1) -> for_each f (x :: l) w st = (Raise e, st1).
Proof. intros E. cbn [for_each]. now rewrite (bind_Raise _ _ w st _ _ E). Qed.

Lemma for_each_cons_Raise_later x l w st y st1 e st2 :
  f x w st = (Ok y, st1) -> for_each f l w st1 = (Raise e, st2) ->
  for_each f (x :: l) w st = (Raise e, st2).
Proof.
  intros E1 E2. cbn [for_each].
  now rewrite (bind_Ok _ _ w st _ _ E1), (bind_Raise _ _ w st1 _ _ E2).
Qed.

(** One value for each element. *)
Lemma for_each_length l w st ys st' :
  for_each f l w st = (Ok ys, st') -> length ys = length l.
Proof.
  revert st ys st'; induction l as [|x l IH]; intros st ys st'; cbn [for_each].
  - now intros [= <- _].
  - unfold mbind at 1, M_bind. destruct (f x w st) as [[y|e] st1]; [|discriminate].
    unfold mbind at 1, M_bind.
    destruct (for_each f l w st1) as [[ys'|e] st2] eqn:E; [|discriminate].
    intros [= <- _]. cbn [length]. f_equal. exact (IH _ _ _ E).
Qed.

End Loop.

Section Pipeline.
Context `{Interpreter} `{UrlType} (cfg : Config).

Lemma placeholder_run n now u w st :
  parse_HttpUrl (NOTION_PAGE_URL cfg) = Some u ->
  placeholder cfg n now w st = (Ok (placeholder_item u now n), st).
Proof.
  intros Hu. unfold placeholder, mbind, M_bind, lift.
  cbn -[parse_HttpUrl String.append]. now rewrite Hu.
Qed.

Lemma fallback_run u w st :
  parse_HttpUrl (NOTION_PAGE_URL cfg) = Some u ->
  fallback cfg w st =
  (Ok (placeholder_item u (utcnow w (clock_reads st)) <$> ["1"; "2"; "3"]), tick st).
Proof.
  intros Hu. unfold fallback.
  rewrite (bind_Ok _ _ w st _ _ (datetime_now_run w st)).
  do 3 rewrite (bind_Ok _ _ w _ _ _ (placeholder_run _ _ u w _ Hu)).
  reflexivity.
Qed.

(** A configured page URL that is no URL makes the fallback itself fail. *)
Lemma fallback_invalid w st :
  parse_HttpUrl (NOTION_PAGE_URL cfg) = None ->
  fallback cfg w st = (Raise ValidationError, tick st).
Proof.
  intros Hu. unfold fallback.
  rewrite (bind_Ok _ _ w st _ _ (datetime_now_run w st)).
  apply bind_Raise. unfold placeholder, mbind, M_bind, lift.
  cbn -[parse_HttpUrl String.append]. now rewrite Hu.
Qed.

(** The endpoint, case by case: the fetch, the status, the result loop. *)
Lemma notion_best_work_run w st :
  notion_best_work cfg w st =
  let st1 := sent (NOTION_PAGE_URL cfg) st in
  match http w (length (requested st)) (NOTION_PAGE_URL cfg) with
  | None => fallback cfg w st1
  | Some r =>
      if error_status r then fallback cfg w st1
      else
        match for_each (result_item cfg) (ordered_links (text r)) w st1 with
        | (Ok (item :: items), st2) => (Ok (item :: items), st2)
        | (Ok [], st2) | (Raise _, st2) => fallback cfg w st2
        end
  end.
Proof.
  cbv zeta. unfold notion_best_work, best_work_attempt.
  unfold mbind at 1, M_bind, try_except.
  destruct (http w (length (requested st)) (NOTION_PAGE_URL cfg)) as [r|] eqn:Eh.
  - rewrite (bind_Ok _ _ w st _ _ (requests_get_Some _ _ _ _ Eh)).
    destruct (error_status r) eqn:Es.
    + now rewrite (bind_Raise _ _ w _ _ _ (raise_for_status_error _ _ _ Es)).
    + rewrite (bind_Ok _ _ w _ _ _ (raise_for_status_ok _ _ _ Es)).
      unfold mbind at 1, M_bind.
      destruct (for_each _ _ w _) as [[[|item items]|e] st2]; reflexivity.
  - now rewrite (bind_Raise _ _ w st _ _ (requests_get_None _ _ _ Eh)).
Qed.

(** An item that cannot be assembled sends the whole request to the
    placeholders. *)
Lemma notion_best_work_item_raises w st r e st2 :
  http w (length (requested st)) (NOTION_PAGE_URL cfg) = Some r ->
  error_status r = false ->
  for_each (result_item cfg) (ordered_links (text r)) w
    (sent (NOTION_PAGE_URL cfg) st) = (Raise e, st2) ->
  notion_best_work cfg w st = fallback cfg w st2.
Proof.
  intros Hhttp Hstatus E. rewrite notion_best_work_run, Hhttp, Hstatus.
  cbv zeta. now rewrite E.
Qed.

End Pipeline.

(** C1, amended. When the page fetch fails, or the scan finds no link in
    the page, and the configured page URL is a valid URL, the endpoint
    returns exactly three placeholders. Each refers to the page URL and
    carries the fixed outcome note; views, retention and upload date
    are null, and [last_updated] is the time the fallback was built. *)
Theorem notion_best_work_fallback `{Interpreter} `{UrlType} (cfg : Config) (w : World) (st : State)
    (u : HttpUrl) :
  parse_HttpUrl (NOTION_PAGE_URL cfg) = Some u ->
  fetched_page cfg w st = None \/
    (exists html, fetched_page cfg w st = Some html /\ ordered_links html = []) ->
  let now := utcnow w (clock_reads st) in
  notion_best_work cfg w st =
    (Ok (placeholder_item u now <$> ["1"; "2"; "3"]),
     tick (sent (NOTION_PAGE_URL cfg) st)) /\
  Forall (fun p =>
            youtube_url p = Some u /\
            outcome p = Some "N/A — add manually" /\
            metrics p = {| views := None; avg_retention := None;
                           upload_date := None; last_updated := Some now |})
         (placeholder_item u now <$> ["1"; "2"; "3"]).
Proof.
  intros Hu Hfetch now. split; [|repeat constructor].
  rewrite notion_best_work_run. cbv zeta. unfold fetched_page in Hfetch.
  destruct (http w (length (requested st)) (NOTION_PAGE_URL cfg)) as [r|];
    [|now apply fallback_run].
  destruct (error_status r); [now apply fallback_run|].
  destruct Hfetch as [|(html & [= <-] & ->)]; [discriminate|].
  cbn [for_each]. now apply fallback_run.
Qed.

Section FallbackRuns.
#[local] Existing Instance Sample.interpreter.
#[local] Existing Instance Sample.plain_urls.

Lemma notion_best_work_fallback_witness :
  (notion_best_work Sample.without_key Sample.offline initial).1
  = Ok (placeholder_item Sample.page_url 1700000000000000%Z <$> ["1"; "2"; "3"]).
Proof.
  exact (f_equal fst
    (proj1 (notion_best_work_fallback Sample.without_key
              Sample.offline initial Sample.page_url eq_refl (or_introl eq_refl)))).
Defined.

(** C1 as stated fails: the metrics of a placeholder are not null, they
    hold the time of the fallback; and with a page URL that is no URL the
    fallback returns no placeholder at all. *)
Lemma placeholders_carry_last_updated :
  (notion_best_work Sample.without_key Sample.offline initial).1
  = Ok (map (fun n : string =>
               {| title := "Case Study Placeholder " +:+ n;
                  channel := Some "Channel Name";
                  youtube_url := Some Sample.page_url;
                  thumbnail_url := None;
                  outcome := Some "N/A — add manually";
                  metrics := {| views := None; avg_retention := None;
                                upload_date := None;
                                last_updated := Some 1700000000000000%Z |} |})
            ["1"; "2"; "3"]) /\
  (notion_best_work {| YOUTUBE_API_KEY := None; NOTION_PAGE_URL := "not a url" |}
     Sample.offline initial).1
  = Raise ValidationError.
Proof. split; vm_compute; reflexivity. Qed.

End FallbackRuns.

(** ** One item for each link *)

(** The resolver sends at most one request and does not read the clock. *)
Lemma get_youtube_details_state `{Interpreter} (cfg : Config) video_id w st :
  (get_youtube_details cfg video_id w st).2 = st \/
  exists url, (get_youtube_details cfg video_id w st).2 = sent url st.
Proof.
  unfold get_youtube_details, try_except, mbind, M_bind, lift, requests_get,
    raise_for_status, response_json, mret, M_ret, sent.
  repeat case_match; unfold lift in *; simplify_eq; cbn [snd]; eauto.
Qed.

Lemma details_of_link_clock `{Interpreter} (cfg : Config) l w st :
  clock_reads (details_of_link cfg l w st).2 = clock_reads st.
Proof.
  unfold details_of_link. destruct (str_truthy _); [|reflexivity].
  destruct (get_youtube_details_state cfg (extract_youtube_id l) w st)
    as [-> | (url & ->)]; reflexivity.
Qed.

Lemma details_of_link_returns `{Interpreter} (cfg : Config) l w st :
  exists details, details_of_link cfg l w st = (Ok details, (details_of_link cfg l w st).2).
Proof.
  unfold details_of_link. destruct (str_truthy _); [|now exists None].
  destruct (get_youtube_details_returns cfg (extract_youtube_id l) w st)
    as (d & st' & ->). now exists d.
Qed.

Section Items.
Context `{Interpreter} `{UrlType} (cfg : Config).

Lemma result_item_run l details w st st1 :
  details_of_link cfg l w st = (Ok details, st1) ->
  result_item cfg l w st = assemble l details None w st1.
Proof. intros E. unfold result_item. now rewrite (bind_Ok _ _ w st _ _ E). Qed.

(** Links without details, all of them valid URLs: one bare item each,
    stamped with successive readings of the clock. *)
Lemma for_each_bare links us w st :
  (forall l st0, l ∈ links -> (details_of_link cfg l w st0).1 = Ok None) ->
  Forall2 (fun l u => parse_HttpUrl l = Some u) links us ->
  exists st',
    for_each (result_item cfg) links w st =
      (Ok (imap (fun k u => bare_item u None (utcnow w (clock_reads st + k))) us), st') /\
    clock_reads st' = clock_reads st + length links.
Proof.
  intros Hnone Hus. revert st.
  induction Hus as [|l u links us Hu Hus IH]; intros st.
  - exists st. split; [reflexivity | cbn; lia].
  - destruct (details_of_link_returns cfg l w st) as (d & Ed).
    assert (d = None) as ->.
    { specialize (Hnone l st ltac:(left)). rewrite Ed in Hnone. now injection Hnone. }
    pose proof (details_of_link_clock cfg l w st) as Hclock.
    set (st1 := (details_of_link cfg l w st).2) in *.
    destruct (IH ltac:(intros; apply Hnone; now right) (tick st1)) as (st' & E & Hst').
    exists st'. split.
    + assert (result_item cfg l w st =
              (Ok (bare_item u None (utcnow w (clock_reads st1))), tick st1)) as E1
        by (rewrite (result_item_run l None w st st1 Ed); now apply assemble_bare).
      rewrite (for_each_cons_Ok _ l links w st _ _ _ _ E1 E).
      cbn [tick clock_reads imap]. rewrite Hclock, Nat.add_0_r.
      do 3 f_equal. apply imap_ext. intros k x _. cbn. do 2 f_equal. lia.
    + rewrite Hst'. cbn [tick clock_reads length]. lia.
Qed.

End Items.

(** C3, amended. With the page fetched and a non-empty list of links,
    the endpoint returns one item for each link, and no placeholder,
    whenever every item assembles: the items of the result loop are the
    result. Links without details that are valid URLs always assemble,
    each into an item with only [last_updated] set among its metrics.
    With two links that are valid URLs, details for one (its fields
    passing validation) and none for the other, the result is the two
    items: one with the views and upload date of its details, one with
    only [last_updated] set. *)
Theorem notion_best_work_items `{Interpreter} `{UrlType} (cfg : Config) (w : World) (st : State)
    (r : Response) :
  http w (length (requested st)) (NOTION_PAGE_URL cfg) = Some r ->
  error_status r = false ->
  ordered_links (text r) <> [] ->
  let links := ordered_links (text r) in
  let st1 := sent (NOTION_PAGE_URL cfg) st in
  let now k := utcnow w (clock_reads st + k) in
  (forall items st2,
     for_each (result_item cfg) links w st1 = (Ok items, st2) ->
     notion_best_work cfg w st = (Ok items, st2) /\ length items = length links) /\
  (forall us,
     (forall l st0, l ∈ links -> (details_of_link cfg l w st0).1 = Ok None) ->
     Forall2 (fun l u => parse_HttpUrl l = Some u) links us ->
     (notion_best_work cfg w st).1 = Ok (imap (fun k u => bare_item u None (now k)) us)) /\
  (forall l1 l2 u1 u2 dt t ch th ud st2 st3,
     links = [l1; l2] ->
     parse_HttpUrl l1 = Some u1 -> parse_HttpUrl l2 = Some u2 ->
     details_of_link cfg l1 w st1 = (Ok (Some dt), st2) ->
     valid_details dt t ch th ud ->
     details_of_link cfg l2 w (tick st2) = (Ok None, st3) ->
     notion_best_work cfg w st =
       (Ok [full_item u1 dt None t ch th ud (now 0); bare_item u2 None (now 1)], tick st3)) /\
  (forall l1 l2 u1 u2 dt t ch th ud st2 st3,
     links = [l1; l2] ->
     parse_HttpUrl l1 = Some u1 -> parse_HttpUrl l2 = Some u2 ->
     details_of_link cfg l1 w st1 = (Ok None, st2) ->
     details_of_link cfg l2 w (tick st2) = (Ok (Some dt), st3) ->
     valid_details dt t ch th ud ->
     notion_best_work cfg w st =
       (Ok [bare_item u1 None (now 0); full_item u2 dt None t ch th ud (now 1)], tick st3)).
Proof.
  intros Hhttp Hstatus Hlinks links st1 now.
  assert (forall items st2,
            for_each (result_item cfg) links w st1 = (Ok items, st2) ->
            notion_best_work cfg w st = (Ok items, st2) /\ length items = length links)
    as Hloop.
  { intros items st2 E. pose proof (for_each_length _ _ _ _ _ _ E) as Hlen.
    split; [|assumption].
    rewrite notion_best_work_run, Hhttp, Hstatus. cbv zeta. fold st1 links. rewrite E.
    destruct items as [|item items]; [|reflexivity].
    destruct Hlinks. now apply nil_length_inv. }
  assert (forall l1 l2 d1 d2 i1 i2 st2 st3,
            links = [l1; l2] ->
            details_of_link cfg l1 w st1 = (Ok d1, st2) ->
            assemble l1 d1 None w st2 = (Ok i1, tick st2) ->
            details_of_link cfg l2 w (tick st2) = (Ok d2, st3) ->
            assemble l2 d2 None w st3 = (Ok i2, tick st3) ->
            notion_best_work cfg w st = (Ok [i1; i2], tick st3)) as Htwo.
  { intros l1 l2 d1 d2 i1 i2 st2 st3 El E1 A1 E2 A2. apply Hloop. rewrite El.
    eapply for_each_cons_Ok;
      [rewrite (result_item_run cfg l1 d1 w st1 st2 E1); exact A1|].
    eapply for_each_cons_Ok;
      [rewrite (result_item_run cfg l2 d2 w _ st3 E2); exact A2|].
    reflexivity. }
  assert (forall l d st0 st', details_of_link cfg l w st0 = (Ok d, st') ->
            clock_reads st' = clock_reads st0) as Hclock.
  { intros l d st0 st' E. pose proof (details_of_link_clock cfg l w st0) as Hc.
    now rewrite E in Hc. }
  split; [exact Hloop|]. split; [|split].
  - intros us Hnone Hus.
    destruct (for_each_bare cfg links us w st1 Hnone Hus) as (st' & E & _).
    apply Hloop in E as [-> _]. reflexivity.
  - intros l1 l2 u1 u2 dt t ch th ud st2 st3 El Hu1 Hu2 E1 (Ht & Hch & Hth & Hud) E2.
    eapply Htwo; [eassumption | eassumption | | eassumption |].
    + rewrite (assemble_details l1 u1 dt t ch th ud None w st2) by assumption.
      unfold full_item, now. rewrite (Hclock _ _ _ _ E1). cbn [sent clock_reads].
      now rewrite Nat.add_0_r.
    + rewrite (assemble_bare l2 u2 None w st3 Hu2).
      unfold now. rewrite (Hclock _ _ _ _ E2). cbn [tick clock_reads].
      rewrite (Hclock _ _ _ _ E1). cbn [sent clock_reads].
      now rewrite Nat.add_1_r.
  - intros l1 l2 u1 u2 dt t ch th ud st2 st3 El Hu1 Hu2 E1 E2 (Ht & Hch & Hth & Hud).
    eapply Htwo; [eassumption | eassumption | | eassumption |].
    + rewrite (assemble_bare l1 u1 None w st2 Hu1).
      unfold now. rewrite (Hclock _ _ _ _ E1). cbn [sent clock_reads].
      now rewrite Nat.add_0_r.
    + rewrite (assemble_details l2 u2 dt t ch th ud None w st3) by assumption.
      unfold full_item, now. rewrite (Hclock _ _ _ _ E2). cbn [tick clock_reads].
      rewrite (Hclock _ _ _ _ E1). cbn [sent clock_reads].
      now rewrite Nat.add_1_r.
Qed.

Section ItemRuns.
#[local] Existing Instance Sample.interpreter.
#[local] Existing Instance Sample.plain_urls.

Lemma notion_best_work_items_witness :
  (notion_best_work Sample.with_key
     (Sample.world two_links (Sample.body [("viewCount", PStr "1234")])) initial).1 =
  Ok [ {| title := "A video"; channel := Some "A channel";
          youtube_url := Some watch_plain;
          thumbnail_url := Some "https://i.ytimg.com/vi/abcdefg/hq.jpg";
          outcome := None;
          metrics := {| views := Some 1234%Z; avg_retention := None;
                        upload_date := Some "2024-05-01T10:00:00Z";
                        last_updated := Some 1700000000000000%Z |} |};
       {| title := "YouTube Video"; channel := None;
          youtube_url := Some "https://youtu.be/abc";
          thumbnail_url := None; outcome := None;
          metrics := {| views := None; avg_retention := None;
                        upload_date := None;
                        last_updated := Some 1700000000000001%Z |} |} ].
Proof.
  pose (w := Sample.world two_links (Sample.body [("viewCount", PStr "1234")])).
  pose (st1 := sent Sample.page_url initial).
  pose (st2 := sent (videos_endpoint +:+ "abcdefg" +:+ "&key=" +:+ "secret") st1).
  assert (ordered_links two_links <> []) as Hlinks by (vm_compute; discriminate).
  refine (f_equal fst
    (proj1 (proj2 (proj2
       (notion_best_work_items Sample.with_key w initial (Sample.ok two_links None)
          eq_refl eq_refl Hlinks)))
       watch_plain "https://youtu.be/abc" watch_plain "https://youtu.be/abc"
       (mapped Sample.snippet Sample.high (Some 1234%Z))
       "A video" (Some "A channel") (Some "https://i.ytimg.com/vi/abcdefg/hq.jpg")
       (Some "2024-05-01T10:00:00Z") st2 (tick st2)
       _ eq_refl eq_refl _ _ _)).
  - vm_compute. reflexivity.
  - vm_compute. reflexivity.
  - repeat split.
  - vm_compute. reflexivity.
Defined.

(** C3 as stated fails: with one link extracted and details that have no
    title, the item cannot be assembled and the three placeholders are
    returned. *)
Lemma untitled_details_fall_back :
  ordered_links (Sample.page watch_escaped) = [watch_plain] /\
  (notion_best_work Sample.with_key
     (Sample.world (Sample.page watch_escaped) (PDict [("items", PList [PDict []])]))
     initial).1 =
  Ok (placeholder_item Sample.page_url 1700000000000001%Z <$> ["1"; "2"; "3"]).
Proof. split; vm_compute; reflexivity. Qed.

End ItemRuns.

(** ** The single-link endpoint *)

(** C9. For a URL that gives no video identifier the single-link
    endpoint raises the client error, status 400: no item is returned,
    no placeholder stands in for it, and no request has been sent. *)
Theorem refresh_metrics_rejects `{Interpreter} `{UrlType} (cfg : Config) (req : MetricsRequest)
    (w : World) (st : State) :
  extract_youtube_id (str_HttpUrl (url req)) = None ->
  refresh_metrics cfg req w st = (Raise (HTTPException 400 "Invalid YouTube URL"), st).
Proof. intros E. unfold refresh_metrics. now rewrite E. Qed.

(** C10. When the URL gives an identifier, the item the single-link
    endpoint returns carries the retention of the request, unchanged,
    whether or not the resolver found details: any returned item does;
    without details an item is returned for a URL that validates, and
    with details whose fields pass validation as well. *)
Theorem refresh_metrics_retention `{Interpreter} `{UrlType} (cfg : Config) (req : MetricsRequest)
    (w : World) (st : State) (vid : string) :
  extract_youtube_id (str_HttpUrl (url req)) = Some vid ->
  let now := utcnow w (clock_reads st) in
  (forall item st',
     refresh_metrics cfg req w st = (Ok item, st') ->
     avg_retention (metrics item) = manual_retention_pct req) /\
  (forall u st1,
     parse_HttpUrl (str_HttpUrl (url req)) = Some u ->
     get_youtube_details cfg (Some vid) w st = (Ok None, st1) ->
     refresh_metrics cfg req w st =
       (Ok (bare_item u (manual_retention_pct req) now), tick st1)) /\
  (forall u dt t ch th ud st1,
     parse_HttpUrl (str_HttpUrl (url req)) = Some u ->
     get_youtube_details cfg (Some vid) w st = (Ok (Some dt), st1) ->
     valid_details dt t ch th ud ->
     refresh_metrics cfg req w st =
       (Ok (full_item u dt (manual_retention_pct req) t ch th ud now), tick st1)).
Proof.
  intros Hvid now.
  assert (forall d st1,
            get_youtube_details cfg (Some vid) w st = (Ok d, st1) ->
            refresh_metrics cfg req w st =
              assemble (str_HttpUrl (url req)) d (manual_retention_pct req) w st1 /\
            clock_reads st1 = clock_reads st) as Hrun.
  { intros d st1 E. split.
    - unfold refresh_metrics.
      rewrite (proj2 (extract_youtube_id_truthy _)) by (rewrite Hvid; eauto).
      cbn [negb]. rewrite Hvid. now rewrite (bind_Ok _ _ w st _ _ E).
    - destruct (get_youtube_details_state cfg (Some vid) w st) as [Hs | (x & Hs)];
        rewrite E in Hs; cbn [snd] in Hs; now subst. }
  split; [|split].
  - intros item st'.
    destruct (get_youtube_details_returns cfg (Some vid) w st) as (d & st1 & E).
    rewrite (proj1 (Hrun d st1 E)). now intros [? _]%assemble_metrics.
  - intros u st1 Hu E. destruct (Hrun _ _ E) as [-> Hclock].
    rewrite (assemble_bare _ u _ w st1 Hu). unfold now. now rewrite Hclock.
  - intros u dt t ch th ud st1 Hu E (Ht & Hch & Hth & Hud).
    destruct (Hrun _ _ E) as [-> Hclock].
    rewrite (assemble_details _ u dt t ch th ud _ w st1) by assumption.
    unfold full_item, now. now rewrite Hclock.
Qed.

Section MetricsRuns.
#[local] Existing Instance Sample.interpreter.
#[local] Existing Instance Sample.plain_urls.

Lemma refresh_metrics_rejects_witness :
  refresh_metrics Sample.with_key
    {| url := "https://example.com/watch"; manual_retention_pct := Some retention_42_5 |}
    Sample.offline initial
  = (Raise (HTTPException 400 "Invalid YouTube URL"), initial).
Proof.
  exact (refresh_metrics_rejects Sample.with_key
           {| url := "https://example.com/watch";
              manual_retention_pct := Some retention_42_5 |}
           Sample.offline initial eq_refl).
Defined.

Lemma refresh_metrics_retention_witness :
  refresh_metrics Sample.with_key
    {| url := "https://youtu.be/abcdefg"; manual_retention_pct := Some retention_42_5 |}
    Sample.offline initial
  = (Ok {| title := "YouTube Video"; channel := None;
           youtube_url := Some "https://youtu.be/abcdefg";
           thumbnail_url := None; outcome := None;
           metrics := {| views := None; avg_retention := Some retention_42_5;
                         upload_date := None;
                         last_updated := Some 1700000000000000%Z |} |},
     tick (sent (videos_endpoint +:+ "abcdefg" +:+ "&key=" +:+ "secret") initial)).
Proof.
  refine (proj1 (proj2
    (refresh_metrics_retention Sample.with_key
       {| url := "https://youtu.be/abcdefg";
          manual_retention_pct := Some retention_42_5 |}
       Sample.offline initial "abcdefg" eq_refl))
    "https://youtu.be/abcdefg" _ eq_refl _).
  vm_compute. reflexivity.
Defined.

End MetricsRuns.

(** * Further properties of the pipeline *)

(** ** Where the identifier comes from *)

(** X1. An identifier that [extract_youtube_id] returns stands in the
    link right behind one of the three markers; it has six characters or
    more, all of them word characters or hyphens, and it is the whole
    run: the identifier characters that the link has behind the marker
    are the characters of the identifier. *)
Theorem extract_youtube_id_located `{Interpreter} (url tok : string) :
  extract_youtube_id url = Some tok ->
  exists marker pre post,
    (marker = "youtu.be/" \/ marker = "v=" \/ marker = "/embed/") /\
    url = pre +:+ marker +:+ tok +:+ post /\
    (6 <= length (chars tok))%nat /\
    forallb id_char (chars tok) = true /\
    id_run (tok +:+ post) = chars tok.
Proof.
  unfold extract_youtube_id.
  destruct (search_id "youtu.be/" url) eqn:E1.
  { intros [= <-]. apply search_id_located in E1 as (pre & post & ?).
    exists "youtu.be/", pre, post. tauto. }
  destruct (search_id "v=" url) eqn:E2.
  { intros [= <-]. apply search_id_located in E2 as (pre & post & ?).
    exists "v=", pre, post. tauto. }
  destruct (search_id "/embed/" url) eqn:E3; [|discriminate].
  intros [= <-]. apply search_id_located in E3 as (pre & post & ?).
  exists "/embed/", pre, post. tauto.
Qed.

Section LocatedRuns.
#[local] Existing Instance Sample.interpreter.

Lemma extract_youtube_id_located_witness :
  exists marker pre post,
    (marker = "youtu.be/" \/ marker = "v=" \/ marker = "/embed/") /\
    "https://youtu.be/abcdefgé?x=1" = pre +:+ marker +:+ "abcdefgé" +:+ post /\
    (6 <= length (chars "abcdefgé"))%nat /\
    forallb id_char (chars "abcdefgé") = true /\
    id_run ("abcdefgé" +:+ post) = chars "abcdefgé".
Proof.
  exact (extract_youtube_id_located "https://youtu.be/abcdefgé?x=1" "abcdefgé" eq_refl).
Defined.

End LocatedRuns.

(** ** The order of the three patterns *)

Section Precedence.
Import Str StrFacts.
Context `{Interpreter}.



End Precedence.


Section PrecedenceRuns.
#[local] Existing Instance Sample.interpreter.


End PrecedenceRuns.

(** ** The resolver contains its failures *)

(** With a credential and an identifier: one request, and what comes of
    each answer. *)
Lemma get_youtube_details_run `{Interpreter} (cfg : Config) (video_id key : string) w st :
  YOUTUBE_API_KEY cfg = Some key -> key <> "" ->
  get_youtube_details cfg (Some video_id) w st =
  (match http w (length (requested st)) (videos_request video_id key) with
   | None => Ok None
   | Some resp =>
       if error_status resp then Ok None
       else match json resp with
            | None => Ok None
            | Some data =>
                match details_of_data data with Ok d => Ok d | Raise _ => Ok None end
            end
   end,
   sent (videos_request video_id key) st).
Proof.
  intros Hkey Hne. unfold videos_request.
  destruct (http w (length (requested st)) _) as [resp|] eqn:Hhttp.
  - destruct (error_status resp) eqn:Hstatus.
    + unfold get_youtube_details. rewrite Hkey. cbn [str_truthy default].
      destruct (String.eqb_spec key "") as [->|_]; [congruence|]. cbn [negb].
      unfold try_except. cbn [videos_url].
      rewrite (bind_Ok (lift _) _ w st _ st eq_refl).
      rewrite (bind_Ok _ _ w st _ _ (requests_get_Some _ _ _ _ Hhttp)).
      now rewrite (bind_Raise _ _ w _ _ _ (raise_for_status_error _ _ _ Hstatus)).
    + destruct (json resp) as [data|] eqn:Hjson.
      * now apply (get_youtube_details_answer cfg video_id key w st resp data).
      * unfold get_youtube_details. rewrite Hkey. cbn [str_truthy default].
        destruct (String.eqb_spec key "") as [->|_]; [congruence|]. cbn [negb].
        unfold try_except. cbn [videos_url].
        rewrite (bind_Ok (lift _) _ w st _ st eq_refl).
        rewrite (bind_Ok _ _ w st _ _ (requests_get_Some _ _ _ _ Hhttp)).
        rewrite (bind_Ok _ _ w _ _ _ (raise_for_status_ok _ _ _ Hstatus)).
        unfold response_json. rewrite Hjson. reflexivity.
  - unfold get_youtube_details. rewrite Hkey. cbn [str_truthy default].
    destruct (String.eqb_spec key "") as [->|_]; [congruence|]. cbn [negb].
    unfold try_except. cbn [videos_url].
    rewrite (bind_Ok (lift _) _ w st _ st eq_refl).
    now rewrite (bind_Raise _ _ w st _ _ (requests_get_None _ _ _ Hhttp)).
Qed.

(** X3. The resolver never raises and never reads the clock. It sends at
    most one request; when it sends one, an identifier and a non-empty
    credential are there and the request goes to the videos endpoint with
    both. *)
Theorem get_youtube_details_contained `{Interpreter} (cfg : Config) (video_id : option string)
    (w : World) (st : State) :
  exists details st',
    get_youtube_details cfg video_id w st = (Ok details, st') /\
    clock_reads st' = clock_reads st /\
    (st' = st \/
     exists v key,
       video_id = Some v /\ YOUTUBE_API_KEY cfg = Some key /\ key <> "" /\
       st' = sent (videos_request v key) st).
Proof.
  destruct (str_truthy (YOUTUBE_API_KEY cfg)) eqn:Hkey.
  - destruct video_id as [v|].
    + destruct (YOUTUBE_API_KEY cfg) as [key|] eqn:Ek; [|discriminate].
      assert (key <> "") as Hne by (intros ->; discriminate).
      rewrite (get_youtube_details_run cfg v key w st Ek Hne).
      match goal with
      | |- context [(?r, sent _ _)] =>
          assert (exists d, r = Ok d) as [d ->] by (repeat case_match; eauto)
      end.
      exists d, (sent (videos_request v key) st).
      split; [reflexivity|]. split; [reflexivity|]. right. now exists v, key.
    + rewrite get_youtube_details_no_id. eauto 6.
  - rewrite (get_youtube_details_no_key cfg video_id w st Hkey). eauto 6.
Qed.

(** X4. With a credential and an identifier, every way the lookup can
    fail ends in [None] after exactly one request: the request fails, the
    status is an error, the body does not decode, or the body has no
    items. *)
Theorem get_youtube_details_collapses `{Interpreter} (cfg : Config) (video_id key : string)
    (w : World) (st : State) :
  YOUTUBE_API_KEY cfg = Some key -> key <> "" ->
  let answer := http w (length (requested st)) (videos_request video_id key) in
  answer = None \/
  (exists resp, answer = Some resp /\
     (error_status resp = true \/ json resp = None \/
      exists data, json resp = Some data /\ no_items data)) ->
  get_youtube_details cfg (Some video_id) w st =
  (Ok None, sent (videos_request video_id key) st).
Proof.
  intros Hkey Hne answer Hfail.
  rewrite (get_youtube_details_run cfg video_id key w st Hkey Hne). fold answer.
  f_equal.
  destruct Hfail as [-> | (resp & -> & [-> | [Hj | (data & Hj & Hno)]])];
    [reflexivity | reflexivity | |].
  - destruct (error_status resp); [reflexivity|]. now rewrite Hj.
  - destruct (error_status resp); [reflexivity|]. rewrite Hj.
    destruct data; try reflexivity.
    unfold details_of_data, Py.get. cbn [Py.get_default].
    cbn [mbind result_bind]. cbn [no_items] in Hno. now rewrite Hno.
Qed.

Section CollapseRuns.
#[local] Existing Instance Sample.interpreter.

Lemma get_youtube_details_collapses_witness :
  get_youtube_details Sample.with_key (Some "abcdefg") Sample.offline initial =
    (Ok None, sent (videos_request "abcdefg" "secret") initial) /\
  get_youtube_details Sample.with_key (Some "abcdefg")
    (Sample.world "" (PDict [("items", PList [])])) initial =
    (Ok None, sent (videos_request "abcdefg" "secret") initial).
Proof.
  split.
  - refine (get_youtube_details_collapses Sample.with_key "abcdefg" "secret"
              Sample.offline initial eq_refl _ (or_introl eq_refl)).
    discriminate.
  - refine (get_youtube_details_collapses Sample.with_key "abcdefg" "secret"
              (Sample.world "" (PDict [("items", PList [])])) initial eq_refl _
              (or_intror (ex_intro _ (Sample.ok "" (Some (PDict [("items", PList [])])))
                            (conj eq_refl (or_intror (or_intror
                               (ex_intro _ (PDict [("items", PList [])])
                                  (conj eq_refl eq_refl)))))))).
    discriminate.
Defined.

End CollapseRuns.

(** ** What the extracted links look like *)

Section LinkShape.
Import Str StrFacts.

(** Unescaping stays inside a class of characters that has the slash. *)
Lemma all_unescape_slashes (f : ascii -> bool) (s : string) :
  f "/"%char = true -> all f s = true -> all f (unescape_slashes s) = true.
Proof.
  intros Hslash. remember (String.length s) as n eqn:Hn.
  revert s Hn; induction n as [n IH] using lt_wf_ind; intros s ->.
  destruct s as [|c s]; [reflexivity|].
  cbn [all]. intros [Hc Hs]%andb_true_iff.
  destruct (Ascii.eqb_spec c "\") as [->|Hne].
  - destruct s as [|d s].
    + cbn. now rewrite Hc.
    + destruct (Ascii.eqb_spec d "/") as [->|Hd].
      * cbn [unescape_slashes all]. rewrite Hslash. cbn [andb].
        cbn [all] in Hs. apply andb_true_iff in Hs as [_ Hs].
        exact (IH (String.length s) ltac:(simpl; lia) s eq_refl Hs).
      * rewrite unescape_slashes_other by (right; congruence).
        cbn [all]. rewrite Hc. cbn [andb].
        exact (IH (String.length (String d s)) ltac:(simpl; lia) (String d s) eq_refl Hs).
  - rewrite unescape_slashes_other by (now left). cbn [all]. rewrite Hc. cbn [andb].
    exact (IH (String.length s) ltac:(simpl; lia) s eq_refl Hs).
Qed.

(** A captured value, unescaped, is an absolute URL. *)
Lemma unescape_escaped_url (g : string) :
  escaped_url g ->
  ((exists rest, unescape_slashes g = "http://" +:+ rest) \/
   (exists rest, unescape_slashes g = "https://" +:+ rest)) /\
  all not_quote (unescape_slashes g) = true.
Proof.
  intros [scheme c body Hs Hq].
  assert (all not_quote (scheme +:+ escaped_slashes +:+ String c body) = true) as Hall.
  { rewrite !all_app, Hq. now destruct Hs as [-> | ->]. }
  split; [|now apply all_unescape_slashes].
  destruct Hs as [-> | ->]; [left | right];
    exists (unescape_slashes (String c body)).
  - change ("http" +:+ escaped_slashes +:+ String c body)
      with ("http:" +:+ "\/" +:+ ("" +:+ "\/" +:+ String c body)).
    now rewrite !unescape_slashes_escaped.
  - change ("https" +:+ escaped_slashes +:+ String c body)
      with ("https:" +:+ "\/" +:+ ("" +:+ "\/" +:+ String c body)).
    now rewrite !unescape_slashes_escaped.
Qed.

Lemma elem_of_ordered_links (html l : string) :
  l ∈ ordered_links html ->
  is_youtube_link l = true /\
  exists g, g ∈ findall_href html /\ l = unescape_slashes g.
Proof.
  rewrite ordered_links_first_seen. intros Hl.
  apply (subseteq_take 3), elem_of_first_seen in Hl as [Hl _].
  rewrite yt_links_loop_filter in Hl.
  apply list_elem_of_filter in Hl as [Hyt Hl].
  apply list_elem_of_fmap in Hl as (g & -> & Hg). eauto.
Qed.

End LinkShape.

(** X5. Every link the scan hands on is an absolute URL, [http://] or
    [https://] and what follows, contains one of the two platform shapes,
    and has no double quote in it. *)
Theorem ordered_links_are_links (html : string) :
  Forall (fun l =>
            ((exists rest, l = "http://" +:+ rest) \/
             (exists rest, l = "https://" +:+ rest)) /\
            is_youtube_link l = true /\
            Str.all not_quote l = true)
         (ordered_links html).
Proof.
  apply Forall_forall. intros l (Hyt & g & Hg & ->)%elem_of_ordered_links.
  apply findall_href_from_sound in Hg as [Hg _].
  apply unescape_escaped_url in Hg as [Hscheme Hq]. auto.
Qed.

(** ** Requests and results of the two endpoints *)

Lemma sends_at_most_refl n st : sends_at_most n st st.
Proof. exists []. rewrite app_nil_r. split; [reflexivity | cbn; lia]. Qed.

Lemma sends_at_most_trans n m st1 st2 st3 :
  sends_at_most n st1 st2 -> sends_at_most m st2 st3 -> sends_at_most (n + m) st1 st3.
Proof.
  intros (a & Ha & Hla) (b & Hb & Hlb). exists (a ++ b).
  rewrite Hb, Ha, <- app_assoc, length_app. split; [reflexivity | lia].
Qed.

Lemma sends_at_most_le n m st st' :
  n <= m -> sends_at_most n st st' -> sends_at_most m st st'.
Proof. intros Hle (a & Ha & Hla). exists a. split; [assumption | lia]. Qed.

Lemma sends_at_most_tick n st st' :
  sends_at_most n st st' -> sends_at_most n st (tick st').
Proof. intros (a & Ha & Hla). now exists a. Qed.

Lemma details_of_link_sends `{Interpreter} (cfg : Config) l w st :
  sends_at_most 1 st (details_of_link cfg l w st).2.
Proof.
  unfold details_of_link. destruct (str_truthy _); [|apply sends_at_most_refl].
  destruct (get_youtube_details_state cfg (extract_youtube_id l) w st)
    as [-> | (url & ->)]; [apply sends_at_most_refl|].
  exists [url]. split; [reflexivity | cbn; lia].
Qed.

Section Endpoints_facts.
Context `{Interpreter} `{UrlType} (cfg : Config).

(** Assembly fails only in validation. *)
Lemma assemble_raises link details retention w st e st' :
  assemble link details retention w st = (Raise e, st') -> e = ValidationError.
Proof.
  rewrite assemble_run. intros [= E _]. revert E.
  unfold Metric_new, WorkItem_new, Validate.optional, Validate.str, Validate.http_url.
  repeat case_match; cbn; try congruence;
    repeat case_match; cbn; congruence.
Qed.

(** What is assembled for a link is an item of that link. *)
Lemma assemble_item_of_link link details retention w st item st' :
  assemble link details retention w st = (Ok item, st') -> item_of_link link item.
Proof.
  intros E. pose proof (assemble_metrics _ _ _ _ _ _ _ E) as (_ & _ & Hlast).
  revert E. rewrite assemble_run. intros [= E _]. revert E.
  unfold Metric_new, WorkItem_new.
  intros (m & _ & E)%result_bind_inv.
  apply result_bind_inv in E as (t & _ & E).
  apply result_bind_inv in E as (ch & _ & E).
  apply result_bind_inv in E as (yu & Hyu & E).
  apply result_bind_inv in E as (th & _ & E).
  apply result_bind_inv in E as (oc & Hoc & E).
  injection E as <-. cbn [Validate.optional] in Hoc. injection Hoc as <-.
  unfold item_of_link. cbn [youtube_url outcome]. rewrite Hlast.
  split; [|split; [reflexivity | eauto]].
  cbn [Validate.optional Validate.http_url fmap result_fmap] in Hyu.
  destruct (parse_HttpUrl link) as [u|]; [|discriminate].
  injection Hyu as <-. eauto.
Qed.

Lemma result_item_sends l w st :
  sends_at_most 1 st (result_item cfg l w st).2.
Proof.
  destruct (details_of_link_returns cfg l w st) as (d & E).
  rewrite (result_item_run cfg l d w st _ E), assemble_run. cbn [snd].
  apply sends_at_most_tick, details_of_link_sends.
Qed.

Lemma result_item_item_of_link l w st item st' :
  result_item cfg l w st = (Ok item, st') -> item_of_link l item.
Proof.
  destruct (details_of_link_returns cfg l w st) as (d & E).
  rewrite (result_item_run cfg l d w st _ E). apply assemble_item_of_link.
Qed.

Lemma result_item_no_retention l w st item st' :
  result_item cfg l w st = (Ok item, st') -> avg_retention (metrics item) = None.
Proof.
  destruct (details_of_link_returns cfg l w st) as (d & E).
  rewrite (result_item_run cfg l d w st _ E). now intros [? _]%assemble_metrics.
Qed.

(** The result loop sends at most one request for each link, whether it
    ends or raises. *)
Lemma for_each_result_item_sends links w st :
  sends_at_most (length links) st (for_each (result_item cfg) links w st).2.
Proof.
  revert st; induction links as [|l links IH]; intros st; [apply sends_at_most_refl|].
  pose proof (result_item_sends l w st) as H1.
  cbn [for_each length]. unfold mbind at 1, M_bind.
  destruct (result_item cfg l w st) as [[item|e] st1]; cbn [snd] in *.
  - pose proof (IH st1) as H2. unfold mbind at 1, M_bind.
    destruct (for_each (result_item cfg) links w st1) as [[items|e] st2];
      cbn [snd] in *; exact (sends_at_most_trans 1 _ _ _ _ H1 H2).
  - eapply sends_at_most_le; [|exact H1]. lia.
Qed.

(** What the loop returns, item for item. *)
Lemma for_each_result_item_items links w st items st' :
  for_each (result_item cfg) links w st = (Ok items, st') ->
  Forall2 (fun l item => item_of_link l item /\ avg_retention (metrics item) = None)
          links items.
Proof.
  revert st items st'; induction links as [|l links IH]; intros st items st';
    cbn [for_each].
  - intros [= <- _]. constructor.
  - unfold mbind at 1, M_bind.
    destruct (result_item cfg l w st) as [[item|e] st1] eqn:E1; [|discriminate].
    unfold mbind at 1, M_bind.
    destruct (for_each (result_item cfg) links w st1) as [[rest|e] st2] eqn:E2;
      [|discriminate].
    intros [= <- _]. constructor; [|exact (IH _ _ _ E2)].
    eauto using result_item_item_of_link, result_item_no_retention.
Qed.

Lemma fallback_state w st : (fallback cfg w st).2 = tick st.
Proof.
  destruct (parse_HttpUrl (NOTION_PAGE_URL cfg)) as [u|] eqn:Hu.
  - now rewrite (fallback_run cfg u w st Hu).
  - now rewrite (fallback_invalid cfg w st Hu).
Qed.

Lemma fallback_Ok w st items st' :
  fallback cfg w st = (Ok items, st') ->
  exists u, parse_HttpUrl (NOTION_PAGE_URL cfg) = Some u /\
            items = placeholder_item u (utcnow w (clock_reads st)) <$> ["1"; "2"; "3"].
Proof.
  destruct (parse_HttpUrl (NOTION_PAGE_URL cfg)) as [u|] eqn:Hu.
  - rewrite (fallback_run cfg u w st Hu). intros [= <- _]. eauto.
  - now rewrite (fallback_invalid cfg w st Hu).
Qed.

End Endpoints_facts.

(** X6. With a configured page URL that is a valid URL, the list
    endpoint never raises: it returns between one and three items. The
    page is the first request it sends, and at most three more follow,
    one for a link at most. *)
Theorem notion_best_work_bounded `{Interpreter} `{UrlType} (cfg : Config) (w : World) (st : State)
    (u : HttpUrl) :
  parse_HttpUrl (NOTION_PAGE_URL cfg) = Some u ->
  exists items st',
    notion_best_work cfg w st = (Ok items, st') /\
    1 <= length items <= 3 /\
    exists more,
      requested st' = requested st ++ NOTION_PAGE_URL cfg :: more /\
      length more <= 3.
Proof.
  intros Hu. rewrite notion_best_work_run. cbv zeta.
  set (st1 := sent (NOTION_PAGE_URL cfg) st).
  assert (forall st2, sends_at_most 3 st1 st2 ->
            exists items st',
              fallback cfg w st2 = (Ok items, st') /\
              1 <= length items <= 3 /\
              exists more,
                requested st' = requested st ++ NOTION_PAGE_URL cfg :: more /\
                length more <= 3) as Hfall.
  { intros st2 (more & Hmore & Hlen). rewrite (fallback_run cfg u w st2 Hu).
    eexists _, _. split; [reflexivity|]. split; [rewrite length_fmap; cbn; lia|].
    exists more. split; [|assumption]. cbn [tick requested]. rewrite Hmore.
    subst st1. cbn [sent requested]. now rewrite <- app_assoc. }
  assert (sends_at_most 3 st1 st1) as Hrefl
    by (apply (sends_at_most_le 0); [lia | apply sends_at_most_refl]).
  destruct (http w (length (requested st)) (NOTION_PAGE_URL cfg)) as [r|];
    [|now apply Hfall].
  destruct (error_status r); [now apply Hfall|].
  pose proof (for_each_result_item_sends cfg (ordered_links (text r)) w st1) as Hsends.
  assert (length (ordered_links (text r)) <= 3) as Hcap
    by (rewrite ordered_links_first_seen, length_take; lia).
  apply (sends_at_most_le _ 3) in Hsends; [|assumption].
  destruct (for_each _ _ w st1) as [[[|item items]|e] st2] eqn:E; cbn [snd] in Hsends;
    [now apply Hfall | | now apply Hfall].
  apply for_each_length in E as Hlen.
  eexists _, _. split; [reflexivity|]. split; [cbn [length] in *; lia|].
  destruct Hsends as (more & Hmore & Hlen'). exists more. split; [|assumption].
  rewrite Hmore. subst st1. cbn [sent requested]. now rewrite <- app_assoc.
Qed.

(** X7. What the list endpoint returns is of one of two kinds, never a
    mix: the three placeholders, or one item for each extracted link, in
    the order of the links, each with its link as URL, no outcome note,
    no retention and the time of assembly. *)
Theorem notion_best_work_two_kinds `{Interpreter} `{UrlType} (cfg : Config) (w : World) (st : State)
    (items : list WorkItem) (st' : State) :
  notion_best_work cfg w st = (Ok items, st') ->
  (exists u now,
     parse_HttpUrl (NOTION_PAGE_URL cfg) = Some u /\
     items = placeholder_item u now <$> ["1"; "2"; "3"]) \/
  (exists r,
     http w (length (requested st)) (NOTION_PAGE_URL cfg) = Some r /\
     error_status r = false /\
     Forall2 (fun l item => item_of_link l item /\ avg_retention (metrics item) = None)
             (ordered_links (text r)) items).
Proof.
  rewrite notion_best_work_run. cbv zeta.
  assert (forall st2, fallback cfg w st2 = (Ok items, st') ->
            exists u now,
              parse_HttpUrl (NOTION_PAGE_URL cfg) = Some u /\
              items = placeholder_item u now <$> ["1"; "2"; "3"]) as Hfall
    by (intros st2 (u & ? & ?)%fallback_Ok; eauto).
  destruct (http w (length (requested st)) (NOTION_PAGE_URL cfg)) as [r|] eqn:Hhttp;
    [|intros E; left; exact (Hfall _ E)].
  destruct (error_status r) eqn:Hstatus; [intros E; left; exact (Hfall _ E)|].
  destruct (for_each _ _ w _) as [[[|item rest]|e] st2] eqn:E;
    [intros E'; left; exact (Hfall _ E') | | intros E'; left; exact (Hfall _ E')].
  intros [= <- _]. right. exists r. split; [reflexivity|]. split; [exact Hstatus|].
  exact (for_each_result_item_items cfg _ _ _ _ _ E).
Qed.

(** X8. The single-link endpoint ends in one of three ways. It returns
    an item: then the link had an identifier, and the item has the
    request's URL, no outcome note and the time of the request. It raises
    the client error 400: then the link had no identifier and nothing was
    sent. Or it raises a validation error. It never sends more than one
    request. *)
Theorem refresh_metrics_outcomes `{Interpreter} `{UrlType} (cfg : Config) (req : MetricsRequest)
    (w : World) (st : State) :
  sends_at_most 1 st (refresh_metrics cfg req w st).2 /\
  match (refresh_metrics cfg req w st).1 with
  | Ok item =>
      is_Some (extract_youtube_id (str_HttpUrl (url req))) /\
      item_of_link (str_HttpUrl (url req)) item /\
      last_updated (metrics item) = Some (utcnow w (clock_reads st))
  | Raise e =>
      (e = HTTPException 400 "Invalid YouTube URL" /\
       extract_youtube_id (str_HttpUrl (url req)) = None /\
       (refresh_metrics cfg req w st).2 = st) \/
      e = ValidationError
  end.
Proof.
  unfold refresh_metrics.
  destruct (str_truthy (extract_youtube_id (str_HttpUrl (url req)))) eqn:Hvid; cbn [negb].
  - apply extract_youtube_id_truthy in Hvid.
    destruct (get_youtube_details_returns cfg (extract_youtube_id (str_HttpUrl (url req)))
                w st) as (d & st1 & E).
    rewrite (bind_Ok _ _ w st _ _ E).
    assert (sends_at_most 1 st st1 /\ clock_reads st1 = clock_reads st) as [Hsend Hclock].
    { destruct (get_youtube_details_state cfg
                  (extract_youtube_id (str_HttpUrl (url req))) w st) as [Hs | (x & Hs)];
        rewrite E in Hs; cbn [snd] in Hs; subst st1.
      - split; [apply sends_at_most_refl | reflexivity].
      - split; [|reflexivity]. exists [x]. split; [reflexivity | cbn; lia]. }
    destruct (assemble _ d _ w st1) as [[item|e] st2] eqn:Ea; cbn [fst snd].
    + pose proof Ea as Est. rewrite assemble_run in Est. injection Est as _ <-.
      split; [now apply sends_at_most_tick|]. split; [assumption|].
      split; [exact (assemble_item_of_link _ _ _ _ _ _ _ Ea)|].
      apply assemble_metrics in Ea as (_ & _ & ->). now rewrite Hclock.
    + pose proof Ea as Est. rewrite assemble_run in Est. injection Est as _ <-.
      split; [now apply sends_at_most_tick|]. right.
      exact (assemble_raises _ _ _ _ _ _ _ Ea).
  - cbn [lift fst snd]. split; [apply sends_at_most_refl|]. left.
    split; [reflexivity|]. split; [|reflexivity].
    destruct (extract_youtube_id _) eqn:E; [|reflexivity].
    assert (is_Some (extract_youtube_id (str_HttpUrl (url req)))) as Hs
      by (rewrite E; eauto).
    apply extract_youtube_id_truthy in Hs. rewrite E in Hs. congruence.
Qed.

Section MoreRuns.
#[local] Existing Instance Sample.interpreter.
#[local] Existing Instance Sample.plain_urls.

Lemma notion_best_work_bounded_witness :
  exists items st',
    notion_best_work Sample.with_key
      (Sample.world two_links (Sample.body [("viewCount", PStr "1234")])) initial
    = (Ok items, st') /\
    1 <= length items <= 3 /\
    exists more,
      requested st' = requested initial ++ Sample.page_url :: more /\
      length more <= 3.
Proof.
  exact (notion_best_work_bounded Sample.with_key
           (Sample.world two_links (Sample.body [("viewCount", PStr "1234")])) initial
           Sample.page_url eq_refl).
Defined.

Lemma notion_best_work_two_kinds_witness :
  (exists u now,
     parse_HttpUrl Sample.page_url = Some u /\
     [bare_item watch_plain None 1700000000000000%Z;
      bare_item "https://youtu.be/abc" None 1700000000000001%Z]
     = placeholder_item u now <$> ["1"; "2"; "3"]) \/
  (exists r,
     http (Sample.world two_links (PDict [])) 0 Sample.page_url = Some r /\
     error_status r = false /\
     Forall2 (fun l item => item_of_link l item /\ avg_retention (metrics item) = None)
             (ordered_links (text r))
             [bare_item watch_plain None 1700000000000000%Z;
              bare_item "https://youtu.be/abc" None 1700000000000001%Z]).
Proof.
  refine (notion_best_work_two_kinds Sample.with_key
            (Sample.world two_links (PDict [])) initial
            [bare_item watch_plain None 1700000000000000%Z;
             bare_item "https://youtu.be/abc" None 1700000000000001%Z]
            {| requested := [Sample.page_url; videos_request "abcdefg" "secret"];
               clock_reads := 2 |} _).
  vm_compute. reflexivity.
Defined.

End MoreRuns.

(** * The document store *)

(** ** [_to_plain] *)

Section Plain.
Context `{UrlType}.

(** Induction on values, with the hypothesis for every element of a
    container. *)
Lemma obj_induction (P : obj -> Prop) :
  P ONone -> (forall b, P (OBool b)) -> (forall z, P (OInt z)) ->
  (forall f, P (OFloat f)) -> (forall s, P (OStr s)) ->
  (forall t, P (ODatetime t)) -> (forall hex, P (OObjectId hex)) ->
  (forall u, P (OUrl u)) ->
  (forall l, Forall P l -> P (OList l)) ->
  (forall l, Forall P l -> P (OTuple l)) ->
  (forall d, Forall (fun kv => P kv.2) d -> P (ODict d)) ->
  (forall fields, Forall (fun kv => P kv.2) fields -> P (OModel fields)) ->
  forall v, P v.
Proof.
  intros HNone HBool HInt HFloat HStr HDate HId HUrl HList HTuple HDict HModel.
  fix IH 1.
  intros [| | | | | | | |l|l|d|fields];
    [exact HNone | apply HBool | apply HInt | apply HFloat | apply HStr
    | apply HDate | apply HId | apply HUrl | | | |].
  - apply HList. induction l as [|x l IHl]; constructor; [apply IH | exact IHl].
  - apply HTuple. induction l as [|x l IHl]; constructor; [apply IH | exact IHl].
  - apply HDict. induction d as [|[k x] d IHd]; constructor; [apply IH | exact IHd].
  - apply HModel. induction fields as [|[k x] d IHd]; constructor; [apply IH | exact IHd].
Qed.

Lemma map_values_ext (f g : obj -> obj) (d : list (string * obj)) :
  Forall (fun kv => f kv.2 = g kv.2) d ->
  map (fun kv => (kv.1, f kv.2)) d = map (fun kv => (kv.1, g kv.2)) d.
Proof. induction 1 as [|kv d E _ IH]; cbn [map]; [reflexivity | now rewrite E, IH]. Qed.

Lemma map_ext_Forall' (f g : obj -> obj) (l : list obj) :
  Forall (fun x => f x = g x) l -> map f l = map g l.
Proof. induction 1 as [|x l E _ IH]; cbn [map]; [reflexivity | now rewrite E, IH]. Qed.

(** The helper is [_to_plain] after the dump. *)
Lemma to_plain_dumped_spec (v : obj) : to_plain_dumped v = to_plain (dump_value v).
Proof.
  induction v as [| | | | | | | |l IH|l IH|d IH|fields IH] using obj_induction;
    cbn [to_plain_dumped dump_value to_plain]; try reflexivity.
  - f_equal. rewrite map_map.
    now apply (map_ext_Forall' to_plain_dumped (fun x => to_plain (dump_value x))).
  - f_equal. rewrite map_map. cbn [fst snd].
    now apply (map_values_ext to_plain_dumped (fun x => to_plain (dump_value x))).
  - f_equal. rewrite map_map. cbn [fst snd].
    now apply (map_values_ext to_plain_dumped (fun x => to_plain (dump_value x))).
Qed.

(** The model branch of [_to_plain], as the source has it. *)
Lemma to_plain_model (fields : list (string * obj)) :
  to_plain (OModel fields) =
  ODict (map (fun kv => (kv.1, to_plain kv.2)) (model_dump fields)).
Proof.
  cbn [to_plain]. unfold model_dump. rewrite map_map. cbn [fst snd]. f_equal.
  apply (map_values_ext to_plain_dumped (fun x => to_plain (dump_value x))).
  apply Forall_forall. intros kv _. apply to_plain_dumped_spec.
Qed.

Lemma converted_dumped (v : obj) : converted (to_plain_dumped v) = true.
Proof.
  induction v as [| | | | | | | |l IH|l IH|d IH|fields IH] using obj_induction;
    cbn [to_plain_dumped converted]; try reflexivity.
  - apply forallb_forall. intros x (y & <- & Hy)%in_map_iff.
    rewrite Forall_forall in IH. apply IH. now apply list_elem_of_In.
  - apply forallb_forall. intros x (y & <- & Hy)%in_map_iff. cbn [snd].
    rewrite Forall_forall in IH. apply IH. now apply list_elem_of_In.
  - apply forallb_forall. intros x (y & <- & Hy)%in_map_iff. cbn [snd].
    rewrite Forall_forall in IH. apply IH. now apply list_elem_of_In.
Qed.

Lemma converted_to_plain (v : obj) : converted (to_plain v) = true.
Proof.
  induction v as [| | | | | | | |l IH|l IH|d IH|fields IH] using obj_induction;
    cbn [to_plain converted]; try reflexivity.
  - apply forallb_forall. intros x (y & <- & Hy)%in_map_iff.
    rewrite Forall_forall in IH. apply IH. now apply list_elem_of_In.
  - apply forallb_forall. intros x (y & <- & Hy)%in_map_iff. cbn [snd].
    rewrite Forall_forall in IH. apply IH. now apply list_elem_of_In.
  - apply forallb_forall. intros x (y & <- & Hy)%in_map_iff. cbn [snd].
    apply converted_dumped.
Qed.

(** A converted value is left as it is. *)
Lemma to_plain_converted (v : obj) : converted v = true -> to_plain v = v.
Proof.
  induction v as [| | | | | | | |l IH|l IH|d IH|fields IH] using obj_induction;
    cbn [to_plain converted]; try reflexivity; try discriminate.
  - intros Hl. f_equal. rewrite <- (map_id l) at 2. apply map_ext_Forall'.
    rewrite forallb_forall in Hl. rewrite Forall_forall in IH |- *.
    intros x Hx. apply IH; [assumption|]. apply Hl. now apply list_elem_of_In.
  - intros Hd. f_equal. rewrite <- (map_id d) at 2.
    apply map_ext_in. intros [k x] Hx. cbn [fst snd]. f_equal.
    rewrite forallb_forall in Hd. rewrite Forall_forall in IH.
    apply (IH (k, x)); [now apply list_elem_of_In|]. exact (Hd (k, x) Hx).
Qed.

End Plain.

(** X9. [_to_plain] leaves no model and no URL where it looks (at the
    top, in dicts and in lists, at any depth), it changes nothing in a
    value that has none there, and applying it twice is applying it
    once. *)
Theorem to_plain_converts `{UrlType} (v : obj) :
  converted (to_plain v) = true /\
  (converted v = true -> to_plain v = v) /\
  to_plain (to_plain v) = to_plain v.
Proof.
  split; [apply converted_to_plain|]. split; [apply to_plain_converted|].
  apply to_plain_converted, converted_to_plain.
Qed.

(** ** Dicts *)

Section Dicts.
Context `{UrlType}.

Lemma dict_get_set_eq k v (d : list (string * obj)) :
  dict_get k (dict_set k v d) = Some v.
Proof.
  induction d as [|[k' v'] d IH]; cbn [dict_set dict_get].
  - now rewrite String.eqb_refl.
  - destruct (String.eqb_spec k k') as [->|Hne]; cbn [dict_get].
    + now rewrite String.eqb_refl.
    + destruct (String.eqb_spec k k'); [contradiction | exact IH].
Qed.

Lemma dict_get_set_ne k k' v (d : list (string * obj)) :
  k <> k' -> dict_get k' (dict_set k v d) = dict_get k' d.
Proof.
  intros Hne. induction d as [|[k0 v0] d IH]; cbn [dict_set dict_get].
  - destruct (String.eqb_spec k' k); [congruence | reflexivity].
  - destruct (String.eqb_spec k k0) as [->|Hk]; cbn [dict_get].
    + destruct (String.eqb_spec k' k0); [congruence | reflexivity].
    + destruct (String.eqb_spec k' k0); [reflexivity | exact IH].
Qed.

Lemma Forall_dict_set (P : obj -> Prop) k v (d : list (string * obj)) :
  P v -> Forall (fun kv => P kv.2) d -> Forall (fun kv => P kv.2) (dict_set k v d).
Proof.
  intros Hv. induction 1 as [|[k' v'] d Hx Hd IH]; cbn [dict_set].
  - repeat constructor. exact Hv.
  - destruct (String.eqb k k'); constructor; auto.
Qed.

(** The keys after an assignment: as before, the new key at the end. *)
Lemma dict_set_keys k v (d : list (string * obj)) :
  (dict_set k v d).*1 = if decide (k ∈ d.*1) then d.*1 else d.*1 ++ [k].
Proof.
  induction d as [|[k' v'] d IH]; cbn [dict_set fmap list_fmap fst].
  - rewrite decide_False by apply not_elem_of_nil. reflexivity.
  - destruct (String.eqb_spec k k') as [->|Hne]; cbn [fmap list_fmap fst].
    + rewrite decide_True by apply list_elem_of_here. reflexivity.
    + change (list_fmap _ _ fst (dict_set k v d)) with ((dict_set k v d).*1).
      change (list_fmap _ _ fst d) with (d.*1). rewrite IH.
      destruct (decide (k ∈ d.*1)) as [Hin|Hin].
      * rewrite decide_True by (now apply list_elem_of_further). reflexivity.
      * rewrite decide_False; [reflexivity|].
        rewrite elem_of_cons. tauto.
Qed.

(** Assigning to a key that stands once, behind other keys. *)
Lemma dict_set_middle k v v0 (a b : list (string * obj)) :
  k ∉ a.*1 -> dict_set k v (a ++ (k, v0) :: b) = a ++ (k, v) :: b.
Proof.
  induction a as [|[k' v'] a IH]; cbn [app dict_set fmap list_fmap fst].
  - intros _. now rewrite String.eqb_refl.
  - intros Hnot. apply not_elem_of_cons in Hnot as [Hne Hnot].
    destruct (String.eqb_spec k k'); [contradiction|]. now rewrite IH.
Qed.

Lemma items_of_to_plain_model fields :
  items_of (to_plain (OModel fields)) = map (fun kv => (kv.1, to_plain_dumped kv.2)) fields.
Proof. reflexivity. Qed.

(** The dict that [create_document] starts from holds converted values. *)
Lemma data_dict_of_converted (data : payload) :
  Forall (fun kv => converted kv.2 = true) (data_dict_of data).
Proof.
  assert (forall v, Forall (fun kv => converted kv.2 = true) (items_of (to_plain v))) as Hv.
  { intros v. pose proof (converted_to_plain v) as Hc.
    destruct (to_plain v); cbn [items_of]; try constructor.
    cbn [converted] in Hc. rewrite forallb_forall in Hc.
    apply Forall_forall. intros kv Hkv. apply Hc. now apply list_elem_of_In. }
  destruct data; apply Hv.
Qed.

End Dicts.

(** ** [create_document] and [add_logo] *)

Section Store.
Context `{Rendering} (env : Env).

Lemma create_document_run collection data w st :
  db_connected env = true ->
  let doc := stamped data (db_utcnow w (db_clock_reads st))
               (db_utcnow w (S (db_clock_reads st))) in
  create_document env collection data w st =
  (match insert_one (driver w) (length (operations st)) collection doc with
   | Done inserted_id => Done (py_str inserted_id)
   | Failed msg => Failed msg
   end,
   did (Insert collection doc) (db_tick (db_tick st))).
Proof.
  intros Hdb doc. unfold create_document. rewrite Hdb. cbn [negb].
  unfold mbind, DB_bind, db_now, db_insert_one, mret, DB_ret.
  cbn [db_tick db_clock_reads operations]. fold doc.
  now destruct (insert_one _ _ _ _).
Qed.

End Store.

(** X10. Without a database handle [create_document] raises the fixed
    message and does nothing else. With one it reads the clock twice and
    inserts exactly one document into the named collection: the data
    converted by [_to_plain], with [created_at] and [updated_at] set to
    the two readings, over any such keys of the caller; every value of
    it is converted, with no model and no URL left at the top, in dicts
    or in lists (what stands in another container, a tuple, stays as it
    is). It returns [str] of the inserted id, or fails as the driver
    fails. *)
Theorem create_document_stores `{Rendering} (env : Env) (collection : string)
    (data : payload) (w : DbWorld) (st : DbState) :
  (db_connected env = false ->
   create_document env collection data w st = (Failed not_available, st)) /\
  (db_connected env = true ->
   let created := db_utcnow w (db_clock_reads st) in
   let updated := db_utcnow w (S (db_clock_reads st)) in
   let doc := stamped data created updated in
   create_document env collection data w st =
     (match insert_one (driver w) (length (operations st)) collection doc with
      | Done inserted_id => Done (py_str inserted_id)
      | Failed msg => Failed msg
      end,
      did (Insert collection doc) (db_tick (db_tick st))) /\
   dict_get "created_at" doc = Some (ODatetime created) /\
   dict_get "updated_at" doc = Some (ODatetime updated) /\
   (forall k, k <> "created_at" -> k <> "updated_at" ->
      dict_get k doc = dict_get k (data_dict_of data)) /\
   Forall (fun kv => converted kv.2 = true) doc).
Proof.
  split.
  - intros Hdb. unfold create_document. now rewrite Hdb.
  - intros Hdb created updated doc.
    split; [exact (create_document_run env collection data w st Hdb)|].
    subst doc. unfold stamped.
    split; [rewrite dict_get_set_ne by discriminate; apply dict_get_set_eq|].
    split; [apply dict_get_set_eq|].
    split.
    + intros k Hc Hu. rewrite !dict_get_set_ne by congruence. reflexivity.
    + apply (Forall_dict_set (fun v => converted v = true)); [reflexivity|].
      apply (Forall_dict_set (fun v => converted v = true)); [reflexivity|].
      apply data_dict_of_converted.
Qed.

(** X11. [add_logo] lets nothing escape but the server error 500. Without
    a database handle that is what it raises, with the fixed message, and
    nothing is inserted. With one it inserts one document into the logo
    collection: name, image URL and link URL as text (the link null when
    absent) and the two timestamps; it returns [str] of the inserted id,
    or raises 500 with the message of the driver. *)
Theorem add_logo_outcomes `{Rendering} (env : Env) (item : LogoItem)
    (w : DbWorld) (st : DbState) :
  (db_connected env = false ->
   add_logo env item w st = (Raise (HTTPException 500 not_available), st)) /\
  (db_connected env = true ->
   let doc := logo_document item (db_utcnow w (db_clock_reads st))
                (db_utcnow w (S (db_clock_reads st))) in
   add_logo env item w st =
     (match insert_one (driver w) (length (operations st)) LOGO_COLLECTION doc with
      | Done inserted_id => Ok (py_str inserted_id)
      | Failed msg => Raise (HTTPException 500 msg)
      end,
      did (Insert LOGO_COLLECTION doc) (db_tick (db_tick st)))).
Proof.
  split.
  - intros Hdb. unfold add_logo, create_document. now rewrite Hdb.
  - intros Hdb doc. unfold add_logo.
    rewrite (create_document_run env LOGO_COLLECTION _ w st Hdb). cbv zeta.
    assert (stamped (OfModel (logo_fields item)) (db_utcnow w (db_clock_reads st))
              (db_utcnow w (S (db_clock_reads st))) = doc) as ->.
    { subst doc. unfold stamped, logo_document, logo_fields.
      cbn [data_dict_of to_plain map fst snd items_of to_plain_dumped].
      now destruct (link_url item). }
    now destruct (insert_one _ _ _ _).
Qed.

(** ** [list_logos] *)

Section Logos.
Context `{Rendering}.

Lemma dict_get_map_values (f : obj -> obj) k (d : list (string * obj)) :
  dict_get k (map (fun kv => (kv.1, f kv.2)) d) = f <$> dict_get k d.
Proof.
  induction d as [|[k' v] d IH]; cbn [map dict_get fst snd]; [reflexivity|].
  now destruct (String.eqb k k').
Qed.

(** On a dict the inner loop is a change of values, key by key. *)
Lemma stringify_datetimes_map (d : list (string * obj)) :
  NoDup d.*1 ->
  stringify_datetimes d = map (fun kv => (kv.1, datetime_as_text kv.2)) d.
Proof.
  intros Hnodup. unfold stringify_datetimes.
  set (conv := fun kv : string * obj => (kv.1, datetime_as_text kv.2)).
  set (step := fun (d : list (string * obj)) (kv : string * obj) =>
                 match kv.2 with
                 | ODatetime t => dict_set kv.1 (OStr (isoformat t)) d
                 | _ => d
                 end).
  enough (forall done todo,
            NoDup (done ++ todo).*1 ->
            fold_left step todo (map conv done ++ todo) = map conv (done ++ todo)) as Hgen
    by exact (Hgen [] d Hnodup).
  intros done todo; revert done; induction todo as [|[k v] todo IH]; intros done Hnd.
  - cbn [fold_left]. now rewrite !app_nil_r.
  - cbn [fold_left].
    assert (step (map conv done ++ (k, v) :: todo) (k, v)
            = map conv (done ++ [(k, v)]) ++ todo) as ->.
    { rewrite map_app. cbn [map]. rewrite <- app_assoc. cbn [app].
      unfold step. cbn [fst snd].
      destruct v; try reflexivity.
      apply dict_set_middle.
      rewrite fmap_app in Hnd. apply NoDup_app in Hnd as (_ & Hdisj & _).
      intros Hin. apply (Hdisj k).
      - change (map conv done).*1 with (fst <$> (conv <$> done)) in Hin.
        rewrite <- list_fmap_compose in Hin. exact Hin.
      - cbn. apply list_elem_of_here. }
    rewrite (IH (done ++ [(k, v)])); rewrite <- app_assoc; [reflexivity | exact Hnd].
Qed.

(** What the outer loop makes of one document. *)
Lemma render_logo_rendered (d : list (string * obj)) :
  NoDup d.*1 -> logo_rendered d (render_logo d).
Proof.
  intros Hnd. unfold render_logo.
  set (s := py_str (default ONone (dict_get "_id" d))).
  assert (NoDup (dict_set "_id" (OStr s) d).*1) as Hnd'.
  { rewrite dict_set_keys. destruct (decide _) as [|Hnot]; [assumption|].
    apply NoDup_app. repeat split; [assumption | | apply NoDup_singleton].
    intros k Hk ->%list_elem_of_singleton. contradiction. }
  rewrite (stringify_datetimes_map _ Hnd'). repeat split.
  - now rewrite dict_get_map_values, dict_get_set_eq.
  - intros k Hk. rewrite dict_get_map_values, dict_get_set_ne by congruence.
    reflexivity.
  - apply Forall_forall. intros kv (kv0 & -> & _)%list_elem_of_fmap t.
    cbn [snd]. now destruct (kv0.2).
Qed.

End Logos.

(** X12. [list_logos] never raises. Without a database handle it
    returns the empty list and touches nothing. With one it runs one
    query on the logo collection, with no filter and with the limit
    unless the limit is zero; a failing query gives the empty list, and
    otherwise every fetched document comes back, in order, with its id as
    text, its datetimes as text and its other values unchanged. *)
Theorem list_logos_rendered `{Rendering} (env : Env) (limit : Z)
    (w : DbWorld) (st : DbState) :
  exists docs st',
    list_logos env limit w st = (Done docs, st') /\
    (db_connected env = false -> docs = [] /\ st' = st) /\
    (db_connected env = true ->
     let lim := if (limit =? 0)%Z then None else Some limit in
     st' = did (Find LOGO_COLLECTION [] lim) st /\
     match find (driver w) (length (operations st)) LOGO_COLLECTION [] lim with
     | Failed _ => docs = []
     | Done fetched =>
         Forall2 (fun d r => r = render_logo d /\ (NoDup d.*1 -> logo_rendered d r))
                 fetched docs
     end).
Proof.
  unfold list_logos, get_documents.
  destruct (db_connected env) eqn:Hdb; cbn [negb].
  - unfold db_find.
    destruct (find (driver w) (length (operations st)) LOGO_COLLECTION []
                (if (limit =? 0)%Z then None else Some limit)) as [fetched|msg] eqn:E.
    + eexists _, _. split; [reflexivity|]. split; [discriminate|]. intros _.
      cbv zeta. split; [reflexivity|]. rewrite ?E.
      clear E. induction fetched as [|d fetched IH]; constructor;
        [split; [reflexivity | apply render_logo_rendered] | exact IH].
    + eexists _, _. split; [reflexivity|]. split; [discriminate|]. intros _.
      cbv zeta. split; [reflexivity|]. now rewrite ?E.
  - eexists _, _. split; [reflexivity|]. split; [auto | discriminate].
Qed.

(** ** The health check *)

(** X13. The health check reports [Connected] exactly when there is a
    database handle and the driver lists the collections; then the
    database line is the working one, both variables show as set, and the
    collections are the driver's list. In every other case the collection
    list is empty; without a handle no operation is run and the database
    line says so. The line the response starts out with, not available,
    is never what is returned. *)
Theorem test_database_report `{UrlType} (env : Env) (w : DbWorld) (st : DbState) :
  let h := (test_database env w st).1 in
  let st' := (test_database env w st).2 in
  let listing := list_collection_names (driver w) (length (operations st)) in
  backend h = "✅ Running" /\
  (connection_status h = "Connected" <->
   db_connected env = true /\ exists names, listing = Done names) /\
  (connection_status h = "Connected" ->
   database h = "✅ Connected & Working" /\
   database_url h = "✅ Set" /\ database_name h = "✅ Set" /\
   listing = Done (collections h)) /\
  (connection_status h <> "Connected" ->
   connection_status h = "Not Connected" /\ collections h = []) /\
  (db_connected env = false ->
   database h = "⚠️ Available but not initialized" /\ st' = st) /\
  (db_connected env = true -> st' = did ListCollections st) /\
  database h <> "❌ Not Available".
Proof.
  cbv zeta. unfold test_database, db_list_collection_names.
  destruct (db_connected env) eqn:Hdb.
  - apply andb_true_iff in Hdb as [Hurl Hname].
    destruct (list_collection_names (driver w) (length (operations st)))
      as [names|msg]; cbn [fst snd backend database database_url database_name
                            connection_status collections]; rewrite Hurl, Hname.
    + repeat split; eauto; try discriminate; try congruence.
    + repeat split; try discriminate; try congruence.
      * intros (_ & names & ?). discriminate.
  - cbn [fst snd backend database database_url database_name
           connection_status collections].
    repeat split; try discriminate; try congruence.
    intros (? & _). discriminate.
Qed.

(** ** The store at work *)

Section StoreRuns.
#[local] Existing Instance Sample.interpreter.
#[local] Existing Instance Sample.plain_urls.
#[local] Existing Instance SampleDb.rendering.

(** A URL in a list becomes text; a URL in a tuple is not reached. *)
Example to_plain_reach :
  to_plain (OList [OUrl "https://example.com/"; OTuple [OUrl "https://example.com/"]])
  = OList [OStr "https://example.com/"; OTuple [OUrl "https://example.com/"]].
Proof. reflexivity. Qed.

(** So a dict with a URL in a tuple is stored with the URL in it. *)
Example create_document_tuple :
  (create_document SampleDb.env "logo"
     (OfDict [("links", OTuple [OUrl "https://example.com/"])])
     SampleDb.store db_initial).2 =
  {| operations :=
       [Insert "logo"
          [("links", OTuple [OUrl "https://example.com/"]);
           ("created_at", ODatetime 1700000000000000%Z);
           ("updated_at", ODatetime 1700000000000001%Z)]];
     db_clock_reads := 2 |}.
Proof. reflexivity. Qed.

(** The message of a failure is cut by characters, not by bytes. *)
Example first_chars_cut : first_chars 3 "é²０x" = "é²０".
Proof. reflexivity. Qed.

Example add_logo_stored :
  add_logo SampleDb.env SampleDb.acme SampleDb.store db_initial =
  (Ok "65a0f1e2d3c4b5a697887766",
   {| operations :=
        [Insert "logo"
           [("name", OStr "Acme");
            ("image_url", OStr "https://example.com/acme.png");
            ("link_url", ONone);
            ("created_at", ODatetime 1700000000000000%Z);
            ("updated_at", ODatetime 1700000000000001%Z)]];
      db_clock_reads := 2 |}).
Proof. reflexivity. Qed.

Example add_logo_down :
  (add_logo SampleDb.env SampleDb.acme SampleDb.down db_initial).1 =
  Raise (HTTPException 500 "connection refused").
Proof. reflexivity. Qed.

Example add_logo_no_handle :
  add_logo SampleDb.no_env SampleDb.acme SampleDb.store db_initial =
  (Raise (HTTPException 500 not_available), db_initial).
Proof. reflexivity. Qed.

Example list_logos_one :
  (list_logos SampleDb.env 50 SampleDb.store db_initial).1 =
  Done [[("_id", OStr "65a0f1e2d3c4b5a697887766");
         ("name", OStr "Acme");
         ("image_url", OStr "https://example.com/acme.png");
         ("link_url", ONone);
         ("created_at", OStr "2023-11-14T22:13:20+00:00")]].
Proof. reflexivity. Qed.

Example list_logos_down :
  (list_logos SampleDb.env 50 SampleDb.down db_initial).1 = Done [].
Proof. reflexivity. Qed.

Example test_database_down :
  (test_database SampleDb.env SampleDb.down db_initial).1 =
  {| backend := "✅ Running";
     database := "⚠️ Connected but Error: connection refused";
     database_url := "✅ Set";
     database_name := "✅ Set";
     connection_status := "Not Connected";
     collections := [] |}.
Proof. reflexivity. Qed.

End StoreRuns.

(** * The clock only stamps *)

Section Timeless.
Context `{Interpreter} `{UrlType} (cfg : Config) (w1 w2 : World) (Hsame : same_answers w1 w2).

Lemma get_youtube_details_same video_id st1 st2 :
  requested st1 = requested st2 ->
  (get_youtube_details cfg video_id w1 st1).1 = (get_youtube_details cfg video_id w2 st2).1 /\
  requested (get_youtube_details cfg video_id w1 st1).2 =
  requested (get_youtube_details cfg video_id w2 st2).2.
Proof.
  intros Hreq.
  destruct (str_truthy (YOUTUBE_API_KEY cfg)) eqn:Hkey.
  - destruct video_id as [v|].
    + destruct (YOUTUBE_API_KEY cfg) as [key|] eqn:Ek; [|discriminate].
      assert (key <> "") as Hne by (intros ->; discriminate).
      rewrite !(get_youtube_details_run cfg v key _ _ Ek Hne).
      cbn [fst snd sent requested]. rewrite Hreq, (Hsame _ _). auto.
    + rewrite !get_youtube_details_no_id. auto.
  - rewrite !(get_youtube_details_no_key cfg video_id _ _ Hkey). auto.
Qed.

Lemma details_of_link_same l st1 st2 :
  requested st1 = requested st2 ->
  (details_of_link cfg l w1 st1).1 = (details_of_link cfg l w2 st2).1 /\
  requested (details_of_link cfg l w1 st1).2 = requested (details_of_link cfg l w2 st2).2.
Proof.
  intros Hreq. unfold details_of_link.
  destruct (str_truthy _); [now apply get_youtube_details_same | auto].
Qed.

Lemma assemble_timeless link details retention st1 st2 :
  without_time <$> (assemble link details retention w1 st1).1 =
  without_time <$> (assemble link details retention w2 st2).1.
Proof.
  rewrite !assemble_run. cbn [fst]. unfold Metric_new, WorkItem_new.
  generalize (utcnow w1 (clock_reads st1)), (utcnow w2 (clock_reads st2)).
  intros t1 t2.
  destruct (Validate.optional Validate.str (field_or details d_upload_date PNone));
    [|reflexivity].
  cbn [mbind result_bind].
  destruct (Validate.str _); [|reflexivity]. cbn [mbind result_bind].
  destruct (Validate.optional Validate.str (field_or details d_channel PNone));
    [|reflexivity].
  cbn [mbind result_bind].
  destruct (Validate.optional Validate.http_url (PStr link)); [|reflexivity].
  cbn [mbind result_bind].
  destruct (Validate.optional Validate.http_url _); [|reflexivity].
  reflexivity.
Qed.

Lemma result_item_same l st1 st2 :
  requested st1 = requested st2 ->
  without_time <$> (result_item cfg l w1 st1).1 =
  without_time <$> (result_item cfg l w2 st2).1 /\
  requested (result_item cfg l w1 st1).2 = requested (result_item cfg l w2 st2).2.
Proof.
  intros Hreq.
  destruct (details_of_link_returns cfg l w1 st1) as (d1 & E1).
  destruct (details_of_link_returns cfg l w2 st2) as (d2 & E2).
  destruct (details_of_link_same l st1 st2 Hreq) as [Hd Hr].
  rewrite (result_item_run cfg l d1 w1 st1 _ E1), (result_item_run cfg l d2 w2 st2 _ E2).
  rewrite E1, E2 in Hd. cbn [fst] in Hd. injection Hd as ->.
  split; [apply assemble_timeless|].
  rewrite !assemble_run. cbn [snd tick requested]. exact Hr.
Qed.

Lemma for_each_same links st1 st2 :
  requested st1 = requested st2 ->
  map without_time <$> (for_each (result_item cfg) links w1 st1).1 =
  map without_time <$> (for_each (result_item cfg) links w2 st2).1 /\
  requested (for_each (result_item cfg) links w1 st1).2 =
  requested (for_each (result_item cfg) links w2 st2).2.
Proof.
  revert st1 st2; induction links as [|l links IH]; intros st1 st2 Hreq.
  - cbn. auto.
  - destruct (result_item_same l st1 st2 Hreq) as [Hitem Hr].
    destruct (result_item cfg l w1 st1) as [[i1|e1] s1] eqn:E1,
             (result_item cfg l w2 st2) as [[i2|e2] s2] eqn:E2;
      cbn [fst snd fmap result_fmap] in Hitem, Hr; try discriminate.
    + destruct (IH s1 s2 Hr) as [Hrest Hr'].
      destruct (for_each (result_item cfg) links w1 s1) as [[r1|x1] s1'] eqn:F1,
               (for_each (result_item cfg) links w2 s2) as [[r2|x2] s2'] eqn:F2;
        cbn [fst snd fmap result_fmap] in Hrest, Hr'; try discriminate.
      * rewrite (for_each_cons_Ok _ _ _ _ _ _ _ _ _ E1 F1),
                (for_each_cons_Ok _ _ _ _ _ _ _ _ _ E2 F2).
        cbn [fst snd fmap result_fmap map]. split; [congruence | exact Hr'].
      * rewrite (for_each_cons_Raise_later _ _ _ _ _ _ _ _ _ E1 F1),
                (for_each_cons_Raise_later _ _ _ _ _ _ _ _ _ E2 F2).
        cbn [fst snd fmap result_fmap]. split; [congruence | exact Hr'].
    + rewrite (for_each_cons_Raise _ _ _ _ _ _ _ E1),
              (for_each_cons_Raise _ _ _ _ _ _ _ E2).
      cbn [fst snd fmap result_fmap]. split; [congruence | exact Hr].
Qed.

Lemma fallback_timeless st1 st2 :
  map without_time <$> (fallback cfg w1 st1).1 =
  map without_time <$> (fallback cfg w2 st2).1.
Proof.
  destruct (parse_HttpUrl (NOTION_PAGE_URL cfg)) as [u|] eqn:Hu.
  - now rewrite !(fallback_run cfg u _ _ Hu).
  - now rewrite !(fallback_invalid cfg _ _ Hu).
Qed.

End Timeless.

(** X14. The clock only stamps. Two runs of the list endpoint that get
    the same answers to their requests, whatever their clocks read,
    return the same: the same items up to [last_updated], or the same
    error. *)
Theorem notion_best_work_timeless `{Interpreter} `{UrlType} (cfg : Config) (w1 w2 : World)
    (st1 st2 : State) :
  same_answers w1 w2 ->
  requested st1 = requested st2 ->
  map without_time <$> (notion_best_work cfg w1 st1).1 =
  map without_time <$> (notion_best_work cfg w2 st2).1.
Proof.
  intros Hsame Hreq. rewrite !notion_best_work_run. cbv zeta.
  rewrite Hreq, (Hsame _ _).
  destruct (http w2 (length (requested st2)) (NOTION_PAGE_URL cfg)) as [r|];
    [|apply fallback_timeless].
  destruct (error_status r); [apply fallback_timeless|].
  assert (requested (sent (NOTION_PAGE_URL cfg) st1) =
          requested (sent (NOTION_PAGE_URL cfg) st2)) as Hreq1
    by (cbn [sent requested]; now rewrite Hreq).
  destruct (for_each_same cfg w1 w2 Hsame (ordered_links (text r)) _ _ Hreq1)
    as [Hitems _].
  destruct (for_each _ _ w1 _) as [[[|i1 r1]|e1] s1],
           (for_each _ _ w2 _) as [[[|i2 r2]|e2] s2];
    cbn [fst snd fmap result_fmap map] in Hitems; try discriminate;
    try apply fallback_timeless.
  cbn [fst fmap result_fmap]. exact Hitems.
Qed.

Section TimelessRuns.
#[local] Existing Instance Sample.interpreter.
#[local] Existing Instance Sample.plain_urls.

Lemma notion_best_work_timeless_witness :
  map without_time <$>
    (notion_best_work Sample.with_key
       (Sample.world two_links (Sample.body [("viewCount", PStr "1234")])) initial).1 =
  map without_time <$>
    (notion_best_work Sample.with_key
       (an_hour_later (Sample.world two_links (Sample.body [("viewCount", PStr "1234")])))
       {| requested := []; clock_reads := 7 |}).1.
Proof.
  apply notion_best_work_timeless; [intros n url; reflexivity | reflexivity].
Defined.

End TimelessRuns.
